(** * Irrigation-and-placement design engine

    A shallow embedding of the computational core of the garden planner:
    - [app/services/agronomic_engine.py]: [AgronomicCalculator],
      [ConflictDetector], the genetic [PlacementOptimizer] and the zones of
      [IrrigationPlanner];
    - [app/services/hydraulic_engine.py]: [HydraulicEngine];
    - [app/services/clustering_engine.py]: [ClusteringEngine].

    Modelling conventions, used throughout.
    - A Python [float] is an exact rational ([Q]): rounding and NaN are not
      modelled, nor is overflow but for the case named below.
      [float('inf')] and [float('-inf')] are the two extra points of
      [ExtQ].  [math.sqrt] is the rational square root truncated at
      a fixed precision ([Qsqrt]); it is exact on squares of rationals and in
      comparisons with whole numbers, and no theorem below depends on its
      precision.  [math.pi] is the double constant of CPython, which is a
      rational number.
    - A raised exception is [None] (or [inl] with the error) in the result.
    - Objects that the code mutates in place (the [PlantPlacement]s of the
      optimizer) live in an explicit store and are named by references.
    - Random draws are explicit arguments: a theorem quantified over the
      draws holds for every outcome of the generator.
    - Calls into numeric libraries whose algorithm is not part of the
      repository (scikit-learn's [KMeans], [silhouette_score] and [DBSCAN]
      after [StandardScaler], scipy's [minimize_scalar] with the logarithms
      around it) are Section variables.
    - Decorators and schema classes are modelled where they decide what a
      call does.  [calculate_optimal_spacing] is the function as decorated:
      the [lru_cache] around it hashes the arguments of every call, and a
      [PlantSpecs] (a dataclass that is not frozen) cannot be hashed, so
      the call raises; the body is kept apart as
      [calculate_optimal_spacing_wrapped].  The pydantic models are records
      of their declared fields: an attribute that no pipe class declares
      ([pipe.diameter_m]) raises when it is read, and the constructor of
      [IrrigationEquipment] validates the id and the dates it is given.
    - Of floating-point overflow only the [OverflowError] of [** 2] in
      [calculate_minor_losses] is modelled, at the largest double. *)

From Stdlib Require Import QArith Qround Lqa Lia ZArith List Sorted Permutation String Ascii Bool.
Import ListNotations.

Local Open Scope Q_scope.

(* ================================================================== *)
(** ** Python numbers *)
(* ================================================================== *)

Module PyFloat.

Definition ltb (a b : Q) : bool := negb (Qle_bool b a).
Definition leb (a b : Q) : bool := Qle_bool a b.

(** [max(a, b)] and [min(a, b)] keep the first argument on a tie. *)
Definition py_max (a b : Q) : Q := if ltb a b then b else a.
Definition py_min (a b : Q) : Q := if ltb b a then b else a.

(** [a / b], which raises [ZeroDivisionError] when [b] is zero. *)
Definition py_div (a b : Q) : option Q :=
  if Qeq_bool b 0 then None else Some (a / b).

(** Floats extended with the two infinities. *)
Inductive ExtQ : Type :=
| NegInf : ExtQ
| Fin : Q -> ExtQ
| PosInf : ExtQ.

Definition ext_ltb (a b : ExtQ) : bool :=
  match a, b with
  | NegInf, NegInf => false
  | NegInf, _ => true
  | Fin _, NegInf => false
  | Fin x, Fin y => ltb x y
  | Fin _, PosInf => true
  | PosInf, _ => false
  end.

(** [a == b]. *)
Definition ext_eqb (a b : ExtQ) : bool :=
  negb (ext_ltb a b) && negb (ext_ltb b a).

Definition ext_le (a b : ExtQ) : Prop :=
  match a, b with
  | NegInf, _ => True
  | Fin _, NegInf => False
  | Fin x, Fin y => x <= y
  | Fin _, PosInf => True
  | PosInf, PosInf => True
  | PosInf, _ => False
  end.

(** [math.sqrt] on a non-negative argument: [sqrt (n/d) = sqrt (n*d) / d],
    with the integer square root taken after scaling by [sqrt_scale]. *)
Definition sqrt_scale : positive := 1000000000000.

Definition Qsqrt (q : Q) : Q :=
  Z.sqrt (Qnum q * Zpos (Qden q) * (Zpos sqrt_scale * Zpos sqrt_scale))
    # (Qden q * sqrt_scale).

(** [math.sqrt] raises [ValueError] on a negative argument. *)
Definition math_sqrt (q : Q) : option Q :=
  if ltb q 0 then None else Some (Qsqrt q).

(** [math.pi], the double 0x400921FB54442D18. *)
Definition math_pi : Q := 884279719003555 # 281474976710656.

(** [math.ceil]. *)
Definition math_ceil (q : Q) : Z := Qceiling q.

End PyFloat.

Import PyFloat.

(* ================================================================== *)
(** ** agronomic_engine.py *)
(* ================================================================== *)

Module Agronomic.

Inductive WaterNeed : Type := LOW | MEDIUM | HIGH.
Inductive SunExposure : Type := FULL_SUN | PARTIAL_SUN | SHADE.

Definition WaterNeed_eqb (a b : WaterNeed) : bool :=
  match a, b with
  | LOW, LOW | MEDIUM, MEDIUM | HIGH, HIGH => true
  | _, _ => false
  end.

(** [PlantSpecs], [GardenZone] and [PlantPlacement], with the fields the
    modelled functions read. *)
Record PlantSpecs : Type := mkPlantSpecs {
  name : string;
  spacing_min : Q;          (* cm *)
  spacing_optimal : Q;      (* cm *)
  water_need : WaterNeed;
  sun_exposure : SunExposure;
  incompatible_plants : list string
}.

Record GardenZone : Type := mkGardenZone {
  zone_id : string;
  area : Q;                 (* m^2 *)
  coordinates : Q * Q
}.

Record PlantPlacement : Type := mkPlantPlacement {
  plant_id : string;
  plant_specs : PlantSpecs;
  x : Q;
  y : Q
}.

(** *** AgronomicCalculator *)

Definition soil_factor (soil_quality : Q) : Q := 0.8 + soil_quality * 0.4.

Definition water_factor (w : WaterNeed) : Q :=
  match w with LOW => 1.0 | MEDIUM => 1.1 | HIGH => 1.2 end.

Definition sun_factor (s : SunExposure) : Q :=
  match s with FULL_SUN => 1.1 | PARTIAL_SUN => 1.0 | SHADE => 0.9 end.

(** The exceptions that the functions of this module raise. *)
Inductive Exception : Type := TypeError | ValueError.

(** [hash(plant_specs)]: [PlantSpecs] is a [@dataclass] that is not frozen
    and defines [__eq__], so its [__hash__] is [None]: whatever the fields
    hold, [hash] raises [TypeError] ([None] here). *)
Definition PlantSpecs_hash (p : PlantSpecs) : option Z := None.

(** [functools.lru_cache]: the wrapper makes the key of a call by hashing
    the arguments, before it looks up the cache or calls the function; the
    wrapped function has no effect, so a hit returns what a call would. *)
Definition lru_cache {A B : Type} (hash_args : A -> option Z)
  (user_function : A -> B) (args : A) : Exception + B :=
  match hash_args args with
  | None => inl TypeError
  | Some _ => inr (user_function args)
  end.

(** The body of [calculate_optimal_spacing], which the decorator keeps as
    [calculate_optimal_spacing.__wrapped__]. *)
Definition calculate_optimal_spacing_wrapped (p : PlantSpecs)
  (soil_quality : Q) : Q :=
  let base_spacing := spacing_optimal p in
  let optimal_spacing :=
    base_spacing * soil_factor soil_quality
      * water_factor (water_need p) * sun_factor (sun_exposure p) in
  py_max optimal_spacing (spacing_min p).

(** [calculate_optimal_spacing], as decorated with
    [@lru_cache(maxsize=1000)]: the key holds [plant_specs]. *)
Definition calculate_optimal_spacing (p : PlantSpecs) (soil_quality : Q)
  : Exception + Q :=
  lru_cache (fun args => PlantSpecs_hash (fst args))
    (fun args => calculate_optimal_spacing_wrapped (fst args) (snd args))
    (p, soil_quality).

(** [sqrt(dx*dx + dy*dy)]; the argument is a sum of squares. *)
Definition euclid (x1 y1 x2 y2 : Q) : Q :=
  Qsqrt ((x1 - x2) ^ 2 + (y1 - y2) ^ 2).

Definition distance (p1 p2 : PlantPlacement) : Q :=
  euclid (x p1) (y p1) (x p2) (y p2).

(** [_is_in_zone]: [math.sqrt(zone.area / math.pi)] raises on a negative
    area. *)
Definition _is_in_zone (p : PlantPlacement) (z : GardenZone) : option bool :=
  let d := euclid (x p) (y p) (fst (coordinates z)) (snd (coordinates z)) in
  match math_sqrt (area z / math_pi) with
  | None => None
  | Some r => Some (leb d r)
  end.

(** [any(self.calculator._is_in_zone(placement, zone) for zone in zones)]:
    the generator stops at the first zone that contains the placement. *)
Fixpoint in_any_zone (p : PlantPlacement) (zones : list GardenZone)
  : option bool :=
  match zones with
  | [] => Some false
  | z :: zs =>
      match _is_in_zone p z with
      | None => None
      | Some true => Some true
      | Some false => in_any_zone p zs
      end
  end.

(** *** ConflictDetector *)

Inductive Severity : Type := SeverityHigh | SeverityMedium.

Record SpacingViolation : Type := mkSpacingViolation {
  sv_plant1 : string;
  sv_plant2 : string;
  current_distance : Q;
  required_distance : Q;
  sv_severity : Severity
}.

Record CompatibilityViolation : Type := mkCompatibilityViolation {
  cv_plant1 : string;
  cv_plant2 : string;
  cv_distance : Q;
  cv_severity : Severity
}.

Record ZoneViolation : Type := mkZoneViolation {
  zv_plant_id : string;
  position : Q * Q;
  zv_severity : Severity
}.

Record ResourceConflict : Type := mkResourceConflict {
  rc_type : string;
  plants : list string;
  rc_severity : Severity;
  description : string
}.

Record Conflicts : Type := mkConflicts {
  spacing_violations : list SpacingViolation;
  compatibility_violations : list CompatibilityViolation;
  zone_violations : list ZoneViolation;
  resource_conflicts : list ResourceConflict
}.

(** [n in names] on a list of strings. *)
Definition name_in (n : string) (names : list string) : bool :=
  existsb (String.eqb n) names.

(** The condition of the compatibility loops:
    [p2.name in p1.incompatible_plants or p1.name in p2.incompatible_plants]. *)
Definition incompatible (p1 p2 : PlantPlacement) : bool :=
  name_in (name (plant_specs p2)) (incompatible_plants (plant_specs p1))
  || name_in (name (plant_specs p1)) (incompatible_plants (plant_specs p2)).

(** Body of the spacing loop for one pair; the call of
    [calculate_optimal_spacing] may raise. *)
Definition spacing_check (p1 p2 : PlantPlacement)
  : Exception + list SpacingViolation :=
  let d := distance p1 p2 in
  match calculate_optimal_spacing (plant_specs p1) 0.7 with
  | inl e => inl e
  | inr spacing =>
      let min_spacing := spacing / 100 in
      inr (if ltb d min_spacing then
             [ {| sv_plant1 := plant_id p1;
                  sv_plant2 := plant_id p2;
                  current_distance := d;
                  required_distance := min_spacing;
                  sv_severity := if ltb d (min_spacing * 0.5)
                                 then SeverityHigh else SeverityMedium |} ]
           else [])
  end.

(** Body of the compatibility loop for one pair. *)
Definition compatibility_check (p1 p2 : PlantPlacement)
  : list CompatibilityViolation :=
  if incompatible p1 p2 then
    let d := distance p1 p2 in
    if ltb d 2.0 then
      [ {| cv_plant1 := plant_id p1;
           cv_plant2 := plant_id p2;
           cv_distance := d;
           cv_severity := SeverityHigh |} ]
    else []
  else [].

(** [for i, p1 in enumerate(ps): for j, p2 in enumerate(ps[i+1:], i+1): ...]
    where the body appends the records [check p1 p2] to one list. *)
Fixpoint pairwise {A : Type} (check : PlantPlacement -> PlantPlacement -> list A)
  (ps : list PlantPlacement) : list A :=
  match ps with
  | [] => []
  | p1 :: rest => flat_map (check p1) rest ++ pairwise check rest
  end.

(** The same pair loops with a body that may raise: the first exception
    ends the loops. *)
Fixpoint each_later {A : Type} (check : PlantPlacement -> Exception + list A)
  (later : list PlantPlacement) : Exception + list A :=
  match later with
  | [] => inr []
  | p2 :: rest =>
      match check p2 with
      | inl e => inl e
      | inr found =>
          match each_later check rest with
          | inl e => inl e
          | inr more => inr (found ++ more)
          end
      end
  end.

Fixpoint pairwise_raising {A : Type}
  (check : PlantPlacement -> PlantPlacement -> Exception + list A)
  (ps : list PlantPlacement) : Exception + list A :=
  match ps with
  | [] => inr []
  | p1 :: rest =>
      match each_later (check p1) rest with
      | inl e => inl e
      | inr found =>
          match pairwise_raising check rest with
          | inl e => inl e
          | inr more => inr (found ++ more)
          end
      end
  end.

Fixpoint zone_check (ps : list PlantPlacement) (zones : list GardenZone)
  : option (list ZoneViolation) :=
  match ps with
  | [] => Some []
  | p :: rest =>
      match in_any_zone p zones with
      | None => None
      | Some in_valid_zone =>
          match zone_check rest zones with
          | None => None
          | Some vs =>
              Some (if in_valid_zone then vs
                    else {| zv_plant_id := plant_id p;
                            position := (x p, y p);
                            zv_severity := SeverityHigh |} :: vs)
          end
      end
  end.

(** The inner loop of [_detect_water_conflicts] for [placement1]: the ids of
    the placements of [placements[i+1:]] that pass both tests. *)
Definition high_water_plants (p1 : PlantPlacement) (later : list PlantPlacement)
  : list string :=
  map plant_id
    (filter (fun p2 =>
               ltb (distance p1 p2) 1.0
               && (WaterNeed_eqb (water_need (plant_specs p1)) HIGH
                   && WaterNeed_eqb (water_need (plant_specs p2)) HIGH))
            later).

Definition water_competition (p1 : PlantPlacement) (hw : list string)
  : ResourceConflict :=
  {| rc_type := "water_competition";
     plants := plant_id p1 :: hw;
     rc_severity := SeverityMedium;
     description := "Multiple high-water-need plants in close proximity" |}.

Fixpoint _detect_water_conflicts (placements : list PlantPlacement)
  (garden_zones : list GardenZone) : list ResourceConflict :=
  match placements with
  | [] => []
  | p1 :: later =>
      let hw := high_water_plants p1 later in
      (if (2 <? List.length hw)%nat then [water_competition p1 hw] else [])
        ++ _detect_water_conflicts later garden_zones
  end.

(** [detect_conflicts]: the spacing loop comes first and its exception, if
    any, ends the call; the zone check raises [ValueError] on a zone of
    negative area. *)
Definition detect_conflicts (placements : list PlantPlacement)
  (garden_zones : list GardenZone) : Exception + Conflicts :=
  match pairwise_raising spacing_check placements with
  | inl e => inl e
  | inr sv =>
      let cv := pairwise compatibility_check placements in
      match zone_check placements garden_zones with
      | None => inl ValueError
      | Some zv =>
          inr {| spacing_violations := sv;
                 compatibility_violations := cv;
                 zone_violations := zv;
                 resource_conflicts :=
                   _detect_water_conflicts placements garden_zones |}
      end
  end.

(** *** PlacementOptimizer *)

Record PlacementOptimizer : Type := mkPlacementOptimizer {
  population_size : nat;
  generations : nat;
  mutation_rate : Q;
  crossover_rate : Q
}.

(** The attributes set by [__init__]. *)
Definition default_optimizer : PlacementOptimizer :=
  {| population_size := 50; generations := 100;
     mutation_rate := 0.1; crossover_rate := 0.8 |}.

(** [PlantPlacement] objects are mutable and shared between candidate
    lists: a candidate is a list of references into a store. *)
Definition Ref : Type := nat.
Definition Store : Type := Ref -> PlantPlacement.
Definition Individual : Type := list Ref.

Definition store_set (st : Store) (r : Ref) (p : PlantPlacement) : Store :=
  fun r' => if Nat.eqb r' r then p else st r'.

(** [individual.copy()]: a new list that holds the same references. *)
Definition list_copy (l : Individual) : Individual := l.

(** The placements a candidate denotes in a store. *)
Definition placements_of (st : Store) (ind : Individual) : list PlantPlacement :=
  map st ind.

(** What a pair adds to [spacing_penalty]; the call of
    [calculate_optimal_spacing] may raise. *)
Definition spacing_excess (p1 p2 : PlantPlacement) : Exception + Q :=
  let d := distance p1 p2 in
  match calculate_optimal_spacing (plant_specs p1) 0.7 with
  | inl e => inl e
  | inr spacing =>
      let min_spacing := spacing / 100 in
      inr (if ltb d min_spacing then (min_spacing - d) * 10 else 0)
  end.

Definition compatibility_fine (p1 p2 : PlantPlacement) : Q :=
  if incompatible p1 p2 then
    if ltb (distance p1 p2) 1.0 then 50 else 0
  else 0.

(** A penalty accumulated with [+=] over the pairs [i < j]. *)
Fixpoint pair_penalty (f : PlantPlacement -> PlantPlacement -> Q) (acc : Q)
  (ps : list PlantPlacement) : Q :=
  match ps with
  | [] => acc
  | p1 :: rest =>
      pair_penalty f (fold_left (fun a p2 => a + f p1 p2) rest acc) rest
  end.

(** The same accumulation with a term that may raise. *)
Fixpoint add_later (f : PlantPlacement -> Exception + Q) (acc : Q)
  (later : list PlantPlacement) : Exception + Q :=
  match later with
  | [] => inr acc
  | p2 :: rest =>
      match f p2 with
      | inl e => inl e
      | inr term => add_later f (acc + term) rest
      end
  end.

Fixpoint pair_penalty_raising
  (f : PlantPlacement -> PlantPlacement -> Exception + Q) (acc : Q)
  (ps : list PlantPlacement) : Exception + Q :=
  match ps with
  | [] => inr acc
  | p1 :: rest =>
      match add_later (f p1) acc rest with
      | inl e => inl e
      | inr acc' => pair_penalty_raising f acc' rest
      end
  end.

Fixpoint zone_penalty (acc : Q) (ps : list PlantPlacement)
  (zones : list GardenZone) : option Q :=
  match ps with
  | [] => Some acc
  | p :: rest =>
      match in_any_zone p zones with
      | None => None
      | Some true => zone_penalty acc rest zones
      | Some false => zone_penalty (acc + 100) rest zones
      end
  end.

(** [_calculate_fitness]: the spacing loop comes first and its exception,
    if any, ends the call; the zone loop raises [ValueError] on a zone of
    negative area. *)
Definition _calculate_fitness (st : Store) (individual : Individual)
  (garden_zones : list GardenZone) : Exception + ExtQ :=
  match individual with
  | [] => inr NegInf
  | _ =>
      let ps := placements_of st individual in
      match pair_penalty_raising spacing_excess 0 ps with
      | inl e => inl e
      | inr spacing_penalty =>
          let compatibility_penalty := pair_penalty compatibility_fine 0 ps in
          match zone_penalty 0 ps garden_zones with
          | None => inl ValueError
          | Some zone_pen =>
              let total_penalty :=
                spacing_penalty + compatibility_penalty + zone_pen in
              let base_fitness :=
                inject_Z (Z.of_nat (List.length individual)) * 10 in
              inr (Fin (base_fitness - total_penalty))
          end
      end
  end.

(** The evaluation loop of one generation, which also tracks the best
    candidate seen so far; [None] when a fitness computation raises. *)
Fixpoint evaluate (st : Store) (zones : list GardenZone)
  (pop : list Individual) (fitness_scores : list ExtQ)
  (best_fitness : ExtQ) (best_solution : option Individual)
  : option (list ExtQ * ExtQ * option Individual) :=
  match pop with
  | [] => Some (fitness_scores, best_fitness, best_solution)
  | individual :: rest =>
      match _calculate_fitness st individual zones with
      | inl _ => None
      | inr fitness =>
          if ext_ltb best_fitness fitness
          then evaluate st zones rest (fitness_scores ++ [fitness])
                 fitness (Some (list_copy individual))
          else evaluate st zones rest (fitness_scores ++ [fitness])
                 best_fitness best_solution
      end
  end.

Definition tournament_size : nat := 3.

Fixpoint max_from (m : ExtQ) (l : list ExtQ) : ExtQ :=
  match l with
  | [] => m
  | a :: r => max_from (if ext_ltb m a then a else m) r
  end.

(** [l.index(m)]. *)
Fixpoint index_of (m : ExtQ) (l : list ExtQ) : option nat :=
  match l with
  | [] => None
  | a :: r => if ext_eqb a m then Some 0%nat else option_map S (index_of m r)
  end.

Fixpoint lookup_all {A : Type} (l : list A) (idx : list nat) : option (list A) :=
  match idx with
  | [] => Some []
  | i :: r =>
      match nth_error l i, lookup_all l r with
      | Some a, Some t => Some (a :: t)
      | _, _ => None
      end
  end.

(** [_tournament_selection]; [sample] is the outcome of
    [random.sample(range(len(population)), 3)], which raises when the
    population has fewer than three candidates. *)
Definition _tournament_selection (pop : list Individual)
  (fitness_scores : list ExtQ) (sample : list nat) : option Individual :=
  if (List.length pop <? tournament_size)%nat then None
  else
    match lookup_all fitness_scores sample with
    | Some (f :: fs) =>
        match index_of (max_from f fs) (f :: fs) with
        | Some k =>
            match nth_error sample k with
            | Some winner_index => nth_error pop winner_index
            | None => None
            end
        | None => None
        end
    | _ => None
    end.

(** [_crossover]; [point] is the outcome of
    [random.randint(1, len(parent1) - 1)], which raises on an empty range. *)
Definition _crossover (parent1 parent2 : Individual) (point : nat)
  : option (Individual * Individual) :=
  if negb (List.length parent1 =? List.length parent2)%nat
  then Some (list_copy parent1, list_copy parent2)
  else if (List.length parent1 <? 2)%nat then None
  else if ((1 <=? point) && (point <=? List.length parent1 - 1))%nat
  then Some (firstn point parent1 ++ skipn point parent2,
             firstn point parent2 ++ skipn point parent1)
  else None.

(** The draws of one round of the mutation loop: [random.random()] and the
    two [random.uniform(-0.5, 0.5)]. *)
Record Jitter : Type := mkJitter { coin : Q; dx : Q; dy : Q }.

(** [p.x += dx; p.y += dy] on the object [p]. *)
Definition move (p : PlantPlacement) (ddx ddy : Q) : PlantPlacement :=
  {| plant_id := plant_id p; plant_specs := plant_specs p;
     x := x p + ddx; y := y p + ddy |}.

Fixpoint mutate_loop (st : Store) (i : nat) (mutated : list Ref)
  (draws : nat -> Jitter) : Store :=
  match mutated with
  | [] => st
  | r :: rest =>
      let j := draws i in
      let st' := if ltb (coin j) 0.1
                 then store_set st r (move (st r) (dx j) (dy j))
                 else st in
      mutate_loop st' (S i) rest draws
  end.

(** [_mutate] returns the list [mutated]; the store is what its in-place
    assignments leave behind. *)
Definition _mutate (st : Store) (individual : Individual)
  (draws : nat -> Jitter) : Store * Individual :=
  let mutated := list_copy individual in
  (mutate_loop st 0 mutated draws, mutated).

(** The draws of one round of the selection loop. *)
Record PairDraws : Type := mkPairDraws {
  sample1 : list nat;
  sample2 : list nat;
  crossover_coin : Q;
  crossover_point : nat;
  mutation_coin1 : Q;
  jitters1 : nat -> Jitter;
  mutation_coin2 : Q;
  jitters2 : nat -> Jitter
}.

Definition breed (cfg : PlacementOptimizer) (st : Store)
  (pop : list Individual) (fitness_scores : list ExtQ) (d : PairDraws)
  : option (Store * list Individual) :=
  match _tournament_selection pop fitness_scores (sample1 d),
        _tournament_selection pop fitness_scores (sample2 d) with
  | Some parent1, Some parent2 =>
      match (if ltb (crossover_coin d) (crossover_rate cfg)
             then _crossover parent1 parent2 (crossover_point d)
             else Some (list_copy parent1, list_copy parent2)) with
      | None => None
      | Some (child1, child2) =>
          let '(st1, child1') :=
            if ltb (mutation_coin1 d) (mutation_rate cfg)
            then _mutate st child1 (jitters1 d) else (st, child1) in
          let '(st2, child2') :=
            if ltb (mutation_coin2 d) (mutation_rate cfg)
            then _mutate st1 child2 (jitters2 d) else (st1, child2) in
          Some (st2, [child1'; child2'])
      end
  | _, _ => None
  end.

Fixpoint breed_loop (cfg : PlacementOptimizer) (rounds k : nat) (st : Store)
  (pop : list Individual) (fitness_scores : list ExtQ)
  (draws : nat -> PairDraws) (new_population : list Individual)
  : option (Store * list Individual) :=
  match rounds with
  | O => Some (st, new_population)
  | S rounds' =>
      match breed cfg st pop fitness_scores (draws k) with
      | None => None
      | Some (st', children) =>
          breed_loop cfg rounds' (S k) st' pop fitness_scores draws
            (new_population ++ children)
      end
  end.

(** The variables of [optimize_placement_genetic] that live across
    generations, with the store of placement objects. *)
Record GAState : Type := mkGAState {
  store : Store;
  population : list Individual;
  best_fitness : ExtQ;
  best_solution : option Individual
}.

(** One iteration of [for generation in range(self.generations)]. *)
Definition generation_step (cfg : PlacementOptimizer)
  (zones : list GardenZone) (s : GAState) (draws : nat -> PairDraws)
  : option GAState :=
  match evaluate (store s) zones (population s) []
          (best_fitness s) (best_solution s) with
  | None => None
  | Some (fitness_scores, bf, bs) =>
      match breed_loop cfg (population_size cfg / 2) 0 (store s)
              (population s) fitness_scores draws [] with
      | None => None
      | Some (st', new_population) =>
          Some {| store := st';
                  population := firstn (population_size cfg) new_population;
                  best_fitness := bf;
                  best_solution := bs |}
      end
  end.

(** [n] generations, numbered from [g]. *)
Fixpoint run_generations (cfg : PlacementOptimizer) (zones : list GardenZone)
  (n g : nat) (s : GAState) (draws : nat -> nat -> PairDraws)
  : option GAState :=
  match n with
  | O => Some s
  | S n' =>
      match generation_step cfg zones s (draws g) with
      | None => None
      | Some s' => run_generations cfg zones n' (S g) s' draws
      end
  end.

(** [optimize_placement_genetic] from the population that
    [_initialize_population] built in the store [st]. *)
Definition optimize_placement_genetic (cfg : PlacementOptimizer)
  (zones : list GardenZone) (st : Store) (pop : list Individual)
  (draws : nat -> nat -> PairDraws) : option (Store * option Individual) :=
  let s0 := {| store := st; population := pop;
               best_fitness := NegInf; best_solution := None |} in
  match run_generations cfg zones (generations cfg) 0 s0 draws with
  | None => None
  | Some s => Some (store s, best_solution s)
  end.

(** *** AgronomicCalculator: water, sun and growth *)

Inductive GrowthStage : Type :=
  SEED | SEEDLING | VEGETATIVE | FLOWERING | FRUITING | HARVEST.

(** A [PlantSpecs] with the further fields that the water and growth
    calculations read. *)
Record PlantTraits : Type := mkPlantTraits {
  specs : PlantSpecs;
  growth_days : Z;
  width_max : Q;            (* cm *)
  yield_per_plant : Q       (* kg *)
}.

(** A [GardenZone] with the further fields that the solar calculation
    reads. *)
Record ZoneSite : Type := mkZoneSite {
  zone : GardenZone;
  zone_sun_exposure : SunExposure;
  slope : Q                 (* degrees *)
}.

(** A [PlantPlacement] with its condition; [days_elapsed] is
    [(datetime.now() - planted_date).days]. *)
Record PlacementState : Type := mkPlacementState {
  placement : PlantPlacement;
  days_elapsed : Z;
  current_stage : GrowthStage;
  health_score : Q;
  water_stress : Q;
  nutrient_stress : Q
}.

(** [d.get(key, default)] for a key that holds a float when present. *)
Definition dict_get (entry : option Q) (default : Q) : Q :=
  match entry with
  | Some v => v
  | None => default
  end.

(** [int(q)]: rounding towards zero. *)
Definition py_int (q : Q) : Z :=
  if Qle_bool 0 q then Qfloor q else Qceiling q.

Definition kc_values (stage : GrowthStage) : Q :=
  match stage with
  | SEED => 0.3
  | SEEDLING => 0.5
  | VEGETATIVE => 0.8
  | FLOWERING => 1.0
  | FRUITING => 1.1
  | HARVEST => 0.7
  end.

Definition water_multiplier (w : WaterNeed) : Q :=
  match w with LOW => 0.7 | MEDIUM => 1.0 | HIGH => 1.3 end.

(** [calculate_water_needs]; [et0_entry] is the entry ['et0'] of
    [weather_data]. *)
Definition calculate_water_needs (p : PlantTraits) (et0_entry : option Q)
  (soil_moisture : Q) (growth_stage : GrowthStage) : Q :=
  let et0 := dict_get et0_entry 5.0 in
  let kc := kc_values growth_stage in
  let multiplier := water_multiplier (water_need (specs p)) in
  let stress_factor := py_max 0.5 (py_min 1.5 (soil_moisture / 0.3)) in
  let daily_water :=
    et0 * kc * multiplier * stress_factor * width_max p * width_max p
      / 10000 in
  py_max 0.1 daily_water.

(** [next((z for z in zones if self._is_in_zone(placement, z)), None)]. *)
Fixpoint first_zone_of (p : PlantPlacement) (zones : list ZoneSite)
  : option (option ZoneSite) :=
  match zones with
  | [] => Some None
  | z :: zs =>
      match _is_in_zone p (zone z) with
      | None => None
      | Some true => Some (Some z)
      | Some false => first_zone_of p zs
      end
  end.

Definition base_exposure (s : SunExposure) : Q :=
  match s with FULL_SUN => 1.0 | PARTIAL_SUN => 0.6 | SHADE => 0.3 end.

(** [calculate_solar_exposure]; [seasonal_entry] is the entry
    ['seasonal_factor'] of [sun_data]. *)
Definition calculate_solar_exposure (p : PlantPlacement)
  (garden_zones : list ZoneSite) (seasonal_entry : option Q) : option Q :=
  match first_zone_of p garden_zones with
  | None => None
  | Some None => Some 0.5
  | Some (Some z) =>
      let seasonal_factor := dict_get seasonal_entry 1.0 in
      let slope_factor := 1.0 + (slope z / 90.0) * 0.2 in
      let exposure_score :=
        base_exposure (zone_sun_exposure z) * seasonal_factor * slope_factor in
      Some (py_min 1.0 (py_max 0.0 exposure_score))
  end.

(** The result of [calculate_growth_prediction]. *)
Record GrowthPrediction : Type := mkGrowthPrediction {
  growth_modifier : Q;
  adjusted_growth_days : Z;
  predicted_yield : Q;
  current_progress : Q;
  days_to_harvest : Z;
  gp_health_score : Q;
  stress_water : Q;
  stress_nutrient : Q;
  stress_temperature : Q;
  stress_humidity : Q
}.

(** [calculate_growth_prediction]; the two entries are
    ['temperature_stress'] and ['humidity_stress'] of
    [environmental_factors].  The sum over the stage durations that the
    source also computes is never used and is left out.  [None] is the
    [ZeroDivisionError] of [days_elapsed / adjusted_growth_days]. *)
Definition calculate_growth_prediction (p : PlantTraits) (pl : PlacementState)
  (temperature_entry humidity_entry : option Q) : option GrowthPrediction :=
  let temp_stress := dict_get temperature_entry 0.0 in
  let humidity_stress := dict_get humidity_entry 0.0 in
  let total_stress :=
    (water_stress pl + nutrient_stress pl + temp_stress + humidity_stress)
      / 4 in
  let modifier := py_max 0.5 (py_min 1.5 (1.0 - total_stress * 0.5)) in
  let adjusted := py_int (inject_Z (growth_days p) / modifier) in
  let yield_modifier := health_score pl * (1.0 - total_stress * 0.3) in
  match py_div (inject_Z (days_elapsed pl)) (inject_Z adjusted) with
  | None => None
  | Some total_progress =>
      Some {| growth_modifier := modifier;
              adjusted_growth_days := adjusted;
              predicted_yield := yield_per_plant p * yield_modifier;
              current_progress := py_min 1.0 total_progress;
              days_to_harvest := Z.max 0 (adjusted - days_elapsed pl);
              gp_health_score := health_score pl;
              stress_water := water_stress pl;
              stress_nutrient := nutrient_stress pl;
              stress_temperature := temp_stress;
              stress_humidity := humidity_stress |}
  end.

(** *** IrrigationPlanner (of agronomic_engine.py) *)

(** The dict that [_create_irrigation_zone] returns; the empty zone has no
    ['water_need']. *)
Record WaterZone : Type := mkWaterZone {
  wz_plants : list PlantPlacement;
  wz_center : Q * Q;
  wz_radius : Q;
  wz_water_need : option WaterNeed
}.

(** [sum(...)] of floats, from 0, left to right. *)
Definition sum_floats (l : list Q) : Q := fold_left Qplus l 0.

(** [max(...)] of a non-empty sequence of floats: the first maximal one. *)
Fixpoint max_float_from (m : Q) (l : list Q) : Q :=
  match l with
  | [] => m
  | a :: r => max_float_from (if ltb m a then a else m) r
  end.

Fixpoint min_float_from (m : Q) (l : list Q) : Q :=
  match l with
  | [] => m
  | a :: r => min_float_from (if ltb a m then a else m) r
  end.

Definition _create_irrigation_zone (plants : list PlantPlacement)
  (garden_zones : list GardenZone) (w : WaterNeed) : WaterZone :=
  match plants with
  | [] => {| wz_plants := []; wz_center := (0, 0); wz_radius := 0;
             wz_water_need := None |}
  | p0 :: rest =>
      let n := inject_Z (Z.of_nat (List.length plants)) in
      let center_x := sum_floats (map x plants) / n in
      let center_y := sum_floats (map y plants) / n in
      let dist := fun p => euclid (x p) (y p) center_x center_y in
      let max_distance := max_float_from (dist p0) (map dist rest) in
      {| wz_plants := plants;
         wz_center := (center_x, center_y);
         wz_radius := max_distance + 1.0;
         wz_water_need := Some w |}
  end.

(** The overlap that [_calculate_irrigation_efficiency] adds up over the
    pairs of zones. *)
Definition zone_overlap (z1 z2 : WaterZone) : Q :=
  let d := euclid (fst (wz_center z1)) (snd (wz_center z1))
                  (fst (wz_center z2)) (snd (wz_center z2)) in
  let combined_radius := wz_radius z1 + wz_radius z2 in
  if ltb d combined_radius then combined_radius - d else 0.

Fixpoint total_overlap_from (acc : Q) (zone_list : list WaterZone) : Q :=
  match zone_list with
  | [] => acc
  | z1 :: rest =>
      total_overlap_from
        (fold_left (fun a z2 => a + zone_overlap z1 z2) rest acc) rest
  end.

(** [_calculate_irrigation_efficiency] on the values of the two dicts, in
    their order; [None] is the [ValueError] of [max] on no value. *)
Definition _calculate_irrigation_efficiency (zones : list WaterZone)
  (water_needs : list Q) : option Q :=
  match zones with
  | [] => Some 0.0
  | _ =>
      let total_overlap := total_overlap_from 0 zones in
      let overlap_penalty := total_overlap * 0.1 in
      match water_needs with
      | [] => None
      | w0 :: ws =>
          let water_balance :=
            1.0 - (max_float_from w0 ws - min_float_from w0 ws) / 10 in
          Some (py_max 0.0 (py_min 1.0 (water_balance - overlap_penalty)))
      end
  end.

End Agronomic.

(* ================================================================== *)
(** ** hydraulic_engine.py *)
(* ================================================================== *)

Module Hydraulic.

Inductive PipeMaterial : Type := PVC | PE | PEX | COPPER.
Inductive FlowRegime : Type := LAMINAR | TRANSITIONAL | TURBULENT.

Record PipeProps : Type := mkPipeProps {
  roughness_mm : Q;
  cost_per_meter : Q
}.

Definition PIPE_PROPERTIES (m : PipeMaterial) : PipeProps :=
  match m with
  | PVC => {| roughness_mm := 0.0015; cost_per_meter := 2.5 |}
  | PE => {| roughness_mm := 0.007; cost_per_meter := 3.2 |}
  | PEX => {| roughness_mm := 0.007; cost_per_meter := 4.8 |}
  | COPPER => {| roughness_mm := 0.0015; cost_per_meter := 12.0 |}
  end.

Definition WATER_DENSITY : Q := 998.2.
Definition WATER_VISCOSITY : Q := 1.002e-3.

Definition calculate_reynolds_number (velocity_ms diameter_m : Q) : Q :=
  (WATER_DENSITY * velocity_ms * diameter_m) / WATER_VISCOSITY.

Definition determine_flow_regime (reynolds_number : Q) : FlowRegime :=
  if ltb reynolds_number 2300 then LAMINAR
  else if ltb reynolds_number 4000 then TRANSITIONAL
  else TURBULENT.

(** [IrrigationZone] and [IrrigationPipe], with the declared attributes
    that the modelled functions read.  The pipe classes of the repository
    (the schema and the database model) declare [diameter_mm]. *)
Record IrrigationZone : Type := mkIrrigationZone {
  zone_name : string;
  required_flow_lph : Q
}.

Record IrrigationPipe : Type := mkIrrigationPipe {
  pipe_id : string;
  material : PipeMaterial;
  flow_rate_lph : Q;
  diameter_mm : Q;
  length_m : Q
}.

(** What ends a call over pipes: a missing attribute, or an exception of
    the loss or velocity computation. *)
Inductive PipeError : Type :=
| AttributeError (attribute : string)
| CalculationError.

(** [pipe.diameter_m]: no pipe class declares this attribute, and the
    attribute lookup of a pydantic model raises [AttributeError] for a name
    that is not a field. *)
Definition diameter_m (pipe : IrrigationPipe) : PipeError + Q :=
  inl (AttributeError "diameter_m").

(** The warning messages, by kind, with the numbers they format. *)
Inductive Warning : Type :=
| FlowExceedsSource (total_flow source_flow : Q)
| PressureBelowMinimum (final_pressure : Q)
| PressureCriticallyLow.

Definition is_flow_warning (w : Warning) : bool :=
  match w with FlowExceedsSource _ _ => true | _ => false end.

Record PipeResult : Type := mkPipeResult {
  pr_pipe_id : string;
  pr_pressure_loss_bar : Q;
  pr_velocity_ms : Q;
  pr_reynolds_number : Q;
  pr_friction_factor : Q;
  pr_flow_regime : FlowRegime
}.

(** [HydraulicCalculationResult]; a mean over no pipe is NaN ([None]). *)
Record HydraulicCalculationResult : Type := mkHydraulicCalculationResult {
  total_flow_lph : Q;
  total_pressure_loss_bar : Q;
  final_pressure_bar : Q;
  velocity_ms : option Q;
  reynolds_number : option Q;
  friction_factor : option Q;
  warnings : list Warning;
  is_system_viable : bool
}.

(** The state of the scan of [optimize_pipe_diameter], and its result. *)
Record Scan : Type := mkScan {
  best_diameter : option Z;
  best_cost : ExtQ;
  best_pressure_loss : ExtQ
}.

Inductive Error : Type := ValueError (msg : string).

Record PipeChoice : Type := mkPipeChoice {
  optimal_diameter_mm : Z;
  total_cost : ExtQ;
  pressure_loss_bar : ExtQ;
  choice_material : PipeMaterial
}.

Definition standard_diameters : list Z :=
  [13; 16; 20; 25; 32; 40; 50; 63; 75; 90; 110]%Z.

(** [sum(...)]: additions from 0, left to right. *)
Definition py_sum (l : list Q) : Q := fold_left Qplus l 0.

(** [np.mean]. *)
Definition np_mean (l : list Q) : option Q :=
  match l with
  | [] => None
  | _ => Some (py_sum l / inject_Z (Z.of_nat (List.length l)))
  end.

Section Engine.

(** The branch of [calculate_friction_factor] for [Re >= 2300]: the
    Swamee-Jain guess and scipy's bounded minimisation of the
    Colebrook-White residual; [None] when the guess raises. *)
Variable colebrook_white : Q -> Q -> option Q.

Definition calculate_friction_factor (reynolds_number relative_roughness : Q)
  : option Q :=
  if ltb reynolds_number 2300 then py_div 64.0 reynolds_number
  else colebrook_white reynolds_number relative_roughness.

(** Returns [(pressure_loss_bar, velocity_ms, reynolds_number,
    friction_factor)]. *)
Definition calculate_pressure_loss_darcy_weisbach
  (flow_rate_lph diameter_m length_m roughness_m : Q)
  : option (Q * Q * Q * Q) :=
  let flow_rate_m3s := flow_rate_lph / (1000 * 3600) in
  let area_m2 := math_pi * (diameter_m / 2) ^ 2 in
  match py_div flow_rate_m3s area_m2 with
  | None => None
  | Some velocity_ms =>
      let reynolds_number :=
        calculate_reynolds_number velocity_ms diameter_m in
      match py_div roughness_m diameter_m with
      | None => None
      | Some relative_roughness =>
          match calculate_friction_factor reynolds_number
                  relative_roughness with
          | None => None
          | Some friction_factor =>
              match py_div length_m diameter_m with
              | None => None
              | Some l_over_d =>
                  let pressure_loss_pa :=
                    friction_factor * l_over_d
                      * (WATER_DENSITY * velocity_ms ^ 2) / 2 in
                  let pressure_loss_bar := pressure_loss_pa / 100000 in
                  Some (pressure_loss_bar, velocity_ms, reynolds_number,
                        friction_factor)
              end
          end
      end
  end.

(** The body of the loop of [optimize_pipe_diameter] for one diameter;
    an exception inside the [try] skips the diameter. *)
Definition try_diameter (flow_rate_lph length_m rough_mm cost_pm
  max_pressure_loss_bar : Q) (s : Scan) (diameter_mm : Z) : Scan :=
  let diameter_m := inject_Z diameter_mm / 1000.0 in
  let roughness_m := rough_mm / 1000.0 in
  match calculate_pressure_loss_darcy_weisbach
          flow_rate_lph diameter_m length_m roughness_m with
  | None => s
  | Some (pressure_loss_bar, _, _, _) =>
      let minor_losses := pressure_loss_bar * 0.1 in
      let total_pressure_loss := pressure_loss_bar + minor_losses in
      let total_cost := length_m * cost_pm in
      if leb total_pressure_loss max_pressure_loss_bar then
        if ext_ltb (Fin total_cost) (best_cost s) then
          {| best_diameter := Some diameter_mm;
             best_cost := Fin total_cost;
             best_pressure_loss := Fin total_pressure_loss |}
        else s
      else s
  end.

Definition scan_diameters (flow_rate_lph length_m : Q)
  (mat : PipeMaterial) (max_pressure_loss_bar : Q) (ds : list Z)
  (s : Scan) : Scan :=
  let pipe_props := PIPE_PROPERTIES mat in
  fold_left
    (try_diameter flow_rate_lph length_m (roughness_mm pipe_props)
       (cost_per_meter pipe_props) max_pressure_loss_bar)
    ds s.

Definition optimize_pipe_diameter (flow_rate_lph length_m : Q)
  (mat : PipeMaterial) (max_pressure_loss_bar : Q) : Error + PipeChoice :=
  let s := scan_diameters flow_rate_lph length_m mat max_pressure_loss_bar
             standard_diameters
             {| best_diameter := None; best_cost := PosInf;
                best_pressure_loss := PosInf |} in
  match best_diameter s with
  | None =>
      inl (ValueError "No suitable pipe diameter found for given constraints")
  | Some d =>
      inr {| optimal_diameter_mm := d;
             total_cost := best_cost s;
             pressure_loss_bar := best_pressure_loss s;
             choice_material := mat |}
  end.

(** The body of the loop over [pipes]; an exception aborts the call.  The
    arguments of the call are evaluated first, [pipe.diameter_m] among
    them. *)
Definition pipe_step (acc : Q * list PipeResult) (pipe : IrrigationPipe)
  : PipeError + (Q * list PipeResult) :=
  let '(total_pressure_loss, pipe_results) := acc in
  let pipe_props := PIPE_PROPERTIES (material pipe) in
  match diameter_m pipe with
  | inl e => inl e
  | inr d =>
      match calculate_pressure_loss_darcy_weisbach
              (flow_rate_lph pipe) d (length_m pipe)
              (roughness_mm pipe_props / 1000.0) with
      | None => inl CalculationError
      | Some (pressure_loss_bar, v, re, f) =>
          let minor_losses := pressure_loss_bar * 0.1 in
          let total_pipe_loss := pressure_loss_bar + minor_losses in
          inr (total_pressure_loss + total_pipe_loss,
               pipe_results ++
                 [ {| pr_pipe_id := pipe_id pipe;
                      pr_pressure_loss_bar := total_pipe_loss;
                      pr_velocity_ms := v;
                      pr_reynolds_number := re;
                      pr_friction_factor := f;
                      pr_flow_regime := determine_flow_regime re |} ])
      end
  end.

Fixpoint pipe_loop (acc : Q * list PipeResult) (pipes : list IrrigationPipe)
  : PipeError + (Q * list PipeResult) :=
  match pipes with
  | [] => inr acc
  | pipe :: rest =>
      match pipe_step acc pipe with
      | inl e => inl e
      | inr acc' => pipe_loop acc' rest
      end
  end.

Definition calculate_network_hydraulics (zones : list IrrigationZone)
  (pipes : list IrrigationPipe) (source_pressure_bar source_flow_lph : Q)
  : PipeError + HydraulicCalculationResult :=
  let total_flow := py_sum (map required_flow_lph zones) in
  let warnings0 :=
    if ltb source_flow_lph total_flow
    then [FlowExceedsSource total_flow source_flow_lph] else [] in
  match pipe_loop (0.0, []) pipes with
  | inl e => inl e
  | inr (total_pressure_loss, pipe_results) =>
      let final_pressure := source_pressure_bar - total_pressure_loss in
      let viable := leb 1.0 final_pressure in
      let warnings1 :=
        if ltb final_pressure 1.0
        then warnings0 ++ [PressureBelowMinimum final_pressure]
        else warnings0 in
      let warnings2 :=
        if ltb final_pressure 0.5
        then warnings1 ++ [PressureCriticallyLow] else warnings1 in
      inr {| total_flow_lph := total_flow;
             total_pressure_loss_bar := total_pressure_loss;
             final_pressure_bar := final_pressure;
             velocity_ms := np_mean (map pr_velocity_ms pipe_results);
             reynolds_number :=
               np_mean (map pr_reynolds_number pipe_results);
             friction_factor :=
               np_mean (map pr_friction_factor pipe_results);
             warnings := warnings2;
             is_system_viable := viable |}
  end.

End Engine.

(** *** Minor losses, flow distribution and design validation *)

(** The largest double, [sys.float_info.max]. *)
Definition float_max : Q := inject_Z (2 ^ 1024 - 2 ^ 971).

(** [x ** 2] on a float: unlike a product, a power whose result is out of
    the range of doubles raises [OverflowError] ([None] here). *)
Definition float_square (v : Q) : option Q :=
  if ltb float_max (v ^ 2) then None else Some (v ^ 2).

(** [calculate_minor_losses]; [None] is an exception: the [OverflowError]
    of one of the two squares or the [ZeroDivisionError] of the velocity. *)
Definition calculate_minor_losses (flow_rate_lph diameter_m : Q)
  (k_factors : list Q) : option Q :=
  let flow_rate_m3s := flow_rate_lph / (1000 * 3600) in
  match float_square (diameter_m / 2) with
  | None => None
  | Some radius_squared =>
      let area_m2 := math_pi * radius_squared in
      match py_div flow_rate_m3s area_m2 with
      | None => None
      | Some velocity_ms =>
          let total_k := py_sum k_factors in
          match float_square velocity_ms with
          | None => None
          | Some velocity_squared =>
              let pressure_loss_pa :=
                total_k * (WATER_DENSITY * velocity_squared) / 2 in
              Some (pressure_loss_pa / 100000)
          end
      end
  end.

(** An [IrrigationZone] with the further attributes that the flow
    distribution and the validation read; [zone_uuid] is [str(zone.id)]. *)
Record ZoneDesign : Type := mkZoneDesign {
  zone_of : IrrigationZone;
  zone_uuid : string;
  operating_pressure_bar : Q;
  total_area_m2 : Q
}.

(** An [IrrigationPipe] with the further declared attributes that the
    validation reads. *)
Record PipeRun : Type := mkPipeRun {
  pipe_of : IrrigationPipe;
  pipe_name : string;
  start_point : Q * Q;      (* (start_x, start_y) *)
  end_point : Q * Q         (* (end_x, end_y) *)
}.

(** A dict with string keys, in insertion order; [d[k] = v] keeps the place
    of a key that is already there. *)
Fixpoint dict_set {V : Type} (k : string) (v : V) (d : list (string * V))
  : list (string * V) :=
  match d with
  | [] => [(k, v)]
  | (k', v') :: rest =>
      if String.eqb k' k then (k', v) :: rest
      else (k', v') :: dict_set k v rest
  end.

(** [calculate_optimal_flow_distribution]; [None] is the
    [ZeroDivisionError] of [source_flow_lph / len(zones)].  In the second
    branch the divisor [total_area] is not zero. *)
Definition calculate_optimal_flow_distribution (zones : list ZoneDesign)
  (source_flow_lph : Q) : option (list (string * Q)) :=
  let total_area := py_sum (map total_area_m2 zones) in
  if Qeq_bool total_area 0 then
    match py_div source_flow_lph (inject_Z (Z.of_nat (List.length zones))) with
    | None => None
    | Some flow_per_zone =>
        Some (fold_left (fun d zone => dict_set (zone_uuid zone) flow_per_zone d)
                zones [])
    end
  else
    Some (fold_left
            (fun flow_distribution zone =>
               let area_proportion := total_area_m2 zone / total_area in
               let optimal_flow := source_flow_lph * area_proportion in
               dict_set (zone_uuid zone) optimal_flow flow_distribution)
            zones []).

(** The messages of [validate_system_design], by kind, with the values they
    format. *)
Inductive ValidationError : Type :=
| RequiredFlowExceedsSource (total_required_flow source_flow : Q).

Inductive ValidationWarning : Type :=
| LowOperatingPressure (name : string) (pressure : Q)
| VelocityAboveMaximum (name : string) (velocity : Q)
| VelocityBelowMinimum (name : string) (velocity : Q)
| DeadEnds (count : nat).

Inductive Recommendation : Type :=
| ReviewWarnings
| ReducePipeSizes.

Record ValidationResults : Type := mkValidationResults {
  is_valid : bool;
  vr_warnings : list ValidationWarning;
  vr_errors : list ValidationError;
  vr_recommendations : list Recommendation
}.

(** The loop over the zones. *)
Definition pressure_warnings (zones : list ZoneDesign)
  : list ValidationWarning :=
  flat_map
    (fun zone =>
       if ltb (operating_pressure_bar zone) 1.0
       then [LowOperatingPressure (zone_name (zone_of zone))
               (operating_pressure_bar zone)]
       else [])
    zones.

(** The loop over the pipes; an exception aborts the call.  The body
    reads [pipe.diameter_m] before it divides. *)
Fixpoint velocity_warnings (pipes : list PipeRun)
  : PipeError + list ValidationWarning :=
  match pipes with
  | [] => inr []
  | pipe :: rest =>
      let flow_rate_m3s := flow_rate_lph (pipe_of pipe) / (1000 * 3600) in
      match diameter_m (pipe_of pipe) with
      | inl e => inl e
      | inr d =>
          let area_m2 := math_pi * (d / 2) ^ 2 in
          match py_div flow_rate_m3s area_m2 with
          | None => inl CalculationError
          | Some velocity_ms =>
              match velocity_warnings rest with
              | inl e => inl e
              | inr ws =>
                  inr ((if ltb 2.0 velocity_ms
                        then [VelocityAboveMaximum (pipe_name pipe)
                                velocity_ms]
                        else if ltb velocity_ms 0.3
                        then [VelocityBelowMinimum (pipe_name pipe)
                                velocity_ms]
                        else []) ++ ws)
              end
          end
      end
  end.

(** [pipe_connections]: a dict from points to lists of points, in insertion
    order. *)
Definition point_eqb (p q : Q * Q) : bool :=
  Qeq_bool (fst p) (fst q) && Qeq_bool (snd p) (snd q).

Definition Connections : Type := list ((Q * Q) * list (Q * Q)).

Definition has_point (p : Q * Q) (d : Connections) : bool :=
  existsb (fun entry => point_eqb (fst entry) p) d.

(** [if p not in d: d[p] = []]. *)
Definition ensure_point (p : Q * Q) (d : Connections) : Connections :=
  if has_point p d then d else d ++ [(p, [])].

(** [d[p].append(q)], for a key that is there. *)
Fixpoint append_at (p q : Q * Q) (d : Connections) : Connections :=
  match d with
  | [] => []
  | (k, l) :: rest =>
      if point_eqb k p then (k, l ++ [q]) :: rest
      else (k, l) :: append_at p q rest
  end.

Definition connect (d : Connections) (pipe : PipeRun) : Connections :=
  let d1 := ensure_point (start_point pipe) d in
  let d2 := ensure_point (end_point pipe) d1 in
  let d3 := append_at (start_point pipe) (end_point pipe) d2 in
  append_at (end_point pipe) (start_point pipe) d3.

Definition pipe_connections (pipes : list PipeRun) : Connections :=
  fold_left connect pipes [].

Definition dead_ends (d : Connections) : list (Q * Q) :=
  map fst (filter (fun entry => Nat.eqb (List.length (snd entry)) 1) d).

(** [validate_system_design]. *)
Definition validate_system_design (zones : list ZoneDesign)
  (pipes : list PipeRun) (source_pressure_bar source_flow_lph : Q)
  : PipeError + ValidationResults :=
  let total_required_flow :=
    py_sum (map (fun zone => required_flow_lph (zone_of zone)) zones) in
  let exceeds := ltb source_flow_lph total_required_flow in
  let errors :=
    if exceeds
    then [RequiredFlowExceedsSource total_required_flow source_flow_lph]
    else [] in
  match velocity_warnings pipes with
  | inl e => inl e
  | inr vws =>
      let found := dead_ends (pipe_connections pipes) in
      let warnings :=
        pressure_warnings zones ++ vws ++
        match found with
        | [] => []
        | _ => [DeadEnds (List.length found)]
        end in
      let review :=
        match warnings with
        | [] => []
        | _ => [ReviewWarnings]
        end in
      let oversized :=
        if ltb total_required_flow (source_flow_lph * 0.8)
        then [ReducePipeSizes] else [] in
      inr {| is_valid := negb exceeds;
             vr_warnings := warnings;
             vr_errors := errors;
             vr_recommendations := review ++ oversized |}
  end.

End Hydraulic.

(* ================================================================== *)
(** ** clustering_engine.py *)
(* ================================================================== *)

Module Clustering.

Inductive EquipmentType : Type := DRIP | SPRINKLER | MICROJET | ROTOR | SPRAY.

(** [list(EquipmentType)], in definition order. *)
Definition all_equipment_types : list EquipmentType :=
  [DRIP; SPRINKLER; MICROJET; ROTOR; SPRAY].

(** An entry of [self.equipment_database]. *)
Record CatalogEntry : Type := mkCatalogEntry {
  entry_name : string;
  entry_flow_rate_lph : Q;
  entry_spacing_m : Q;
  entry_cost_per_unit : Q
}.

(** [self.equipment_database]; [None] for a key that is not in the dict. *)
Definition equipment_database (t : EquipmentType) : option (list CatalogEntry) :=
  match t with
  | DRIP => Some
      [ mkCatalogEntry "Drip Emitter 2LPH" 2.0 0.3 0.5;
        mkCatalogEntry "Drip Emitter 4LPH" 4.0 0.4 0.6;
        mkCatalogEntry "Drip Emitter 8LPH" 8.0 0.5 0.8 ]
  | SPRINKLER => Some
      [ mkCatalogEntry "Spray Head 360°" 50.0 3.0 2.5;
        mkCatalogEntry "Spray Head 180°" 30.0 2.5 2.0;
        mkCatalogEntry "Spray Head 90°" 20.0 2.0 1.8 ]
  | MICROJET => Some
      [ mkCatalogEntry "Microjet 15LPH" 15.0 1.5 1.2;
        mkCatalogEntry "Microjet 25LPH" 25.0 2.0 1.5;
        mkCatalogEntry "Microjet 40LPH" 40.0 2.5 2.0 ]
  | ROTOR | SPRAY => None
  end.

(** [str.lower] on ASCII letters. *)
Definition ascii_lower (c : ascii) : ascii :=
  let n := nat_of_ascii c in
  if ((65 <=? n) && (n <=? 90))%nat then ascii_of_nat (n + 32) else c.

Fixpoint lower (s : string) : string :=
  match s with
  | EmptyString => EmptyString
  | String c r => String (ascii_lower c) (lower r)
  end.

Record PlantData : Type := mkPlantData {
  plant_id : Z;
  x : Q;
  y : Q;
  water_needs : string;
  area_m2 : Q;
  growth_stage : string;
  crop_coefficient : Q
}.

Definition water_needs_numeric (p : PlantData) : Q :=
  let w := lower (water_needs p) in
  if String.eqb w "low" then 1.0
  else if String.eqb w "moderate" then 2.0
  else if String.eqb w "high" then 3.0
  else 2.0.

Definition create_feature_matrix (plants : list PlantData) : list (list Q) :=
  map (fun plant =>
         [x plant; y plant; water_needs_numeric plant; area_m2 plant;
          crop_coefficient plant])
      plants.

(** *** optimize_equipment_selection *)

Inductive SelectionError : Type :=
| NoSuitableEquipment     (* the ValueError raised after the search *)
| ZeroDivisionError
| UnboundLocalError
| ValidationError.        (* pydantic's, from a schema constructor *)

Record IrrigationEquipment : Type := mkIrrigationEquipment {
  eq_name : string;
  equipment_type : EquipmentType;
  manufacturer : string;
  model : string;
  flow_rate_lph : Q;
  pressure_range_min : Q;
  pressure_range_max : Q;
  coverage_radius_m : Q;
  spacing_m : Q;
  cost_per_unit : Q
}.

(** Whether a character is a hexadecimal digit. *)
Definition is_hex_digit (c : ascii) : bool :=
  let n := nat_of_ascii c in
  ((48 <=? n) && (n <=? 57) || (65 <=? n) && (n <=? 70)
   || (97 <=? n) && (n <=? 102))%nat.

Fixpoint hex_digits_only (s : string) : bool :=
  match s with
  | EmptyString => true
  | String c r => is_hex_digit c && hex_digits_only r
  end.

Fixpoint without_hyphens (s : string) : string :=
  match s with
  | EmptyString => EmptyString
  | String c r =>
      if Ascii.eqb c "-" then without_hyphens r
      else String c (without_hyphens r)
  end.

(** Whether pydantic reads a string as the value of a [UUID] field: 32
    hexadecimal digits, hyphens apart. *)
Definition is_uuid (s : string) : bool :=
  let digits := without_hyphens s in
  hex_digits_only digits && (String.length digits =? 32)%nat.

(** [IrrigationEquipment(id=..., created_at=..., updated_at=..., ...)]: the
    schema declares [id: UUID], [created_at: datetime] and
    [updated_at: datetime], and the constructor validates its arguments;
    [None] is no datetime.  The other fields are passed as [fields]. *)
Definition IrrigationEquipment_init (id : string)
  (created_at updated_at : option Z) (fields : IrrigationEquipment)
  : SelectionError + IrrigationEquipment :=
  if is_uuid id then
    match created_at, updated_at with
    | Some _, Some _ => inr fields
    | _, _ => inl ValidationError
    end
  else inl ValidationError.

Record EquipmentSelectionResult : Type := mkEquipmentSelectionResult {
  recommended_equipment : IrrigationEquipment;
  quantity_needed : Z;
  total_cost : ExtQ;
  coverage_efficiency : Q
}.

(** The local variables of the search, with the loop variable [eq_type],
    which is still bound when the loops are over. *)
Record Search : Type := mkSearch {
  best_equipment : option CatalogEntry;
  best_cost : ExtQ;
  best_coverage : Q;
  eq_type : option EquipmentType
}.

Definition water_factor (water_needs : string) : Q :=
  let w := lower water_needs in
  if String.eqb w "low" then 0.7
  else if String.eqb w "moderate" then 1.0
  else if String.eqb w "high" then 1.3
  else 1.0.

Definition required_flow (zone_area_m2 : Q) (water_needs : string) : Q :=
  let base_flow_per_m2 := 2.0 in
  zone_area_m2 * base_flow_per_m2 * water_factor water_needs.

(** [budget_constraint and total_cost > budget_constraint]: [None] and
    [0.0] are both false. *)
Definition over_budget (budget_constraint : option Q) (cost : Q) : bool :=
  match budget_constraint with
  | None => false
  | Some b => negb (Qeq_bool b 0) && ltb b cost
  end.

(** The number of units for an entry: [math.ceil(area / spacing ** 2)]. *)
Definition units_for (zone_area_m2 : Q) (equipment : CatalogEntry) : option Z :=
  let coverage_per_unit := entry_spacing_m equipment ^ 2 in
  option_map math_ceil (py_div zone_area_m2 coverage_per_unit).

(** The body of the inner loop. *)
Definition consider (zone_area_m2 : Q) (budget_constraint : option Q)
  (required_flow_lph : Q) (s : Search) (equipment : CatalogEntry)
  : SelectionError + Search :=
  let coverage_per_unit := entry_spacing_m equipment ^ 2 in
  match units_for zone_area_m2 equipment with
  | None => inl ZeroDivisionError
  | Some units_needed =>
      let total_flow := inject_Z units_needed * entry_flow_rate_lph equipment in
      let total_cost := inject_Z units_needed * entry_cost_per_unit equipment in
      if over_budget budget_constraint total_cost then inr s
      else if leb (required_flow_lph * 0.8) total_flow then
        match py_div (inject_Z units_needed * coverage_per_unit) zone_area_m2 with
        | None => inl ZeroDivisionError
        | Some ratio =>
            let coverage_efficiency := py_min 1.0 ratio in
            if ext_ltb (Fin total_cost) (best_cost s)
               || (ext_eqb (Fin total_cost) (best_cost s)
                   && ltb (best_coverage s) coverage_efficiency)
            then inr {| best_equipment := Some equipment;
                        best_cost := Fin total_cost;
                        best_coverage := coverage_efficiency;
                        eq_type := eq_type s |}
            else inr s
        end
      else inr s
  end.

Fixpoint consider_all (zone_area_m2 : Q) (budget_constraint : option Q)
  (required_flow_lph : Q) (s : Search) (entries : list CatalogEntry)
  : SelectionError + Search :=
  match entries with
  | [] => inr s
  | equipment :: rest =>
      match consider zone_area_m2 budget_constraint required_flow_lph s
              equipment with
      | inl e => inl e
      | inr s' =>
          consider_all zone_area_m2 budget_constraint required_flow_lph s' rest
      end
  end.

(** The outer loop [for eq_type in equipment_types]. *)
Fixpoint search_types (zone_area_m2 : Q) (budget_constraint : option Q)
  (required_flow_lph : Q) (s : Search) (equipment_types : list EquipmentType)
  : SelectionError + Search :=
  match equipment_types with
  | [] => inr s
  | t :: rest =>
      let s1 := {| best_equipment := best_equipment s;
                   best_cost := best_cost s;
                   best_coverage := best_coverage s;
                   eq_type := Some t |} in
      match equipment_database t with
      | None =>
          search_types zone_area_m2 budget_constraint required_flow_lph s1 rest
      | Some entries =>
          match consider_all zone_area_m2 budget_constraint
                  required_flow_lph s1 entries with
          | inl e => inl e
          | inr s2 =>
              search_types zone_area_m2 budget_constraint required_flow_lph
                s2 rest
          end
      end
  end.

Definition optimize_equipment_selection (zone_area_m2 : Q)
  (water_needs : string) (budget_constraint : option Q)
  (preferred_equipment_type : option EquipmentType)
  : SelectionError + EquipmentSelectionResult :=
  let required_flow_lph := required_flow zone_area_m2 water_needs in
  let equipment_types :=
    match preferred_equipment_type with
    | Some t => [t]
    | None => all_equipment_types
    end in
  match search_types zone_area_m2 budget_constraint required_flow_lph
          {| best_equipment := None; best_cost := PosInf;
             best_coverage := 0.0; eq_type := None |}
          equipment_types with
  | inl e => inl e
  | inr s =>
      match best_equipment s with
      | None => inl NoSuitableEquipment
      | Some best =>
          match units_for zone_area_m2 best, eq_type s with
          | None, _ => inl ZeroDivisionError
          | _, None => inl UnboundLocalError
          | Some units_needed, Some t =>
              match IrrigationEquipment_init "temp_id" None None
                      {| eq_name := entry_name best;
                         equipment_type := t;
                         manufacturer := "Generic";
                         model := "Standard";
                         flow_rate_lph := entry_flow_rate_lph best;
                         pressure_range_min := 1.0;
                         pressure_range_max := 3.0;
                         coverage_radius_m := entry_spacing_m best / 2;
                         spacing_m := entry_spacing_m best;
                         cost_per_unit := entry_cost_per_unit best |} with
              | inl e => inl e
              | inr equipment =>
                  inr {| recommended_equipment := equipment;
                         quantity_needed := units_needed;
                         total_cost := best_cost s;
                         coverage_efficiency := best_coverage s |}
              end
          end
      end
  end.

(** *** kmeans_clustering *)

(** [np.unique(labels, return_counts=True)]: the labels that occur, in
    increasing order, and how often each occurs. *)
Definition unique_labels (labels : list nat) : list nat :=
  filter (fun c => existsb (Nat.eqb c) labels)
         (seq 0 (S (fold_right Nat.max 0%nat labels))).

Definition label_counts (labels : list nat) : list nat :=
  map (fun c => count_occ Nat.eq_dec labels c) (unique_labels labels).

(** [np.all(counts >= min_plants_per_zone)]. *)
Definition all_counts_at_least (labels : list nat) (min_plants_per_zone : Z)
  : bool :=
  forallb (fun n => (min_plants_per_zone <=? Z.of_nat n)%Z)
          (label_counts labels).

Fixpoint set_nth {A : Type} (i : nat) (v : A) (l : list A) : list A :=
  match l, i with
  | [], _ => []
  | _ :: r, O => v :: r
  | a :: r, S i' => a :: set_nth i' v r
  end.

(** [for i, label in enumerate(labels): clusters[label].append(plants[i])];
    an index out of range raises [IndexError]. *)
Fixpoint assign (clusters : list (list PlantData)) (plants : list PlantData)
  (i : nat) (labels : list nat) : option (list (list PlantData)) :=
  match labels with
  | [] => Some clusters
  | label :: rest =>
      match nth_error plants i, nth_error clusters label with
      | Some p, Some c =>
          assign (set_nth label (c ++ [p]) clusters) plants (S i) rest
      | _, _ => None
      end
  end.

(** The best candidate so far: [best_score], and [best_clusters] with
    [best_centers], which are set together. *)
Record Best : Type := mkBest {
  best_score : Q;
  best_labelling : option (list nat * list (list Q))
}.

Section KMeans.

(** [KMeans(n_clusters=k, random_state=42, n_init=10)] on a feature
    matrix: [fit_predict]'s labels with [cluster_centers_], or [None]
    when the call raises. *)
Variable KMeans_fit_predict :
  list (list Q) -> nat -> option (list nat * list (list Q)).

(** [silhouette_score], or [None] when it raises. *)
Variable silhouette_score : list (list Q) -> list nat -> option Q.

(** The body of the loop over [n_clusters]; an exception inside the
    [try] skips the candidate. *)
Definition try_clusters (features : list (list Q))
  (min_plants_per_zone : Z) (s : Best) (n_clusters : nat) : Best :=
  match KMeans_fit_predict features n_clusters with
  | None => s
  | Some (cluster_labels, centers) =>
      if all_counts_at_least cluster_labels min_plants_per_zone then
        match (if (1 <? n_clusters)%nat
               then silhouette_score features cluster_labels
               else Some 0) with
        | None => s
        | Some score =>
            if ltb (best_score s) score
            then {| best_score := score;
                    best_labelling := Some (cluster_labels, centers) |}
            else s
        end
      else s
  end.

(** [for n_clusters in range(1, max_clusters + 1)]. *)
Definition select_best (features : list (list Q)) (max_clusters : Z)
  (min_plants_per_zone : Z) : Best :=
  fold_left (try_clusters features min_plants_per_zone)
    (seq 1 (Z.to_nat max_clusters))
    {| best_score := -1; best_labelling := None |}.

Definition max_clusters_of (n_plants max_zones min_plants_per_zone : Z) : Z :=
  let m := Z.min max_zones (n_plants / min_plants_per_zone) in
  if (m <? 1)%Z then 1%Z else m.

(** The single cluster returned when nothing else qualifies. *)
Definition single_cluster (plants : list PlantData)
  : list (list PlantData) * list (list Q) :=
  ([plants], [[0; 0]]).

(** [None] is a raised exception: a division by a zero
    [min_plants_per_zone], or an index out of range while grouping. *)
Definition kmeans_clustering (plants : list PlantData) (max_zones : Z)
  (min_plants_per_zone : Z)
  : option (list (list PlantData) * list (list Q)) :=
  let n := Z.of_nat (List.length plants) in
  if (n <? min_plants_per_zone)%Z then Some (single_cluster plants)
  else if (min_plants_per_zone =? 0)%Z then None
  else
    let max_clusters := max_clusters_of n max_zones min_plants_per_zone in
    let features := create_feature_matrix plants in
    match best_labelling
            (select_best features max_clusters min_plants_per_zone) with
    | None => Some (single_cluster plants)
    | Some (best_clusters, best_centers) =>
        match assign (repeat [] (List.length best_centers)) plants 0
                best_clusters with
        | None => None
        | Some clusters => Some (clusters, best_centers)
        end
    end.

End KMeans.

(** *** dbscan_clustering *)

(** [np.unique] on integer labels: the labels that occur, in increasing
    order. *)
Fixpoint insert_unique (z : Z) (l : list Z) : list Z :=
  match l with
  | [] => [z]
  | a :: r =>
      if (z <? a)%Z then z :: l
      else if (z =? a)%Z then l
      else a :: insert_unique z r
  end.

Definition np_unique (labels : list Z) : list Z :=
  fold_right insert_unique [] labels.

(** [[plants[i] for i, l in enumerate(cluster_labels) if l == label]], from
    index [i] on; an index out of range raises [IndexError]. *)
Fixpoint plants_labelled (label : Z) (plants : list PlantData) (i : nat)
  (cluster_labels : list Z) : option (list PlantData) :=
  match cluster_labels with
  | [] => Some []
  | l :: rest =>
      if (l =? label)%Z then
        match nth_error plants i with
        | None => None
        | Some p =>
            option_map (cons p) (plants_labelled label plants (S i) rest)
        end
      else plants_labelled label plants (S i) rest
  end.

(** [np.mean(cluster_coords, axis=0)] of the coordinates of a cluster that
    is not empty. *)
Definition mean_coords (cluster_plants : list PlantData) : list Q :=
  let n := inject_Z (Z.of_nat (List.length cluster_plants)) in
  [fold_left Qplus (map x cluster_plants) 0 / n;
   fold_left Qplus (map y cluster_plants) 0 / n].

(** The loop over [unique_labels]. *)
Fixpoint group_labelled (plants : list PlantData) (cluster_labels : list Z)
  (min_samples : Z) (unique_labels : list Z)
  (acc : list (list PlantData) * list (list Q))
  : option (list (list PlantData) * list (list Q)) :=
  match unique_labels with
  | [] => Some acc
  | label :: rest =>
      if (label =? -1)%Z then
        group_labelled plants cluster_labels min_samples rest acc
      else
        match plants_labelled label plants 0 cluster_labels with
        | None => None
        | Some cluster_plants =>
            if (min_samples <=? Z.of_nat (List.length cluster_plants))%Z
            then group_labelled plants cluster_labels min_samples rest
                   (fst acc ++ [cluster_plants],
                    snd acc ++ [mean_coords cluster_plants])
            else group_labelled plants cluster_labels min_samples rest acc
        end
  end.

Section DBSCAN.

(** [StandardScaler().fit_transform] followed by
    [DBSCAN(eps=eps, min_samples=min_samples).fit_predict] on the rows
    [[x, y]]: the labels, [-1] for noise, or [None] when a call raises. *)
Variable DBSCAN_fit_predict : list (list Q) -> Q -> Z -> option (list Z).

Definition dbscan_clustering (plants : list PlantData) (eps : Q)
  (min_samples : Z) : option (list (list PlantData) * list (list Q)) :=
  if (Z.of_nat (List.length plants) <? min_samples)%Z
  then Some ([plants], [[0; 0]])
  else
    let features := map (fun plant => [x plant; y plant]) plants in
    match DBSCAN_fit_predict features eps min_samples with
    | None => None
    | Some cluster_labels =>
        match group_labelled plants cluster_labels min_samples
                (np_unique cluster_labels) ([], []) with
        | None => None
        | Some (clusters, centers) =>
            match plants_labelled (-1) plants 0 cluster_labels with
            | None => None
            | Some [] => Some (clusters, centers)
            | Some noise_plants =>
                Some (clusters ++ map (fun p => [p]) noise_plants,
                      centers ++ map (fun p => [x p; y p]) noise_plants)
            end
        end
    end.

End DBSCAN.

(** *** calculate_zone_properties *)

(** The dict that [calculate_zone_properties] returns for a zone with
    plants. *)
Record ZoneProperties : Type := mkZoneProperties {
  zp_total_area_m2 : Q;
  zp_water_needs : string;
  zp_required_flow_lph : Q;
  zp_operating_pressure_bar : Q;
  zp_cluster_center_x : Q;
  zp_cluster_center_y : Q;
  zp_plant_ids : list Z
}.

(** [calculate_zone_properties]: [Some None] is the empty dict returned for
    no plant, [None] the [IndexError] of a centre with fewer than two
    coordinates. *)
Definition calculate_zone_properties (plants : list PlantData)
  (cluster_center : list Q) : option (option ZoneProperties) :=
  match plants with
  | [] => Some None
  | _ :: _ =>
      let total_area := fold_left Qplus (map area_m2 plants) 0 in
      let avg_water_needs :=
        fold_left Qplus (map water_needs_numeric plants) 0
          / inject_Z (Z.of_nat (List.length plants)) in
      let water_needs_str :=
        if ltb avg_water_needs 1.5 then "low"%string
        else if ltb 2.5 avg_water_needs then "high"%string
        else "moderate"%string in
      let base_flow_per_m2 := 2.0 in
      let water_factor :=
        if String.eqb water_needs_str "low" then 0.7
        else if String.eqb water_needs_str "moderate" then 1.0
        else 1.3 in
      let required_flow_lph := total_area * base_flow_per_m2 * water_factor in
      match nth_error cluster_center 0, nth_error cluster_center 1 with
      | Some cx, Some cy =>
          Some (Some {| zp_total_area_m2 := total_area;
                        zp_water_needs := water_needs_str;
                        zp_required_flow_lph := required_flow_lph;
                        zp_operating_pressure_bar := 1.5;
                        zp_cluster_center_x := cx;
                        zp_cluster_center_y := cy;
                        zp_plant_ids := map plant_id plants |})
      | _, _ => None
      end
  end.

End Clustering.

(* ================================================================== *)
(** * Properties *)
(* ================================================================== *)

Module PyFloatFacts.

Lemma ltb_lt (a b : Q) : ltb a b = true <-> a < b.
Proof.
  unfold ltb. rewrite negb_true_iff.
  split; intro H.
  - apply Qnot_le_lt. intro Hle.
    apply Qle_bool_iff in Hle. congruence.
  - destruct (Qle_bool b a) eqn:E; [|reflexivity].
    apply Qle_bool_iff in E. exfalso. apply (Qlt_not_le _ _ H E).
Qed.

Lemma ltb_ge (a b : Q) : ltb a b = false <-> b <= a.
Proof.
  unfold ltb. rewrite negb_false_iff. apply Qle_bool_iff.
Qed.

Lemma leb_le (a b : Q) : leb a b = true <-> a <= b.
Proof. apply Qle_bool_iff. Qed.

Lemma ltb_irrefl (a : Q) : ltb a a = false.
Proof. apply ltb_ge. apply Qle_refl. Qed.

Lemma py_max_ge_r (a b : Q) : b <= py_max a b.
Proof.
  unfold py_max. destruct (ltb a b) eqn:E.
  - apply Qle_refl.
  - now apply ltb_ge.
Qed.

Lemma py_max_ge_l (a b : Q) : a <= py_max a b.
Proof.
  unfold py_max. destruct (ltb a b) eqn:E.
  - apply Qlt_le_weak. now apply ltb_lt.
  - apply Qle_refl.
Qed.

Lemma py_max_mono_l (a a' b : Q) : a <= a' -> py_max a b <= py_max a' b.
Proof.
  intro H. unfold py_max.
  destruct (ltb a b) eqn:E1; destruct (ltb a' b) eqn:E2;
    try apply ltb_lt in E1; try apply ltb_lt in E2;
    try apply ltb_ge in E1; try apply ltb_ge in E2; lra.
Qed.

Lemma ext_le_refl (a : ExtQ) : ext_le a a.
Proof. destruct a; simpl; auto. apply Qle_refl. Qed.

Lemma ext_le_trans (a b c : ExtQ) : ext_le a b -> ext_le b c -> ext_le a c.
Proof.
  destruct a, b, c; simpl; auto; try contradiction.
  apply Qle_trans.
Qed.

Lemma ext_ltb_le (a b : ExtQ) : ext_ltb a b = true -> ext_le a b.
Proof.
  destruct a, b; simpl; auto; try discriminate.
  intro H. apply Qlt_le_weak. now apply ltb_lt.
Qed.

Lemma ext_ltb_irrefl (a : ExtQ) : ext_ltb a a = false.
Proof. destruct a; simpl; auto. apply ltb_irrefl. Qed.

(** The truncation does not show in a comparison with a whole number:
    [Qsqrt q < c] exactly when [q < c * c]. *)
Lemma Qsqrt_lt_integer (q : Q) (c : Z) :
  0 <= q -> (0 <= c)%Z ->
  (Qsqrt q < inject_Z c <-> q < inject_Z c * inject_Z c).
Proof.
  destruct q as [n d]. unfold Qle, Qlt, Qsqrt, inject_Z, Qmult.
  cbn [Qnum Qden]. intros Hn Hc.
  assert (Hn' : (0 <= n)%Z) by lia.
  change (Z.pos (1 * 1)) with 1%Z.
  rewrite !Z.mul_1_r, Pos2Z.inj_mul.
  set (D := Z.pos d). set (S := Z.pos sqrt_scale).
  assert (HD : (0 < D)%Z) by (unfold D; lia).
  assert (HS : (0 < S)%Z) by (unfold S; lia).
  assert (HP : (0 < D * (S * S))%Z)
    by (apply Z.mul_pos_pos; [|apply Z.mul_pos_pos]; lia).
  rewrite <- Z.sqrt_lt_square.
  - replace (c * (D * S) * (c * (D * S)))%Z
      with ((c * c * D) * (D * (S * S)))%Z by ring.
    replace (n * D * (S * S))%Z with (n * (D * (S * S)))%Z by ring.
    split; intro H.
    + apply Z.mul_lt_mono_pos_r in H; assumption.
    + apply Z.mul_lt_mono_pos_r; assumption.
  - apply Z.mul_nonneg_nonneg; [apply Z.mul_nonneg_nonneg|]; lia.
  - apply Z.mul_nonneg_nonneg; lia.
Qed.

Lemma Qsquare_nonneg (a : Q) : 0 <= a * a.
Proof. destruct a as [n d]. unfold Qle, Qmult. simpl. nia. Qed.

Create HintDb pyfloat.
#[export] Hint Resolve ext_le_refl ext_ltb_le py_max_ge_l py_max_ge_r
  Qle_refl : pyfloat.

(** [Qsqrt] is exact on the square of a non-negative rational. *)
Lemma Qsqrt_square (c : Q) : 0 <= c -> Qsqrt (c * c) == c.
Proof.
  destruct c as [n d]. unfold Qle, Qeq, Qsqrt, Qmult. cbn [Qnum Qden]. intro Hn.
  assert (Hn' : (0 <= n)%Z) by lia.
  replace (n * n * Z.pos (d * d) * (Z.pos sqrt_scale * Z.pos sqrt_scale))%Z
    with ((n * Z.pos d * Z.pos sqrt_scale) * (n * Z.pos d * Z.pos sqrt_scale))%Z
    by (rewrite Pos2Z.inj_mul; ring).
  rewrite Z.sqrt_square by lia.
  rewrite !Pos2Z.inj_mul. ring.
Qed.

End PyFloatFacts.

Import PyFloatFacts.

Module AgronomicFacts.
Import Agronomic.

Lemma soil_factor_mono (q1 q2 : Q) : q1 <= q2 -> soil_factor q1 <= soil_factor q2.
Proof. unfold soil_factor. intro H. lra. Qed.

Lemma water_factor_pos (w : WaterNeed) : 0 < water_factor w.
Proof. destruct w; reflexivity. Qed.

Lemma sun_factor_pos (s : SunExposure) : 0 < sun_factor s.
Proof. destruct s; reflexivity. Qed.

(** *** The body behind the cache *)

(** What the body of [calculate_optimal_spacing] computes is never below
    the plant's minimum spacing. *)
Lemma optimal_spacing_at_least_min (p : PlantSpecs) (soil_quality : Q) :
  spacing_min p <= calculate_optimal_spacing_wrapped p soil_quality.
Proof. unfold calculate_optimal_spacing_wrapped. auto with pyfloat. Qed.

(** With a non-negative optimal spacing it grows with the soil quality: the
    soil factor [0.8 + 0.4 q] is increasing. *)
Lemma optimal_spacing_nondecreasing (p : PlantSpecs) (q1 q2 : Q) :
  0 <= spacing_optimal p -> q1 <= q2 ->
  calculate_optimal_spacing_wrapped p q1
    <= calculate_optimal_spacing_wrapped p q2.
Proof.
  intros Hb Hq. unfold calculate_optimal_spacing_wrapped. cbv zeta.
  apply py_max_mono_l.
  pose proof (water_factor_pos (water_need p)) as Hw.
  pose proof (sun_factor_pos (sun_exposure p)) as Hs.
  pose proof (soil_factor_mono q1 q2 Hq) as Hf.
  apply Qmult_le_compat_r; [|lra].
  apply Qmult_le_compat_r; [|lra].
  rewrite (Qmult_comm _ (soil_factor q1)), (Qmult_comm _ (soil_factor q2)).
  apply Qmult_le_compat_r; assumption.
Qed.

(** The plant of [test_spacing_calculation_scientific_basis]. *)
Definition test_plant : PlantSpecs :=
  {| name := "Test Plant"; spacing_min := 30.0; spacing_optimal := 45.0;
     water_need := MEDIUM; sun_exposure := FULL_SUN;
     incompatible_plants := [] |}.

(** *** The cached call *)

(** The key of the cache cannot be made: every call ends in the
    [TypeError] of [hash]. *)
Lemma lru_cache_unhashable {A B : Type} (hash_args : A -> option Z)
  (user_function : A -> B) (args : A) :
  hash_args args = None ->
  lru_cache hash_args user_function args = inl TypeError.
Proof. unfold lru_cache. now intros ->. Qed.

(** C1.  As the repository calls it, [calculate_optimal_spacing] returns
    no spacing at all: for every plant and every soil quality the call
    raises [TypeError], because the cache around it has to hash the
    [PlantSpecs].  So there is no result to be monotone, nor one to be at
    least [spacing_min].  The body that the cache keeps from being reached
    would not meet the claim either: on the plant and the two soil
    qualities of the repository's own test it gives 47.916 cm on the poor
    soil (0.2) and 60.984 cm on the good soil (0.8), an increase. *)
Theorem optimal_spacing_call_raises :
  (forall plant_specs soil_quality,
     calculate_optimal_spacing plant_specs soil_quality = inl TypeError) /\
  calculate_optimal_spacing test_plant 0.2 = inl TypeError /\
  calculate_optimal_spacing test_plant 0.8 = inl TypeError /\
  calculate_optimal_spacing_wrapped test_plant 0.2 == 47.916 /\
  calculate_optimal_spacing_wrapped test_plant 0.8 == 60.984 /\
  calculate_optimal_spacing_wrapped test_plant 0.2
    < calculate_optimal_spacing_wrapped test_plant 0.8.
Proof.
  split; [|split; [|split]].
  - intros p q. unfold calculate_optimal_spacing.
    now apply lru_cache_unhashable.
  - now apply lru_cache_unhashable.
  - now apply lru_cache_unhashable.
  - repeat split; vm_compute; congruence.
Qed.

(** *** The pair loops of the conflict detector *)

(** The two distance thresholds of the detector are whole numbers of
    metres, so the tests on [distance] are tests on the squared Euclidean
    distance. *)
Lemma distance_lt_integer (p1 p2 : PlantPlacement) (c : Z) :
  (0 <= c)%Z ->
  (distance p1 p2 < inject_Z c <->
   (x p1 - x p2) ^ 2 + (y p1 - y p2) ^ 2 < inject_Z c * inject_Z c).
Proof.
  intro Hc. unfold distance, euclid. apply Qsqrt_lt_integer; [|exact Hc].
  simpl. pose proof (Qsquare_nonneg (x p1 - x p2)).
  pose proof (Qsquare_nonneg (y p1 - y p2)). lra.
Qed.

(** A record is produced by a pair loop exactly when some pair of positions
    [i < j] produces it. *)
Lemma pairwise_In {A : Type}
  (check : PlantPlacement -> PlantPlacement -> list A)
  (ps : list PlantPlacement) (r : A) :
  In r (pairwise check ps) <->
  exists i j p1 p2,
    (i < j)%nat /\ nth_error ps i = Some p1 /\ nth_error ps j = Some p2 /\
    In r (check p1 p2).
Proof.
  induction ps as [|p ps IH]; simpl.
  - split; [contradiction|].
    intros (i & j & p1 & p2 & _ & Hi & _). destruct i; discriminate.
  - rewrite in_app_iff, in_flat_map, IH. split.
    + intros [(p2 & Hin & Hr) | (i & j & p1 & p2 & Hlt & Hi & Hj & Hr)].
      * apply In_nth_error in Hin. destruct Hin as [j Hj].
        exists 0%nat, (S j), p, p2. repeat split; auto. lia.
      * exists (S i), (S j), p1, p2. repeat split; auto. lia.
    + intros (i & j & p1 & p2 & Hlt & Hi & Hj & Hr).
      destruct j as [|j]; [lia|]. simpl in Hj.
      destruct i as [|i]; simpl in Hi.
      * left. injection Hi as <-. exists p2. split; auto.
        eapply nth_error_In; eauto.
      * right. exists i, j, p1, p2. repeat split; auto. lia.
Qed.

Lemma compatibility_check_In (p1 p2 : PlantPlacement)
  (v : CompatibilityViolation) :
  In v (compatibility_check p1 p2) <->
  (name_in (name (plant_specs p2)) (incompatible_plants (plant_specs p1)) = true
   \/ name_in (name (plant_specs p1)) (incompatible_plants (plant_specs p2)) = true)
  /\ distance p1 p2 < 2
  /\ v = {| cv_plant1 := plant_id p1; cv_plant2 := plant_id p2;
            cv_distance := distance p1 p2; cv_severity := SeverityHigh |}.
Proof.
  unfold compatibility_check, incompatible. cbv zeta.
  destruct (name_in (name (plant_specs p2)) _) eqn:E1;
    destruct (name_in (name (plant_specs p1)) _) eqn:E2; simpl;
    try (destruct (ltb (distance p1 p2) 2.0) eqn:E3; simpl;
         [ apply ltb_lt in E3
         | apply ltb_ge in E3 ];
         split;
         [ intros [<- | []]; repeat split; auto; lra
         | intros (_ & Hd & ->); auto; try lra
         | contradiction
         | intros (_ & Hd & _); lra ]).
  split; [contradiction | intros ([H | H] & _); discriminate].
Qed.

(** [in_any_zone] raises only on a zone of negative area. *)
Lemma in_any_zone_total (p : PlantPlacement) (zones : list GardenZone) :
  (forall z, In z zones -> 0 <= area z) ->
  exists b, in_any_zone p zones = Some b.
Proof.
  induction zones as [|z zs IH]; simpl; intro Hz.
  - eauto.
  - unfold _is_in_zone, math_sqrt. cbv zeta.
    assert (Hq : ltb (area z / math_pi) 0 = false).
    { apply ltb_ge. apply Qle_shift_div_l; [reflexivity|].
      rewrite Qmult_0_l. apply Hz. now left. }
    rewrite Hq. destruct (leb _ _); eauto.
Qed.

Lemma zone_check_total (ps : list PlantPlacement) (zones : list GardenZone) :
  (forall z, In z zones -> 0 <= area z) ->
  exists vs, zone_check ps zones = Some vs.
Proof.
  intro Hz. induction ps as [|p ps [vs IH]]; simpl.
  - eauto.
  - destruct (in_any_zone_total p zones Hz) as [b ->]. rewrite IH. eauto.
Qed.

(** *** The spacing loop *)

Lemma spacing_check_raises (p1 p2 : PlantPlacement) :
  spacing_check p1 p2 = inl TypeError.
Proof. reflexivity. Qed.

(** The spacing loop calls [calculate_optimal_spacing] for its first pair:
    with two placements or more it raises, with fewer it finds nothing. *)
Lemma spacing_loop_outcome (ps : list PlantPlacement) :
  pairwise_raising spacing_check ps
  = match ps with
    | _ :: _ :: _ => inl TypeError
    | _ => inr []
    end.
Proof. destruct ps as [|p1 [|p2 rest]]; reflexivity. Qed.

Lemma detect_conflicts_on_pairs (ps : list PlantPlacement)
  (zones : list GardenZone) :
  (2 <= List.length ps)%nat -> detect_conflicts ps zones = inl TypeError.
Proof.
  intro H. unfold detect_conflicts. rewrite spacing_loop_outcome.
  destruct ps as [|p1 [|p2 rest]]; simpl in H; try lia. reflexivity.
Qed.

(** With at most one placement the pair loops have no pair, and the call
    returns when the zone check does. *)
Lemma detect_conflicts_fields (ps : list PlantPlacement)
  (zones : list GardenZone) (c : Conflicts) :
  detect_conflicts ps zones = inr c ->
  (List.length ps <= 1)%nat /\
  spacing_violations c = [] /\
  compatibility_violations c = [] /\
  zone_check ps zones = Some (zone_violations c) /\
  resource_conflicts c = [].
Proof.
  unfold detect_conflicts. rewrite spacing_loop_outcome.
  destruct ps as [|p1 [|p2 rest]]; try discriminate;
    (destruct (zone_check _ zones) as [zv|]; [|discriminate]);
    intro H; injection H as <-; simpl; repeat split; auto.
Qed.

(** The plants and the zone of the repository's conflict test. *)
Definition tomato : PlantSpecs :=
  {| name := "Tomato"; spacing_min := 30.0; spacing_optimal := 45.0;
     water_need := MEDIUM; sun_exposure := FULL_SUN;
     incompatible_plants := ["Potato"; "Corn"]%string |}.

Definition potato : PlantSpecs :=
  {| name := "Potato"; spacing_min := 25.0; spacing_optimal := 40.0;
     water_need := MEDIUM; sun_exposure := FULL_SUN;
     incompatible_plants := ["Tomato"%string] |}.

Definition main_garden : GardenZone :=
  {| zone_id := "zone_1"; area := 100.0; coordinates := (0.0, 0.0) |}.

Definition pair_at (px : Q) : list PlantPlacement :=
  [ {| plant_id := "tomato_1"; plant_specs := tomato; x := 0.0; y := 0.0 |};
    {| plant_id := "potato_1"; plant_specs := potato; x := px; y := 0.0 |} ].

Lemma main_garden_area : forall z, In z [main_garden] -> 0 <= area z.
Proof. intros z [<- | []]. vm_compute. discriminate. Defined.

(** C7.  [detect_conflicts] records no compatibility violation for any
    pair: on every list of two placements or more, whatever the zones, it
    raises [TypeError] in its first loop, the spacing loop, which calls
    [calculate_optimal_spacing] for the first pair; the compatibility loop
    is never reached. *)
Theorem detect_conflicts_raises_on_pairs (ps : list PlantPlacement)
  (zones : list GardenZone) :
  (2 <= List.length ps)%nat ->
  detect_conflicts ps zones = inl TypeError /\
  forall c, detect_conflicts ps zones <> inr c.
Proof.
  intro H. rewrite (detect_conflicts_on_pairs ps zones H).
  split; [reflexivity | discriminate].
Qed.

(** C7, on the claim's two layouts: tomato and potato list each other as
    incompatible; both 0.5 m apart and 3 m apart inside the 100 m^2 zone
    the call raises. *)
Lemma detect_conflicts_raises_on_claimed_layouts :
  detect_conflicts (pair_at 0.5) [main_garden] = inl TypeError /\
  detect_conflicts (pair_at 3.0) [main_garden] = inl TypeError /\
  incompatible (nth 0 (pair_at 0.5) (mkPlantPlacement "" tomato 0 0))
               (nth 1 (pair_at 0.5) (mkPlantPlacement "" tomato 0 0)) = true.
Proof.
  split; [|split].
  - apply (detect_conflicts_raises_on_pairs (pair_at 0.5) [main_garden]).
    simpl. lia.
  - apply (detect_conflicts_raises_on_pairs (pair_at 3.0) [main_garden]).
    simpl. lia.
  - reflexivity.
Defined.

(** *** Water competition *)

Definition high_water (p : PlantPlacement) : bool :=
  WaterNeed_eqb (water_need (plant_specs p)) HIGH.

(** [q] is a high-water-need plant less than 1 m away from [p]. *)
Definition near_high (p q : PlantPlacement) : bool :=
  ltb (distance p q) 1.0 && high_water q.

(** The placements other than the one at position [i]. *)
Definition others (i : nat) (ps : list PlantPlacement) : list PlantPlacement :=
  firstn i ps ++ skipn (S i) ps.

Lemma high_water_plants_spec (p1 : PlantPlacement) (later : list PlantPlacement) :
  high_water_plants p1 later =
  if high_water p1 then map plant_id (filter (near_high p1) later) else [].
Proof.
  unfold high_water_plants, near_high, high_water.
  destruct (WaterNeed_eqb (water_need (plant_specs p1)) HIGH).
  - reflexivity.
  - induction later as [|q l IH]; simpl; [reflexivity|].
    rewrite andb_false_r. exact IH.
Qed.

Lemma water_conflicts_In (ps : list PlantPlacement) (zones : list GardenZone)
  (r : ResourceConflict) :
  In r (_detect_water_conflicts ps zones) <->
  exists i p, nth_error ps i = Some p /\
    (2 < List.length (high_water_plants p (skipn (S i) ps)))%nat /\
    r = water_competition p (high_water_plants p (skipn (S i) ps)).
Proof.
  induction ps as [|p ps IH]; simpl.
  - split; [contradiction|]. intros (i & q & Hi & _). destruct i; discriminate.
  - rewrite in_app_iff, IH. split.
    + intros [H | (i & q & Hi & Hlen & Hr)].
      * destruct (2 <? List.length (high_water_plants p ps))%nat eqn:E;
          [|contradiction].
        destruct H as [<- | []]. exists 0%nat, p. simpl.
        apply Nat.ltb_lt in E. auto.
      * exists (S i), q. simpl. auto.
    + intros (i & q & Hi & Hlen & Hr). destruct i as [|i]; simpl in *.
      * left. injection Hi as <-.
        apply Nat.ltb_lt in Hlen. rewrite Hlen. left. now symmetry.
      * right. exists i, q. auto.
Qed.

Definition basil : PlantSpecs :=
  {| name := "Basil"; spacing_min := 15.0; spacing_optimal := 20.0;
     water_need := LOW; sun_exposure := FULL_SUN; incompatible_plants := [] |}.

Definition rice : PlantSpecs :=
  {| name := "Rice"; spacing_min := 10.0; spacing_optimal := 15.0;
     water_need := HIGH; sun_exposure := FULL_SUN; incompatible_plants := [] |}.

(** A low-water plant first and a high-water plant last, each with the
    three other high-water plants less than 1 m away. *)
Definition crowded_bed : list PlantPlacement :=
  [ {| plant_id := "basil_1"; plant_specs := basil; x := 0.0; y := -0.1 |};
    {| plant_id := "rice_1"; plant_specs := rice; x := 0.6; y := 0.0 |};
    {| plant_id := "rice_2"; plant_specs := rice; x := -0.6; y := 0.0 |};
    {| plant_id := "rice_3"; plant_specs := rice; x := 0.0; y := 0.7 |};
    {| plant_id := "rice_4"; plant_specs := rice; x := 0.0; y := 0.1 |} ].

(** The high-water plants of [crowded_bed] with the last one moved to the
    front. *)
Definition reordered_bed : list PlantPlacement :=
  [ {| plant_id := "rice_4"; plant_specs := rice; x := 0.0; y := 0.1 |};
    {| plant_id := "rice_1"; plant_specs := rice; x := 0.6; y := 0.0 |};
    {| plant_id := "rice_2"; plant_specs := rice; x := -0.6; y := 0.0 |};
    {| plant_id := "rice_3"; plant_specs := rice; x := 0.0; y := 0.7 |} ].

(** What [_detect_water_conflicts] itself returns: the records of the
    placements that are high-water-need and have more than two
    high-water-need placements later in the list less than 1 m away. *)
Lemma water_conflicts_iff (ps : list PlantPlacement)
  (zones : list GardenZone) (r : ResourceConflict) :
  In r (_detect_water_conflicts ps zones) <->
  exists i p, nth_error ps i = Some p /\
    high_water p = true /\
    (2 < List.length (filter (near_high p) (skipn (S i) ps)))%nat /\
    r = water_competition p
          (map plant_id (filter (near_high p) (skipn (S i) ps))).
Proof.
  rewrite water_conflicts_In.
  split; intros (i & p & Hi & H); exists i, p; split; auto;
    rewrite high_water_plants_spec in *.
  - destruct (high_water p); [|simpl in H; lia].
    rewrite length_map in H. tauto.
  - destruct H as (-> & Hlen & ->). rewrite length_map. tauto.
Qed.

(** C6 (evaluation at the failing input).  In [crowded_bed] the low-water
    plant at position 0 has four high-water plants within 1 m and the
    high-water plant at the last position has three.  [detect_conflicts]
    records no conflict for them: on these five placements it raises
    [TypeError] in its spacing loop.  [_detect_water_conflicts], called by
    itself on the same placements, returns no conflict either: it counts,
    for a plant that is itself high-water, only the plants that come after
    it in the list.  The order decides: with the last plant moved to the
    front, the four high-water plants get the conflict that names them. *)
Theorem water_conflict_missed :
  detect_conflicts crowded_bed [main_garden] = inl TypeError /\
  List.length (filter (near_high (nth 0 crowded_bed (mkPlantPlacement "" rice 0 0)))
                 (others 0 crowded_bed)) = 4%nat /\
  List.length (filter (near_high (nth 4 crowded_bed (mkPlantPlacement "" rice 0 0)))
                 (others 4 crowded_bed)) = 3%nat /\
  _detect_water_conflicts crowded_bed [main_garden] = [] /\
  _detect_water_conflicts reordered_bed [main_garden]
  = [ water_competition (nth 0 reordered_bed (mkPlantPlacement "" rice 0 0))
        ["rice_1"; "rice_2"; "rice_3"]%string ].
Proof.
  split; [apply detect_conflicts_on_pairs; simpl; lia|].
  repeat split; vm_compute; reflexivity.
Qed.

(** *** The genetic optimizer *)

(** The fitness of a candidate of two placements or more is never
    computed: the spacing loop raises. *)
Lemma spacing_penalty_outcome (ps : list PlantPlacement) :
  pair_penalty_raising spacing_excess 0 ps
  = match ps with
    | _ :: _ :: _ => inl TypeError
    | _ => inr 0
    end.
Proof. destruct ps as [|p1 [|p2 rest]]; reflexivity. Qed.

Lemma calculate_fitness_on_pairs (st : Store) (ind : Individual)
  (zones : list GardenZone) :
  (2 <= List.length ind)%nat -> _calculate_fitness st ind zones = inl TypeError.
Proof.
  intro H. destruct ind as [|r1 [|r2 rest]]; simpl in H; try lia.
  reflexivity.
Qed.

Lemma evaluate_best_fitness (st : Store) (zones : list GardenZone)
  (pop : list Individual) :
  forall scores bf bs scores' bf' bs',
    evaluate st zones pop scores bf bs = Some (scores', bf', bs') ->
    ext_le bf bf'.
Proof.
  induction pop as [|ind pop IH]; simpl; intros scores bf bs scores' bf' bs' H.
  - injection H as _ <- _. auto with pyfloat.
  - destruct (_calculate_fitness st ind zones) as [e|f]; [discriminate|].
    destruct (ext_ltb bf f) eqn:E.
    + apply ext_le_trans with f; [auto with pyfloat | eapply IH; eauto].
    + eapply IH; eauto.
Qed.

(** The best fitness and solution after a generation are those that the
    evaluation loop leaves. *)
Lemma generation_step_evaluates (cfg : PlacementOptimizer)
  (zones : list GardenZone) (s s' : GAState) (draws : nat -> PairDraws) :
  generation_step cfg zones s draws = Some s' ->
  exists scores,
    evaluate (store s) zones (population s) [] (best_fitness s)
      (best_solution s)
    = Some (scores, best_fitness s', best_solution s').
Proof.
  unfold generation_step. intro H.
  destruct (evaluate (store s) zones (population s) [] (best_fitness s)
              (best_solution s)) as [[[scores bf] bs]|]; [|discriminate].
  destruct (breed_loop cfg (population_size cfg / 2) 0 (store s)
              (population s) scores draws []) as [[st' np]|]; [|discriminate].
  injection H as <-. simpl. eauto.
Qed.

(** C8.  Whenever a generation of [optimize_placement_genetic] completes,
    the recorded [best_fitness] after it is greater than or equal to the
    value before it, whatever the random draws. *)
Theorem best_fitness_non_decreasing (cfg : PlacementOptimizer)
  (zones : list GardenZone) (s s' : GAState) (draws : nat -> PairDraws) :
  generation_step cfg zones s draws = Some s' ->
  ext_le (best_fitness s) (best_fitness s').
Proof.
  intro H. destruct (generation_step_evaluates _ _ _ _ _ H) as [scores E].
  eapply evaluate_best_fitness; eauto.
Qed.

(** The same over any number of generations of one run. *)
Lemma run_best_fitness_non_decreasing (cfg : PlacementOptimizer)
  (zones : list GardenZone) (draws : nat -> nat -> PairDraws) (n : nat) :
  forall g s s',
    run_generations cfg zones n g s draws = Some s' ->
    ext_le (best_fitness s) (best_fitness s').
Proof.
  induction n as [|n IH]; simpl; intros g s s' H.
  - injection H as <-. apply ext_le_refl.
  - destruct (generation_step cfg zones s (draws g)) as [s1|] eqn:E;
      [|discriminate].
    apply ext_le_trans with (best_fitness s1).
    + destruct (generation_step_evaluates _ _ _ _ _ E) as [scores E1].
      eapply evaluate_best_fitness; eauto.
    + eapply IH; eauto.
Qed.

(** A generation completes only on a population whose candidates have at
    most one placement each. *)
Lemma evaluate_small_candidates (st : Store) (zones : list GardenZone)
  (pop : list Individual) :
  forall scores bf bs res,
    evaluate st zones pop scores bf bs = Some res ->
    Forall (fun ind => (List.length ind <= 1)%nat) pop.
Proof.
  induction pop as [|ind pop IH]; simpl; intros scores bf bs res H.
  - constructor.
  - destruct (_calculate_fitness st ind zones) as [e|f] eqn:Ef;
      [discriminate|].
    constructor.
    + destruct (le_lt_dec (List.length ind) 1) as [Hle | Hlt]; [exact Hle|].
      rewrite calculate_fitness_on_pairs in Ef by lia. discriminate.
    + destruct (ext_ltb bf f); eapply IH; eauto.
Qed.

Lemma generation_step_small_candidates (cfg : PlacementOptimizer)
  (zones : list GardenZone) (s s' : GAState) (draws : nat -> PairDraws) :
  generation_step cfg zones s draws = Some s' ->
  Forall (fun ind => (List.length ind <= 1)%nat) (population s).
Proof.
  intro H. destruct (generation_step_evaluates _ _ _ _ _ H) as [scores E].
  eapply evaluate_small_candidates; eauto.
Qed.

(** Eight placements, all inside [main_garden]. *)
Definition small_store : Store :=
  fun r =>
    match r with
    | 0%nat => {| plant_id := "tomato_1"; plant_specs := tomato; x := 0.0; y := 0.0 |}
    | 1%nat => {| plant_id := "potato_1"; plant_specs := potato; x := 0.3; y := 0.0 |}
    | 2%nat => {| plant_id := "tomato_2"; plant_specs := tomato; x := 2.0; y := 2.0 |}
    | 3%nat => {| plant_id := "potato_2"; plant_specs := potato; x := 3.0; y := 3.0 |}
    | 4%nat => {| plant_id := "tomato_3"; plant_specs := tomato; x := 1.0; y := 1.0 |}
    | 5%nat => {| plant_id := "potato_3"; plant_specs := potato; x := -2.0; y := -2.0 |}
    | 6%nat => {| plant_id := "tomato_4"; plant_specs := tomato; x := -1.0; y := 1.0 |}
    | _ => {| plant_id := "potato_4"; plant_specs := potato; x := -1.0; y := -3.0 |}
    end.

Definition small_optimizer : PlacementOptimizer :=
  {| population_size := 4; generations := 2;
     mutation_rate := 0.1; crossover_rate := 0.8 |}.

(** A run for one plant: four candidates of one tomato each. *)
Definition single_state : GAState :=
  {| store := small_store;
     population := [[0]; [2]; [4]; [6]]%nat;
     best_fitness := NegInf;
     best_solution := None |}.

(** Draws: no crossover (on candidates of one placement it would raise);
    the first child of round 0 of generation 1 is mutated, its placement
    jittered by (0.25, -0.25); no other mutation. *)
Definition single_draws (g k : nat) : PairDraws :=
  {| sample1 := [0; 1; 2]%nat;
     sample2 := [1; 2; 3]%nat;
     crossover_coin := 0.9;
     crossover_point := 1;
     mutation_coin1 := if ((g =? 1) && (k =? 0))%nat then 0.05 else 0.5;
     jitters1 := fun _ => {| coin := 0.05; dx := 0.25; dy := -0.25 |};
     mutation_coin2 := 0.5;
     jitters2 := fun _ => {| coin := 0.5; dx := 0.0; dy := 0.0 |} |}.

(** The same run for two plants does not get through its first
    evaluation. *)
Definition pair_state : GAState :=
  {| store := small_store;
     population := [[0; 1]; [2; 3]; [4; 5]; [6; 7]]%nat;
     best_fitness := NegInf;
     best_solution := None |}.

Lemma pair_run_raises (draws : nat -> PairDraws) :
  generation_step small_optimizer [main_garden] pair_state draws = None.
Proof. reflexivity. Qed.

(** C8, on the first generation of the run for one plant: the generation
    completes and the best fitness goes from minus infinity to 10. *)
Lemma best_fitness_single_plant_run :
  exists s', generation_step small_optimizer [main_garden] single_state
               (single_draws 0) = Some s' /\
    ext_le (best_fitness single_state) (best_fitness s') /\
    best_fitness s' = Fin (inject_Z 1 * 10 - (0 + 0 + 0)).
Proof.
  destruct (generation_step small_optimizer [main_garden] single_state
              (single_draws 0)) as [s'|] eqn:E.
  - exists s'. split; [reflexivity|]. split.
    + exact (best_fitness_non_decreasing _ _ _ _ _ E).
    + vm_compute in E. injection E as <-. reflexivity.
  - vm_compute in E. discriminate.
Defined.

(** *** Mutation and aliasing *)

(** [_mutate] returns a list of the same references as its input. *)
Lemma mutate_same_references (st : Store) (ind : Individual)
  (draws : nat -> Jitter) :
  snd (_mutate st ind draws) = ind.
Proof. reflexivity. Qed.

(** Frame: a placement that the candidate does not reference is not
    touched. *)
Lemma mutate_loop_frame (draws : nat -> Jitter) (r : Ref) (l : list Ref) :
  forall st i, ~ In r l -> mutate_loop st i l draws r = st r.
Proof.
  induction l as [|a l IH]; intros st i Hn; [reflexivity|].
  assert (Hl : ~ In r l) by (intro; apply Hn; now right).
  assert (Ha : a <> r) by (intro; apply Hn; now left).
  simpl. rewrite IH by assumption.
  destruct (ltb (coin (draws i)) 0.1); [|reflexivity].
  unfold store_set. destruct (Nat.eqb r a) eqn:E; [|reflexivity].
  apply Nat.eqb_eq in E. congruence.
Qed.

(** When the draw for the first placement of a candidate is below 0.1, the
    object that the input candidate references first is moved. *)
Lemma mutate_moves_shared_placement (st : Store) (r : Ref) (rest : list Ref)
  (draws : nat -> Jitter) :
  coin (draws 0%nat) < 0.1 -> ~ In r rest ->
  fst (_mutate st (r :: rest) draws) r
  = move (st r) (dx (draws 0%nat)) (dy (draws 0%nat)).
Proof.
  intros Hc Hn. unfold _mutate, list_copy. simpl.
  apply ltb_lt in Hc. rewrite Hc.
  rewrite mutate_loop_frame by assumption.
  unfold store_set. now rewrite Nat.eqb_refl.
Qed.

(** C10 (evaluation at the failing input).  [_mutate] on the candidate
    [[2; 3]] of the small store returns the same two references and leaves
    the first placement of the input candidate at (2.25, 1.75) instead of
    (2, 2).  In the run for one plant the best solution recorded in
    generation 0 is the candidate [[0]], at (0, 0); it is still the
    recorded best after generation 1, with the same best fitness, but the
    mutation of generation 1 has moved its placement to (0.25, -0.25). *)
Theorem mutate_moves_input_candidate :
  (let input := [2; 3]%nat in
   let jitter := fun _ : nat => {| coin := 0.05; dx := 0.25; dy := -0.25 |} in
   snd (_mutate small_store input jitter) = input /\
   x (small_store 2%nat) == 2 /\ y (small_store 2%nat) == 2 /\
   x (fst (_mutate small_store input jitter) 2%nat) == 2.25 /\
   y (fst (_mutate small_store input jitter) 2%nat) == 1.75) /\
  (exists s1 s2,
     generation_step small_optimizer [main_garden] single_state
       (single_draws 0) = Some s1 /\
     generation_step small_optimizer [main_garden] s1 (single_draws 1)
       = Some s2 /\
     best_solution s1 = Some [0]%nat /\
     best_solution s2 = Some [0]%nat /\
     best_fitness s2 = best_fitness s1 /\
     x (store s1 0%nat) == 0 /\ y (store s1 0%nat) == 0 /\
     x (store s2 0%nat) == 0.25 /\ y (store s2 0%nat) == -0.25).
Proof.
  split.
  - cbv zeta. repeat split; vm_compute; reflexivity.
  - destruct (generation_step small_optimizer [main_garden] single_state
                (single_draws 0)) as [s1|] eqn:E1;
      [|vm_compute in E1; discriminate].
    destruct (generation_step small_optimizer [main_garden] s1
                (single_draws 1)) as [s2|] eqn:E2.
    + exists s1, s2. split; [reflexivity|]. split; [exact E2|].
      vm_compute in E1. injection E1 as <-.
      vm_compute in E2. injection E2 as <-.
      repeat split; vm_compute; reflexivity.
    + vm_compute in E1. injection E1 as <-.
      vm_compute in E2. discriminate.
Qed.

End AgronomicFacts.

Module HydraulicFacts.
Import Hydraulic.

Section EngineFacts.

Variable colebrook_white : Q -> Q -> option Q.

(** C5.  For a Reynolds number below 2300 the result of
    [calculate_friction_factor] is the result of the division [64.0 / Re],
    whatever the relative roughness (and whatever the turbulent branch
    does): the number [64 / Re] when [Re] is not zero, and the
    [ZeroDivisionError] of that division at [Re = 0]. *)
Theorem friction_factor_laminar (reynolds_number relative_roughness : Q) :
  reynolds_number < 2300 ->
  calculate_friction_factor colebrook_white reynolds_number relative_roughness
    = py_div 64.0 reynolds_number
  /\ (~ reynolds_number == 0 ->
      exists f,
        calculate_friction_factor colebrook_white reynolds_number
          relative_roughness = Some f
        /\ f == 64 / reynolds_number).
Proof.
  intro H. apply ltb_lt in H.
  unfold calculate_friction_factor. rewrite H. split; [reflexivity|].
  intro Hnz. unfold py_div.
  destruct (Qeq_bool reynolds_number 0) eqn:E.
  - apply Qeq_bool_iff in E. contradiction.
  - exists (64.0 / reynolds_number). split; [reflexivity|].
    apply Qmult_comp; reflexivity.
Qed.

(** *** optimize_pipe_diameter *)

(** Case analysis on the outcome of the Darcy-Weisbach computation that the
    goal scrutinises. *)
Ltac case_loss :=
  match goal with
  | |- context [calculate_pressure_loss_darcy_weisbach ?cw ?f ?d ?l ?r] =>
      let loss := fresh "loss" in
      let v := fresh "v" in
      let re := fresh "re" in
      let ff := fresh "ff" in
      let E := fresh "Eloss" in
      destruct (calculate_pressure_loss_darcy_weisbach cw f d l r)
        as [[[[loss v] re] ff]|] eqn:E
  end.

(** The constraint of the scan for one diameter: the Darcy-Weisbach loss can
    be computed and, with the 10% surcharge for minor losses, it is at most
    [max_pressure_loss_bar]. *)
Definition acceptable (flow_rate_lph length_m : Q) (mat : PipeMaterial)
  (max_pressure_loss_bar : Q) (diameter_mm : Z) : bool :=
  match calculate_pressure_loss_darcy_weisbach colebrook_white flow_rate_lph
          (inject_Z diameter_mm / 1000.0) length_m
          (roughness_mm (PIPE_PROPERTIES mat) / 1000.0) with
  | Some (loss, _, _, _) => leb (loss + loss * 0.1) max_pressure_loss_bar
  | None => false
  end.

Section Scan.

Variables (flow_rate_lph length_m : Q) (mat : PipeMaterial)
  (max_pressure_loss_bar : Q).

Let ok := acceptable flow_rate_lph length_m mat max_pressure_loss_bar.
Let step := try_diameter colebrook_white flow_rate_lph length_m
              (roughness_mm (PIPE_PROPERTIES mat))
              (cost_per_meter (PIPE_PROPERTIES mat)) max_pressure_loss_bar.
Let cost := length_m * cost_per_meter (PIPE_PROPERTIES mat).

Lemma step_rejected (s : Scan) (d : Z) : ok d = false -> step s d = s.
Proof.
  unfold ok, step, acceptable, try_diameter. cbv zeta.
  case_loss; [|reflexivity].
  intros ->. reflexivity.
Qed.

Lemma step_settled (s : Scan) (d : Z) : best_cost s = Fin cost -> step s d = s.
Proof.
  unfold step, try_diameter. cbv zeta. intro Hc.
  case_loss; [|reflexivity].
  destruct (leb _ _); [|reflexivity].
  rewrite Hc. simpl. fold cost. rewrite ltb_irrefl. reflexivity.
Qed.


Lemma scan_settled (ds : list Z) :
  forall s, best_cost s = Fin cost -> fold_left step ds s = s.
Proof.
  induction ds as [|d ds IH]; simpl; intros s Hc; [reflexivity|].
  rewrite step_settled by assumption. now apply IH.
Qed.


End Scan.




(** *** calculate_network_hydraulics *)

(** The loop over the pipes does not get past its first pipe. *)
Lemma pipe_loop_outcome (acc : Q * list PipeResult)
  (pipes : list IrrigationPipe) :
  pipe_loop colebrook_white acc pipes
  = match pipes with
    | [] => inr acc
    | _ :: _ => inl (AttributeError "diameter_m")
    end.
Proof. destruct pipes as [|p rest]; [reflexivity|]. now destruct acc. Qed.

(** C2.  As the repository calls it, [calculate_network_hydraulics] has a
    result only for a network without pipes: on every pipe list that is
    not empty it raises [AttributeError], because the loop reads
    [pipe.diameter_m] and the pipes have [diameter_mm] only, so no loss is
    ever summed.  Without pipes the call returns, the final pressure is the
    source pressure, the system is viable exactly when that is at least 1.0
    bar, the flow warning is present exactly when the summed zone demand
    exceeds the source flow, and the viability flag is the same for every
    other zone list and source flow. *)
Theorem network_hydraulics_as_called (zones : list IrrigationZone)
  (pipes : list IrrigationPipe) (source_pressure_bar source_flow_lph : Q) :
  (pipes <> [] ->
   calculate_network_hydraulics colebrook_white zones pipes
     source_pressure_bar source_flow_lph
   = inl (AttributeError "diameter_m")) /\
  (pipes = [] ->
   exists r,
     calculate_network_hydraulics colebrook_white zones pipes
       source_pressure_bar source_flow_lph = inr r /\
     final_pressure_bar r == source_pressure_bar /\
     (is_system_viable r = true <-> 1 <= final_pressure_bar r) /\
     (existsb is_flow_warning (warnings r) = true
      <-> source_flow_lph < py_sum (map required_flow_lph zones)) /\
     (forall zones' source_flow_lph',
        exists r',
          calculate_network_hydraulics colebrook_white zones' pipes
            source_pressure_bar source_flow_lph' = inr r' /\
          is_system_viable r' = is_system_viable r)).
Proof.
  unfold calculate_network_hydraulics. cbv zeta. split.
  - intro Hne. rewrite pipe_loop_outcome.
    destruct pipes as [|p rest]; [congruence | reflexivity].
  - intros ->. cbn [pipe_loop].
    eexists. split; [reflexivity|]. cbn [final_pressure_bar is_system_viable
                                          warnings].
    split; [lra|]. split; [rewrite leb_le; split; intro; lra|]. split.
    + rewrite <- ltb_lt.
      destruct (ltb source_flow_lph (py_sum (map required_flow_lph zones)));
        destruct (ltb (source_pressure_bar - 0.0) 1.0);
        destruct (ltb (source_pressure_bar - 0.0) 0.5);
        simpl; rewrite ?existsb_app; simpl; intuition congruence.
    + intros zones' sf'. eexists. split; reflexivity.
Qed.

End EngineFacts.

(** C5 at [Re = 1000] and a relative roughness of 0.0001: the factor is
    0.064. *)
Lemma friction_factor_laminar_1000 :
  exists f,
    calculate_friction_factor (fun _ _ => None) 1000 0.0001 = Some f
    /\ f == 0.064.
Proof.
  destruct (proj2 (friction_factor_laminar (fun _ _ => None) 1000 0.0001
                     eq_refl)) as (f & Hf & Heq).
  - intro H. vm_compute in H. discriminate.
  - exists f. split; [exact Hf|]. rewrite Heq. reflexivity.
Defined.

(** A solver that always raises: enough for laminar flows, which never
    reach it. *)
Definition no_solver : Q -> Q -> option Q := fun _ _ => None.

(** C3 on a laminar flow: 10 LPH over 50 m of PVC with at most 0.001 bar of
    loss.  The 13 mm pipe loses more than that, the 16 mm pipe does not, and
    16 is returned. *)
Lemma optimize_pipe_diameter_example :
  acceptable no_solver 10 50 PVC 0.001 13 = false /\
  acceptable no_solver 10 50 PVC 0.001 16 = true /\
  exists r, optimize_pipe_diameter no_solver 10 50 PVC 0.001 = inr r /\
            optimal_diameter_mm r = 16%Z.
Proof.
  split; [vm_compute; reflexivity|]. split; [vm_compute; reflexivity|].
  eexists. split; [vm_compute; reflexivity | reflexivity].
Qed.

(** The network of the claim's example: two zones that ask for 600 LPH in
    total, a source of 500 LPH at 3 bar; and one lateral. *)
Definition demand_600 : list IrrigationZone :=
  [ {| zone_name := "Zone 1"; required_flow_lph := 300.0 |};
    {| zone_name := "Zone 2"; required_flow_lph := 300.0 |} ].

Definition one_lateral : list IrrigationPipe :=
  [ {| pipe_id := "lateral_1"; material := PVC; flow_rate_lph := 10.0;
       diameter_mm := 16.0; length_m := 20.0 |} ].

(** C2 on that network: with the lateral the call raises; without a pipe
    the flow warning is emitted and the system is viable all the same. *)
Lemma network_hydraulics_example :
  calculate_network_hydraulics no_solver demand_600 one_lateral 3.0 500.0
  = inl (AttributeError "diameter_m") /\
  exists r,
    calculate_network_hydraulics no_solver demand_600 [] 3.0 500.0 = inr r /\
    existsb is_flow_warning (warnings r) = true /\
    is_system_viable r = true.
Proof.
  split.
  - apply (network_hydraulics_as_called no_solver demand_600 one_lateral
             3.0 500.0). discriminate.
  - destruct (proj2 (network_hydraulics_as_called no_solver demand_600 []
                       3.0 500.0) eq_refl)
      as (r & Hr & Hp & Hviable & Hwarn & _).
    exists r. split; [exact Hr|]. split.
    + apply Hwarn. vm_compute. reflexivity.
    + apply Hviable. rewrite Hp. vm_compute. discriminate.
Defined.

End HydraulicFacts.

Module ClusteringFacts.
Import Clustering.

(** *** optimize_equipment_selection *)

Lemma consider_eq_type (area : Q) (budget : option Q) (req : Q) (s s' : Search)
  (e : CatalogEntry) :
  consider area budget req s e = inr s' -> eq_type s' = eq_type s.
Proof.
  unfold consider. cbv zeta.
  destruct (units_for area e); [|discriminate].
  destruct (over_budget _ _); [intro H; injection H as <-; reflexivity|].
  destruct (leb _ _); [|intro H; injection H as <-; reflexivity].
  destruct (py_div _ _); [|discriminate].
  destruct (_ || _); intro H; injection H as <-; reflexivity.
Qed.

Lemma consider_all_eq_type (area : Q) (budget : option Q) (req : Q)
  (entries : list CatalogEntry) :
  forall s s', consider_all area budget req s entries = inr s' ->
               eq_type s' = eq_type s.
Proof.
  induction entries as [|e entries IH]; simpl; intros s s' H.
  - injection H as <-. reflexivity.
  - destruct (consider area budget req s e) as [err|s1] eqn:E; [discriminate|].
    rewrite (IH _ _ H). eapply consider_eq_type; eauto.
Qed.

Lemma last_cons_default {A : Type} (l : list A) :
  forall a d, last (a :: l) d = last l a.
Proof.
  induction l as [|b l IH]; intros a d; [reflexivity|].
  change (last (a :: b :: l) d) with (last (b :: l) d).
  now rewrite !IH.
Qed.

(** After the loops the variable [eq_type] holds the last element of
    [equipment_types], whichever entry was selected. *)
Lemma search_types_eq_type (area : Q) (budget : option Q) (req : Q)
  (types : list EquipmentType) :
  forall s s', search_types area budget req s types = inr s' ->
               eq_type s' = last (map Some types) (eq_type s).
Proof.
  induction types as [|t types IH]; intros s s' H.
  - simpl in H. injection H as <-. reflexivity.
  - cbn [search_types] in H.
    set (s1 := {| best_equipment := best_equipment s; best_cost := best_cost s;
                  best_coverage := best_coverage s; eq_type := Some t |}) in *.
    rewrite map_cons, last_cons_default.
    destruct (equipment_database t) as [entries|].
    + destruct (consider_all area budget req s1 entries) as [err|s2] eqn:E;
        [discriminate|].
      rewrite (IH _ _ H).
      now rewrite (consider_all_eq_type _ _ _ _ _ _ E).
    + now rewrite (IH _ _ H).
Qed.

(** The types that [optimize_equipment_selection] searches. *)
Definition searched (preferred_equipment_type : option EquipmentType)
  : list EquipmentType :=
  match preferred_equipment_type with
  | Some t => [t]
  | None => all_equipment_types
  end.

(** The placeholder id is no UUID, and no date is given: the constructor
    of the recommended equipment rejects its arguments whatever the other
    fields are. *)
Lemma placeholder_equipment_rejected (fields : IrrigationEquipment) :
  IrrigationEquipment_init "temp_id" None None fields = inl ValidationError.
Proof. reflexivity. Qed.



(** *** kmeans_clustering *)

Lemma le_fold_max (c : nat) (l : list nat) :
  In c l -> (c <= fold_right Nat.max 0 l)%nat.
Proof.
  induction l as [|a l IH]; simpl; [contradiction|].
  intros [-> | Hin]; [lia|]. specialize (IH Hin). lia.
Qed.

Lemma unique_labels_In (labels : list nat) (c : nat) :
  In c (unique_labels labels) <-> In c labels.
Proof.
  unfold unique_labels. rewrite filter_In, in_seq, existsb_exists. split.
  - intros (_ & x & Hx & E). apply Nat.eqb_eq in E. now subst.
  - intro Hin. split.
    + pose proof (le_fold_max c labels Hin). lia.
    + exists c. split; [assumption | apply Nat.eqb_refl].
Qed.

(** The test on the counts speaks of the labels that occur. *)
Lemma all_counts_at_least_In (labels : list nat) (m : Z) (c : nat) :
  all_counts_at_least labels m = true -> In c labels ->
  (m <= Z.of_nat (count_occ Nat.eq_dec labels c))%Z.
Proof.
  unfold all_counts_at_least, label_counts. rewrite forallb_forall.
  intros H Hin. apply Z.leb_le. apply H.
  apply in_map_iff. exists c. split; [reflexivity|].
  now apply unique_labels_In.
Qed.

Lemma set_nth_length {A : Type} (i : nat) (v : A) (l : list A) :
  List.length (set_nth i v l) = List.length l.
Proof.
  revert i. induction l as [|a l IH]; intros [|i]; simpl; auto.
Qed.

Lemma set_nth_nth {A : Type} (i : nat) (v : A) (l : list A) (c : nat) (d : A) :
  (i < List.length l)%nat ->
  nth c (set_nth i v l) d = if Nat.eqb c i then v else nth c l d.
Proof.
  revert i c. induction l as [|a l IH]; intros i c Hi; simpl in Hi; [lia|].
  destruct i as [|i]; destruct c as [|c]; simpl; auto.
  apply IH. lia.
Qed.

(** Grouping by in-range labels succeeds, keeps the number of clusters, and
    adds to cluster [c] as many plants as there are labels equal to [c]. *)
Lemma assign_sizes (plants : list PlantData) (labels : list nat) :
  forall clusters i,
    (forall l, In l labels -> (l < List.length clusters)%nat) ->
    (i + List.length labels <= List.length plants)%nat ->
    exists clusters',
      assign clusters plants i labels = Some clusters' /\
      List.length clusters' = List.length clusters /\
      forall c, List.length (nth c clusters' [])
                = (List.length (nth c clusters [])
                   + count_occ Nat.eq_dec labels c)%nat.
Proof.
  induction labels as [|l labels IH]; intros clusters i Hrange Hlen.
  - exists clusters. simpl. repeat split; auto.
  - simpl in Hlen. cbn [assign].
    destruct (nth_error plants i) as [p|] eqn:Ep;
      [|apply nth_error_None in Ep; lia].
    assert (Hl : (l < List.length clusters)%nat) by (apply Hrange; now left).
    destruct (nth_error clusters l) as [cl|] eqn:Ec;
      [|apply nth_error_None in Ec; lia].
    destruct (IH (set_nth l (cl ++ [p]) clusters) (S i))
      as (clusters' & Ha & Hlen' & Hcount).
    { intros l' Hl'. rewrite set_nth_length. apply Hrange. now right. }
    { lia. }
    exists clusters'. split; [exact Ha|].
    split; [now rewrite Hlen', set_nth_length|].
    intro c. rewrite Hcount, set_nth_nth by assumption.
    cbn [count_occ].
    destruct (Nat.eqb c l) eqn:E.
    + apply Nat.eqb_eq in E. subst c.
      destruct (Nat.eq_dec l l) as [_|Hne]; [|congruence].
      rewrite length_app. simpl.
      rewrite (nth_error_nth _ _ _ Ec). lia.
    + apply Nat.eqb_neq in E.
      destruct (Nat.eq_dec l c) as [Heq|_]; [congruence|]. reflexivity.
Qed.

Lemma repeat_nil_nth (k c : nat) :
  List.length (nth c (repeat (@nil PlantData) k) []) = 0%nat.
Proof.
  revert c. induction k as [|k IH]; intros [|c]; simpl; auto.
Qed.

Section KMeansFacts.

Variable KMeans_fit_predict :
  list (list Q) -> nat -> option (list nat * list (list Q)).
Variable silhouette_score : list (list Q) -> list nat -> option Q.

(** The shape of what scikit-learn's [KMeans] returns: one label per
    sample, one centre per requested cluster, every label below
    [n_clusters]. *)
Definition kmeans_shapes : Prop :=
  forall features k labels centers,
    KMeans_fit_predict features k = Some (labels, centers) ->
    List.length labels = List.length features /\
    List.length centers = k /\
    forall c, In c labels -> (c < k)%nat.

(** [KMeans] leaves no cluster empty: each of [0 .. n_clusters - 1] labels
    some sample. *)
Definition kmeans_no_empty_cluster : Prop :=
  forall features k labels centers,
    KMeans_fit_predict features k = Some (labels, centers) ->
    forall c, (c < k)%nat -> In c labels.

(** What is assumed of [KMeans]. *)
Definition kmeans_contract : Prop :=
  kmeans_shapes /\ kmeans_no_empty_cluster.

(** A kept candidate comes from a tried cluster count and has passed the
    test on the counts. *)
Definition from_candidates (features : list (list Q)) (m : Z) (ks : list nat)
  (s : Best) : Prop :=
  match best_labelling s with
  | None => True
  | Some (labels, centers) =>
      exists k, In k ks /\
        KMeans_fit_predict features k = Some (labels, centers) /\
        all_counts_at_least labels m = true
  end.

Lemma try_clusters_from_candidates (features : list (list Q)) (m : Z)
  (ks : list nat) (s : Best) (k : nat) :
  In k ks -> from_candidates features m ks s ->
  from_candidates features m ks
    (try_clusters KMeans_fit_predict silhouette_score features m s k).
Proof.
  intros Hk Hs. unfold try_clusters.
  destruct (KMeans_fit_predict features k) as [[labels centers]|] eqn:E;
    [|exact Hs].
  destruct (all_counts_at_least labels m) eqn:Ec; [|exact Hs].
  destruct (if (1 <? k)%nat then silhouette_score features labels else Some 0)
    as [score|]; [|exact Hs].
  destruct (ltb (best_score s) score); [|exact Hs].
  unfold from_candidates. simpl. exists k. auto.
Qed.

Lemma fold_from_candidates (features : list (list Q)) (m : Z) (ks : list nat) :
  forall todo s,
    (forall k, In k todo -> In k ks) ->
    from_candidates features m ks s ->
    from_candidates features m ks
      (fold_left (try_clusters KMeans_fit_predict silhouette_score features m)
         todo s).
Proof.
  induction todo as [|k todo IH]; simpl; intros s Hsub Hs; [exact Hs|].
  apply IH.
  - intros k' Hk'. apply Hsub. now right.
  - apply try_clusters_from_candidates; auto.
Qed.

Lemma max_clusters_of_bounds (n max_zones m : Z) :
  (1 <= max_zones)%Z ->
  (1 <= max_clusters_of n max_zones m <= max_zones)%Z.
Proof.
  intro H. unfold max_clusters_of. cbv zeta.
  destruct (Z.min max_zones (n / m) <? 1)%Z eqn:E.
  - lia.
  - apply Z.ltb_ge in E. lia.
Qed.

(** The single-cluster fallback is taken when the input is smaller than the
    minimum or when no candidate count was kept. *)
Definition fallback_taken (plants : list PlantData) (max_zones m : Z) : bool :=
  (Z.of_nat (List.length plants) <? m)%Z
  || match best_labelling
             (select_best KMeans_fit_predict silhouette_score
                (create_feature_matrix plants)
                (max_clusters_of (Z.of_nat (List.length plants)) max_zones m)
                m) with
     | None => true
     | Some _ => false
     end.

(** Outside the fallback the clusters are the groups of a kept labelling:
    as many as there are centres, cluster [c] as large as label [c] is
    frequent. *)
Lemma kmeans_clustering_groups (plants : list PlantData)
  (max_zones min_plants_per_zone : Z) :
  kmeans_shapes ->
  (1 <= max_zones)%Z -> (1 <= min_plants_per_zone)%Z ->
  exists clusters centers,
    kmeans_clustering KMeans_fit_predict silhouette_score plants max_zones
      min_plants_per_zone = Some (clusters, centers) /\
    (Z.of_nat (List.length clusters) <= max_zones)%Z /\
    if fallback_taken plants max_zones min_plants_per_zone
    then clusters = [plants]
    else exists labels,
        KMeans_fit_predict (create_feature_matrix plants)
          (List.length clusters) = Some (labels, centers) /\
        all_counts_at_least labels min_plants_per_zone = true /\
        forall c, List.length (nth c clusters [])
                  = count_occ Nat.eq_dec labels c.
Proof.
  intros Hkm Hzones Hmin.
  unfold kmeans_clustering, fallback_taken. cbv zeta.
  destruct (Z.of_nat (List.length plants) <? min_plants_per_zone)%Z eqn:En.
  - exists [plants], [[0; 0]]. simpl. repeat split; auto; lia.
  - replace (min_plants_per_zone =? 0)%Z with false
      by (symmetry; apply Z.eqb_neq; lia).
    set (mc := max_clusters_of (Z.of_nat (List.length plants)) max_zones
                 min_plants_per_zone).
    set (features := create_feature_matrix plants).
    pose proof (max_clusters_of_bounds (Z.of_nat (List.length plants))
                  max_zones min_plants_per_zone Hzones) as Hmc.
    fold mc in Hmc.
    assert (Hsel : from_candidates features min_plants_per_zone
                     (seq 1 (Z.to_nat mc))
                     (select_best KMeans_fit_predict silhouette_score features
                        mc min_plants_per_zone)).
    { apply fold_from_candidates; [auto | exact I]. }
    unfold from_candidates in Hsel.
    destruct (best_labelling _) as [[labels centers]|].
    + destruct Hsel as (k & Hk & Hfit & Hcounts).
      apply in_seq in Hk.
      destruct (Hkm _ _ _ _ Hfit) as (Hlen & Hcen & Hlab).
      unfold features, create_feature_matrix in Hlen.
      rewrite length_map in Hlen.
      destruct (assign_sizes plants labels
                  (repeat [] (List.length centers)) 0)
        as (clusters & -> & Hk' & Hsize).
      { intros l Hl. rewrite repeat_length, Hcen. now apply Hlab. }
      { lia. }
      rewrite repeat_length, Hcen in Hk'.
      exists clusters, centers. split; [reflexivity|].
      split; [lia|]. simpl.
      exists labels. rewrite Hk'. split; [exact Hfit|].
      split; [exact Hcounts|].
      intro c. now rewrite Hsize, repeat_nil_nth.
    + exists [plants], [[0; 0]]. simpl. repeat split; auto; lia.
Qed.

(** Without the assumption that no cluster is empty, the minimum holds for
    the clusters that are not empty: the test of the code counts only the
    labels that occur. *)
Lemma kmeans_clustering_nonempty_zones (plants : list PlantData)
  (max_zones min_plants_per_zone : Z) :
  kmeans_shapes ->
  (1 <= max_zones)%Z -> (1 <= min_plants_per_zone)%Z ->
  exists clusters centers,
    kmeans_clustering KMeans_fit_predict silhouette_score plants max_zones
      min_plants_per_zone = Some (clusters, centers) /\
    (Z.of_nat (List.length clusters) <= max_zones)%Z /\
    if fallback_taken plants max_zones min_plants_per_zone
    then clusters = [plants]
    else Forall (fun c => c = [] \/
                   (min_plants_per_zone <= Z.of_nat (List.length c))%Z)
           clusters.
Proof.
  intros Hkm Hzones Hmin.
  destruct (kmeans_clustering_groups plants max_zones min_plants_per_zone
              Hkm Hzones Hmin) as (clusters & centers & Hres & Hlen & Hcase).
  exists clusters, centers. split; [exact Hres|]. split; [exact Hlen|].
  destruct (fallback_taken plants max_zones min_plants_per_zone);
    [exact Hcase|].
  destruct Hcase as (labels & Hfit & Hcounts & Hsize).
  apply Forall_forall. intros cl Hin.
  destruct (In_nth _ _ [] Hin) as (c & Hc & <-).
  destruct (count_occ Nat.eq_dec labels c) as [|n] eqn:E.
  - left. apply length_zero_iff_nil. now rewrite Hsize.
  - right. rewrite Hsize, E, <- E.
    apply all_counts_at_least_In; [assumption|].
    apply (count_occ_In Nat.eq_dec). lia.
Qed.

(** C4.  With [max_zones >= 1] and [min_plants_per_zone >= 1], and a
    [KMeans] that meets [kmeans_contract], [kmeans_clustering] returns; it
    returns at most [max_zones] clusters; when the single-cluster fallback
    is taken it returns exactly one cluster, which holds all the input
    plants; otherwise every returned cluster holds at least
    [min_plants_per_zone] plants. *)
Theorem kmeans_clustering_zones (plants : list PlantData)
  (max_zones min_plants_per_zone : Z) :
  kmeans_contract ->
  (1 <= max_zones)%Z -> (1 <= min_plants_per_zone)%Z ->
  exists clusters centers,
    kmeans_clustering KMeans_fit_predict silhouette_score plants max_zones
      min_plants_per_zone = Some (clusters, centers) /\
    (Z.of_nat (List.length clusters) <= max_zones)%Z /\
    if fallback_taken plants max_zones min_plants_per_zone
    then clusters = [plants]
    else Forall (fun c => (min_plants_per_zone <= Z.of_nat (List.length c))%Z)
           clusters.
Proof.
  intros [Hkm Hfull] Hzones Hmin.
  destruct (kmeans_clustering_groups plants max_zones min_plants_per_zone
              Hkm Hzones Hmin) as (clusters & centers & Hres & Hlen & Hcase).
  exists clusters, centers. split; [exact Hres|]. split; [exact Hlen|].
  destruct (fallback_taken plants max_zones min_plants_per_zone);
    [exact Hcase|].
  destruct Hcase as (labels & Hfit & Hcounts & Hsize).
  apply Forall_forall. intros cl Hin.
  destruct (In_nth _ _ [] Hin) as (c & Hc & <-).
  rewrite Hsize.
  apply all_counts_at_least_In; [assumption|].
  eapply Hfull; eauto.
Qed.

End KMeansFacts.

(** A stand-in for [KMeans] that meets the contract: one cluster for
    everything, or the first sample against the rest; it raises for other
    cluster counts and on too few samples. *)
Definition head_and_rest (features : list (list Q)) (k : nat)
  : option (list nat * list (list Q)) :=
  match k, features with
  | 1%nat, _ :: _ =>
      Some (repeat 0%nat (List.length features), [[0; 0; 0; 0; 0]])
  | 2%nat, _ :: (_ :: _) as rest =>
      Some (0%nat :: repeat 1%nat (List.length rest),
            [[0; 0; 0; 0; 0]; [1; 1; 1; 1; 1]])
  | _, _ => None
  end.

Lemma head_and_rest_contract : kmeans_contract head_and_rest.
Proof.
  split; intros features k labels centers H; unfold head_and_rest in H;
    destruct k as [|[|[|k]]]; try discriminate.
  - destruct features as [|f fs]; [discriminate|].
    injection H as <- <-. cbn [List.length]. rewrite repeat_length.
    split; [reflexivity|]. split; [reflexivity|].
    intros c [<- | Hin]; [lia|]. apply repeat_spec in Hin. lia.
  - destruct features as [|f [|f' fs]]; try discriminate.
    injection H as <- <-. cbn [List.length]. rewrite repeat_length.
    split; [reflexivity|]. split; [reflexivity|].
    intros c [<- | [<- | Hin]]; [lia | lia |]. apply repeat_spec in Hin. lia.
  - destruct features as [|f fs]; [discriminate|].
    injection H as <- _. intros c Hc. left. lia.
  - destruct features as [|f [|f' fs]]; try discriminate.
    injection H as <- _. intros c Hc.
    destruct c as [|[|c]]; [now left | right; now left | lia].
Qed.

Definition three_plants : list PlantData :=
  [ {| plant_id := 1; x := 0.0; y := 0.0; water_needs := "low";
       area_m2 := 1.0; growth_stage := "vegetative"; crop_coefficient := 0.8 |};
    {| plant_id := 2; x := 5.0; y := 5.0; water_needs := "high";
       area_m2 := 1.0; growth_stage := "vegetative"; crop_coefficient := 0.8 |};
    {| plant_id := 3; x := 5.5; y := 5.0; water_needs := "high";
       area_m2 := 1.0; growth_stage := "vegetative"; crop_coefficient := 0.8 |} ].

(** C4 on three plants, at most two zones and at least one plant per zone,
    with a silhouette of 0.5 for the two-cluster candidate: no fallback, two
    clusters, none of them empty. *)
Lemma kmeans_clustering_three_plants :
  fallback_taken head_and_rest (fun _ _ => Some 0.5) three_plants 2 1 = false /\
  exists clusters centers,
    kmeans_clustering head_and_rest (fun _ _ => Some 0.5) three_plants 2 1
      = Some (clusters, centers) /\
    (Z.of_nat (List.length clusters) <= 2)%Z /\
    Forall (fun c => (1 <= Z.of_nat (List.length c))%Z) clusters.
Proof.
  assert (Hf : fallback_taken head_and_rest (fun _ _ => Some 0.5)
                 three_plants 2 1 = false) by (vm_compute; reflexivity).
  split; [exact Hf|].
  destruct (kmeans_clustering_zones head_and_rest (fun _ _ => Some 0.5)
              three_plants 2 1 head_and_rest_contract)
    as (clusters & centers & H & Hlen & Hall); [lia | lia |].
  rewrite Hf in Hall.
  exists clusters, centers. auto.
Defined.

End ClusteringFacts.

(* ================================================================== *)
(** * Further facts on the float operations *)
(* ================================================================== *)

Module PyFloatMoreFacts.

Lemma ext_ltb_false_le (a b : ExtQ) : ext_ltb a b = false -> ext_le b a.
Proof.
  destruct a, b; simpl; auto; try discriminate.
  intro H. now apply ltb_ge.
Qed.

Lemma ext_eqb_le (a b : ExtQ) : ext_eqb a b = true -> ext_le a b.
Proof.
  unfold ext_eqb. rewrite andb_true_iff, !negb_true_iff. intros [_ H].
  now apply ext_ltb_false_le.
Qed.

Lemma py_div_none (a b : Q) : py_div a b = None <-> b == 0.
Proof.
  unfold py_div. destruct (Qeq_bool b 0) eqn:E.
  - apply Qeq_bool_iff in E. tauto.
  - split; [discriminate|]. intro H. apply Qeq_bool_iff in H. congruence.
Qed.

Lemma py_div_some (a b q : Q) : py_div a b = Some q -> ~ b == 0 /\ q = a / b.
Proof.
  unfold py_div. destruct (Qeq_bool b 0) eqn:E; [discriminate|].
  intro H. injection H as <-. split; [|reflexivity].
  intro Hb. apply Qeq_bool_iff in Hb. congruence.
Qed.

End PyFloatMoreFacts.

(* ================================================================== *)
(** * Further properties of the agronomic engine *)
(* ================================================================== *)

Module AgronomicMoreFacts.
Import PyFloatMoreFacts Agronomic AgronomicFacts.

Lemma py_min_le_l (a b : Q) : py_min a b <= a.
Proof.
  unfold py_min. destruct (ltb b a) eqn:E.
  - apply Qlt_le_weak. now apply ltb_lt.
  - apply Qle_refl.
Qed.

Lemma py_min_le_r (a b : Q) : py_min a b <= b.
Proof.
  unfold py_min. destruct (ltb b a) eqn:E.
  - apply Qle_refl.
  - now apply ltb_ge.
Qed.

Lemma py_min_ge (a b c : Q) : c <= a -> c <= b -> c <= py_min a b.
Proof. intros Ha Hb. unfold py_min. destruct (ltb b a); assumption. Qed.

Lemma py_max_le (a b c : Q) : a <= c -> b <= c -> py_max a b <= c.
Proof. intros Ha Hb. unfold py_max. destruct (ltb a b); assumption. Qed.

(** The clamp [max(lo, min(hi, v))] stays between its bounds. *)
Lemma clamp_bounds (lo hi v : Q) :
  lo <= hi -> lo <= py_max lo (py_min hi v) <= hi.
Proof.
  intro H. split.
  - apply py_max_ge_l.
  - apply py_max_le; [assumption | apply py_min_le_l].
Qed.

(** The soil-moisture stress factor is saturated from 0.45 upwards and
    below 0.15. *)
Lemma stress_factor_high (soil_moisture : Q) :
  0.45 <= soil_moisture ->
  py_max 0.5 (py_min 1.5 (soil_moisture / 0.3)) = 1.5.
Proof.
  intro H.
  assert (Hq : 1.5 <= soil_moisture / 0.3).
  { apply Qle_shift_div_l; [reflexivity | lra]. }
  unfold py_min. apply ltb_ge in Hq. rewrite Hq. reflexivity.
Qed.

Lemma stress_factor_low (soil_moisture : Q) :
  soil_moisture <= 0.15 ->
  py_max 0.5 (py_min 1.5 (soil_moisture / 0.3)) = 0.5.
Proof.
  intro H.
  assert (Hq : soil_moisture / 0.3 <= 0.5).
  { apply Qle_shift_div_r; [reflexivity | lra]. }
  unfold py_max.
  assert (Hm : py_min 1.5 (soil_moisture / 0.3) <= 0.5).
  { apply Qle_trans with (soil_moisture / 0.3); [apply py_min_le_r | exact Hq]. }
  apply ltb_ge in Hm. rewrite Hm. reflexivity.
Qed.

(** X1.  [calculate_water_needs] never returns less than 0.1 litres a day,
    and the soil moisture makes no difference once it is at least 0.45, nor
    once it is at most 0.15: the stress factor is clamped to [0.5, 1.5]. *)
Theorem water_needs_floor_and_saturation (p : PlantTraits)
  (et0_entry : option Q) (stage : GrowthStage) :
  (forall m, 0.1 <= calculate_water_needs p et0_entry m stage) /\
  (forall m m', 0.45 <= m -> 0.45 <= m' ->
     calculate_water_needs p et0_entry m stage
     = calculate_water_needs p et0_entry m' stage) /\
  (forall m m', m <= 0.15 -> m' <= 0.15 ->
     calculate_water_needs p et0_entry m stage
     = calculate_water_needs p et0_entry m' stage).
Proof.
  unfold calculate_water_needs. cbv zeta. split; [|split].
  - intro m. apply py_max_ge_l.
  - intros m m' H H'.
    now rewrite (stress_factor_high m H), (stress_factor_high m' H').
  - intros m m' H H'.
    now rewrite (stress_factor_low m H), (stress_factor_low m' H').
Qed.

Lemma first_zone_of_in_any_zone (p : PlantPlacement) (zones : list ZoneSite) :
  in_any_zone p (map zone zones)
  = match first_zone_of p zones with
    | None => None
    | Some None => Some false
    | Some (Some _) => Some true
    end.
Proof.
  induction zones as [|z zs IH]; simpl; [reflexivity|].
  destruct (_is_in_zone p (zone z)) as [[|]|]; auto.
Qed.

(** X2.  On zones of non-negative area [calculate_solar_exposure] returns a
    score between 0 and 1, and the score is 0.5 for a placement that lies
    in no zone, which is a placement that [detect_conflicts] reports as a
    zone violation. *)
Theorem solar_exposure_range (p : PlantPlacement) (zones : list ZoneSite)
  (seasonal_entry : option Q) :
  (forall z, In z zones -> 0 <= area (zone z)) ->
  exists e,
    calculate_solar_exposure p zones seasonal_entry = Some e /\
    0 <= e <= 1 /\
    (in_any_zone p (map zone zones) = Some false -> e = 0.5).
Proof.
  intro Hz.
  destruct (in_any_zone_total p (map zone zones)) as [b Hb].
  { intros z Hin. apply in_map_iff in Hin. destruct Hin as (z' & <- & Hin).
    now apply Hz. }
  rewrite first_zone_of_in_any_zone in Hb.
  unfold calculate_solar_exposure.
  rewrite first_zone_of_in_any_zone.
  destruct (first_zone_of p zones) as [[z|]|]; [| |discriminate].
  - eexists. split; [reflexivity|]. split; [|discriminate].
    split.
    + apply py_min_ge; [lra|].
      apply Qle_trans with 0.0; [lra | apply py_max_ge_l].
    + apply Qle_trans with 1.0; [apply py_min_le_l | lra].
  - exists 0.5. split; [reflexivity|]. split; [lra | reflexivity].
Qed.

Definition full_sun_site : ZoneSite :=
  {| zone := main_garden; zone_sun_exposure := FULL_SUN; slope := 5.0 |}.

(** X2 on the repository's test zone: a placement at (10, 10) is outside
    the 100 m^2 circle around the origin and scores 0.5. *)
Lemma solar_exposure_outside_zone :
  exists e,
    calculate_solar_exposure
      {| plant_id := "tomato_1"; plant_specs := tomato; x := 10.0; y := 10.0 |}
      [full_sun_site] None = Some e /\ e = 0.5.
Proof.
  destruct (solar_exposure_range
              {| plant_id := "tomato_1"; plant_specs := tomato;
                 x := 10.0; y := 10.0 |} [full_sun_site] None)
    as (e & He & _ & Hout).
  - intros z [<- | []]. vm_compute. discriminate.
  - exists e. split; [exact He|]. apply Hout. vm_compute. reflexivity.
Defined.

(** *** Growth prediction *)

Lemma inject_Z_nonneg (z : Z) : (0 <= z)%Z -> 0 <= inject_Z z.
Proof. intro H. unfold Qle. simpl. lia. Qed.

Lemma inject_Z_pos (z : Z) : (0 < z)%Z -> 0 < inject_Z z.
Proof. intro H. unfold Qlt. simpl. lia. Qed.

Lemma py_int_growth (d : Z) (modifier : Q) :
  (1 <= d)%Z -> 0.5 <= modifier <= 1 ->
  (d <= py_int (inject_Z d / modifier))%Z.
Proof.
  intros Hd [Hlo Hhi].
  assert (Hq : inject_Z d <= inject_Z d / modifier).
  { apply Qle_shift_div_l; [lra|].
    assert (0 <= inject_Z d) by (apply inject_Z_nonneg; lia). nra. }
  unfold py_int.
  assert (Hpos : 0 <= inject_Z d / modifier).
  { apply Qle_trans with (inject_Z d); [apply inject_Z_nonneg; lia | exact Hq]. }
  apply Qle_bool_iff in Hpos. rewrite Hpos.
  rewrite <- (Qfloor_Z d) at 1. now apply Qfloor_resp_le.
Qed.

(** X3.  For a plant of at least one growth day and stresses between 0 and
    1, [calculate_growth_prediction] returns: the growth modifier is between
    0.5 and 1, stress never shortens the growth (the adjusted days are at
    least the plant's growth days), the progress is at most 1, the days to
    harvest are not negative, and a plant whose elapsed days have reached
    the adjusted days shows progress 1 and 0 days to harvest. *)
Theorem growth_prediction_bounds (p : PlantTraits) (pl : PlacementState)
  (temperature_entry humidity_entry : option Q) :
  (1 <= growth_days p)%Z ->
  0 <= water_stress pl <= 1 -> 0 <= nutrient_stress pl <= 1 ->
  0 <= dict_get temperature_entry 0.0 <= 1 ->
  0 <= dict_get humidity_entry 0.0 <= 1 ->
  exists r,
    calculate_growth_prediction p pl temperature_entry humidity_entry = Some r /\
    0.5 <= growth_modifier r <= 1 /\
    (growth_days p <= adjusted_growth_days r)%Z /\
    current_progress r <= 1 /\
    (0 <= days_to_harvest r)%Z /\
    ((adjusted_growth_days r <= days_elapsed pl)%Z ->
     current_progress r == 1 /\ days_to_harvest r = 0%Z).
Proof.
  intros Hd Hw Hn Ht Hh. unfold calculate_growth_prediction. cbv zeta.
  set (total := (water_stress pl + nutrient_stress pl
                 + dict_get temperature_entry 0.0
                 + dict_get humidity_entry 0.0) / 4).
  assert (Htot : 0 <= total <= 1).
  { unfold total. split.
    - apply Qle_shift_div_l; [reflexivity | lra].
    - apply Qle_shift_div_r; [reflexivity | lra]. }
  set (modifier := py_max 0.5 (py_min 1.5 (1.0 - total * 0.5))).
  assert (Hmod : 0.5 <= modifier <= 1).
  { unfold modifier. split; [apply py_max_ge_l|].
    apply py_max_le; [lra|].
    apply Qle_trans with (1.0 - total * 0.5); [apply py_min_le_r | lra]. }
  pose proof (py_int_growth (growth_days p) modifier Hd Hmod) as Hadj.
  set (adjusted := py_int (inject_Z (growth_days p) / modifier)) in *.
  unfold py_div.
  destruct (Qeq_bool (inject_Z adjusted) 0) eqn:E.
  { apply Qeq_bool_iff in E. unfold Qeq in E. simpl in E. lia. }
  eexists. split; [reflexivity|]. simpl.
  split; [exact Hmod|]. split; [exact Hadj|].
  split; [apply Qle_trans with 1.0; [apply py_min_le_l | lra]|].
  split; [lia|].
  intro Hpast. split; [|lia].
  assert (Hq : 1.0 <= inject_Z (days_elapsed pl) / inject_Z adjusted).
  { apply Qle_shift_div_l.
    - apply inject_Z_pos. lia.
    - rewrite Zle_Qle in Hpast. lra. }
  unfold py_min. apply ltb_ge in Hq. rewrite Hq. reflexivity.
Qed.

(** The plant and the placement of the repository's growth test, 40 days
    after planting. *)
Definition tomato_traits : PlantTraits :=
  {| specs := tomato; growth_days := 80; width_max := 60.0;
     yield_per_plant := 2.5 |}.

Definition stressed_tomato : PlacementState :=
  {| placement := {| plant_id := "tomato_1"; plant_specs := tomato;
                     x := 10.0; y := 10.0 |};
     days_elapsed := 40; current_stage := SEEDLING; health_score := 0.8;
     water_stress := 0.2; nutrient_stress := 0.1 |}.

(** X3 on that plant with a temperature stress of 0.1: the modifier is
    0.95 and the 80 growth days become 84. *)
Lemma growth_prediction_example :
  exists r,
    calculate_growth_prediction tomato_traits stressed_tomato (Some 0.1) None
      = Some r /\
    growth_modifier r == 0.95 /\ adjusted_growth_days r = 84%Z /\
    (80 <= adjusted_growth_days r)%Z.
Proof.
  destruct (growth_prediction_bounds tomato_traits stressed_tomato
              (Some 0.1) None) as (r & Hr & _ & Hadj & _);
    try (vm_compute; split; discriminate).
  - vm_compute. discriminate.
  - exists r. split; [exact Hr|].
    vm_compute in Hr. injection Hr as <-.
    split; [reflexivity|]. split; [reflexivity | exact Hadj].
Defined.

(** X4.  A plant of zero growth days makes [calculate_growth_prediction]
    raise the [ZeroDivisionError] of the progress ratio, whatever the
    placement and the stresses. *)
Theorem growth_prediction_zero_days (p : PlantTraits) (pl : PlacementState)
  (temperature_entry humidity_entry : option Q) :
  growth_days p = 0%Z ->
  calculate_growth_prediction p pl temperature_entry humidity_entry = None.
Proof.
  intro H. unfold calculate_growth_prediction. cbv zeta. rewrite H.
  set (modifier := py_max 0.5 _).
  assert (Hz : inject_Z 0 / modifier == 0) by (unfold Qdiv; ring).
  assert (Hi : py_int (inject_Z 0 / modifier) = 0%Z).
  { unfold py_int.
    assert (Hle : 0 <= inject_Z 0 / modifier) by (rewrite Hz; lra).
    apply Qle_bool_iff in Hle. rewrite Hle.
    rewrite (Qfloor_comp _ _ Hz). reflexivity. }
  rewrite Hi. reflexivity.
Qed.

Lemma growth_prediction_zero_days_example :
  calculate_growth_prediction
    {| specs := tomato; growth_days := 0; width_max := 60.0;
       yield_per_plant := 2.5 |} stressed_tomato None None = None.
Proof. apply growth_prediction_zero_days. reflexivity. Defined.

(** *** Conflicts of a single placement *)

Lemma zone_check_In (ps : list PlantPlacement) (zones : list GardenZone) :
  forall vs, zone_check ps zones = Some vs ->
  forall v, In v vs <->
    exists p, In p ps /\ in_any_zone p zones = Some false /\
      v = {| zv_plant_id := plant_id p; position := (x p, y p);
             zv_severity := SeverityHigh |}.
Proof.
  induction ps as [|p ps IH]; simpl; intros vs H v.
  - injection H as <-. split; [contradiction|]. intros (q & [] & _).
  - destruct (in_any_zone p zones) as [b|] eqn:Eb; [|discriminate].
    destruct (zone_check ps zones) as [vs'|]; [|discriminate].
    injection H as <-. specialize (IH vs' eq_refl v).
    destruct b; simpl; rewrite ?IH; split.
    + intros (q & Hq & Hout & Hv). exists q. auto.
    + intros (q & [<- | Hq] & Hout & Hv); [congruence|]. exists q. auto.
    + intros [<- | (q & Hq & Hout & Hv)]; [exists p; auto|]. exists q. auto.
    + intros (q & [<- | Hq] & Hout & Hv); [now left|]. right. exists q. auto.
Qed.

(** X7.  [detect_conflicts] returns for a list of at most one placement
    (for two or more it raises in the spacing loop).  On zones of
    non-negative area it then reports no spacing violation, no
    compatibility violation and no resource conflict, and its zone
    violations are exactly the record of the placement when it lies in no
    zone. *)
Theorem single_placement_conflicts (ps : list PlantPlacement)
  (zones : list GardenZone) :
  (forall z, In z zones -> 0 <= area z) ->
  (List.length ps <= 1)%nat ->
  exists c, detect_conflicts ps zones = inr c /\
    spacing_violations c = [] /\
    compatibility_violations c = [] /\
    resource_conflicts c = [] /\
    (forall v, In v (zone_violations c) <->
       exists p, In p ps /\ in_any_zone p zones = Some false /\
         v = {| zv_plant_id := plant_id p; position := (x p, y p);
                zv_severity := SeverityHigh |}).
Proof.
  intros Hz Hlen.
  destruct (zone_check_total ps zones Hz) as [vs Hvs].
  assert (Hc : detect_conflicts ps zones
               = inr {| spacing_violations := [];
                        compatibility_violations := [];
                        zone_violations := vs;
                        resource_conflicts := [] |}).
  { unfold detect_conflicts. rewrite spacing_loop_outcome, Hvs.
    destruct ps as [|p [|q rest]]; simpl in Hlen; try lia; reflexivity. }
  eexists. split; [exact Hc|]. cbn [spacing_violations
    compatibility_violations resource_conflicts zone_violations].
  repeat split; try reflexivity; now apply (zone_check_In ps zones vs Hvs).
Qed.

(** X7 on one potato 9 m from the centre of the 100 m^2 zone, whose radius
    is 5.64 m. *)
Lemma single_placement_conflicts_example :
  exists c,
    detect_conflicts (tl (pair_at 9.0)) [main_garden] = inr c /\
    In {| zv_plant_id := "potato_1"; position := (9.0, 0.0);
          zv_severity := SeverityHigh |} (zone_violations c).
Proof.
  destruct (single_placement_conflicts (tl (pair_at 9.0)) [main_garden]
              main_garden_area) as (c & Hc & _ & _ & _ & Hiff).
  - simpl. lia.
  - exists c. split; [exact Hc|]. apply Hiff.
    eexists. split; [left; reflexivity|].
    split; [vm_compute; reflexivity | reflexivity].
Defined.

(** *** Fitness *)

(** X8.  What [_calculate_fitness] gives, candidate by candidate: minus
    infinity for the empty candidate; the [TypeError] of the spacing loop
    for every candidate of two placements or more; and for a candidate of
    one placement 10 when the placement lies in a zone, -90 when it lies in
    none (the [ValueError] of the zone test when that raises). *)
Theorem fitness_as_called (st : Store) (ind : Individual)
  (zones : list GardenZone) :
  (ind = [] -> _calculate_fitness st ind zones = inr NegInf) /\
  ((2 <= List.length ind)%nat ->
   _calculate_fitness st ind zones = inl TypeError) /\
  (forall r, ind = [r] ->
     match in_any_zone (st r) zones with
     | Some true =>
         exists q, _calculate_fitness st ind zones = inr (Fin q) /\ q == 10
     | Some false =>
         exists q, _calculate_fitness st ind zones = inr (Fin q) /\ q == -90
     | None => _calculate_fitness st ind zones = inl ValueError
     end).
Proof.
  split; [|split].
  - intros ->. reflexivity.
  - apply calculate_fitness_on_pairs.
  - intros r ->. unfold _calculate_fitness, placements_of.
    cbn [map pair_penalty_raising add_later pair_penalty fold_left
         zone_penalty List.length].
    destruct (in_any_zone (st r) zones) as [[|]|].
    + eexists. split; [reflexivity|]. vm_compute. reflexivity.
    + eexists. split; [reflexivity|]. vm_compute. reflexivity.
    + reflexivity.
Qed.

(** X8 on the small store: a tomato inside the zone scores 10; paired with
    a potato it has no score. *)
Lemma fitness_as_called_example :
  (exists q, _calculate_fitness small_store [0]%nat [main_garden]
             = inr (Fin q) /\ q == 10) /\
  _calculate_fitness small_store [0; 1]%nat [main_garden] = inl TypeError.
Proof.
  split.
  - pose proof (proj2 (proj2 (fitness_as_called small_store [0]%nat
                                [main_garden])) 0%nat eq_refl) as H.
    exact H.
  - apply (fitness_as_called small_store [0; 1]%nat [main_garden]).
    simpl. lia.
Defined.

(** *** Selection and crossover *)

Lemma max_from_ge (l : list ExtQ) :
  forall m, ext_le m (max_from m l) /\
            forall a, In a l -> ext_le a (max_from m l).
Proof.
  induction l as [|b l IH]; simpl; intro m.
  - split; [apply ext_le_refl | contradiction].
  - destruct (ext_ltb m b) eqn:E.
    + destruct (IH b) as [Hb Hl]. split.
      * apply ext_le_trans with b; [now apply ext_ltb_le | exact Hb].
      * intros a [<- | Hin]; auto.
    + destruct (IH m) as [Hm Hl]. split; [exact Hm|].
      intros a [<- | Hin]; auto.
      apply ext_le_trans with m; [now apply ext_ltb_false_le | exact Hm].
Qed.

Lemma index_of_nth (m : ExtQ) (l : list ExtQ) :
  forall k, index_of m l = Some k ->
  exists a, nth_error l k = Some a /\ ext_le m a.
Proof.
  induction l as [|b l IH]; simpl; intros k H; [discriminate|].
  destruct (ext_eqb b m) eqn:E.
  - injection H as <-. exists b. split; [reflexivity|].
    unfold ext_eqb in E. apply andb_prop in E. destruct E as [E _].
    apply negb_true_iff in E. now apply ext_ltb_false_le.
  - destruct (index_of m l) as [k'|]; [|discriminate].
    injection H as <-. apply (IH k' eq_refl).
Qed.

Lemma lookup_all_nth {A : Type} (l : list A) (idx : list nat) :
  forall vs, lookup_all l idx = Some vs ->
  forall k i, nth_error idx k = Some i ->
  exists a, nth_error l i = Some a /\ nth_error vs k = Some a.
Proof.
  induction idx as [|j idx IH]; simpl; intros vs H k i Hk.
  - destruct k; discriminate.
  - destruct (nth_error l j) as [a|] eqn:Ea; [|discriminate].
    destruct (lookup_all l idx) as [t|]; [|discriminate].
    injection H as <-. destruct k as [|k]; simpl in *.
    + injection Hk as <-. eauto.
    + apply (IH t eq_refl k i Hk).
Qed.

(** X10.  When [_tournament_selection] returns, the population has at
    least three candidates, the winner is the candidate at one of the
    sampled positions, and its fitness score is at least the score of every
    sampled position. *)
Theorem tournament_winner_is_best (pop : list Individual)
  (scores : list ExtQ) (sample : list nat) (w : Individual) :
  _tournament_selection pop scores sample = Some w ->
  (3 <= List.length pop)%nat /\
  exists wi fw,
    In wi sample /\ nth_error pop wi = Some w /\
    nth_error scores wi = Some fw /\
    forall i f, In i sample -> nth_error scores i = Some f -> ext_le f fw.
Proof.
  unfold _tournament_selection, tournament_size.
  destruct (List.length pop <? 3)%nat eqn:En; [discriminate|].
  apply Nat.ltb_ge in En.
  destruct (lookup_all scores sample) as [[|f fs]|] eqn:El; try discriminate.
  destruct (index_of (max_from f fs) (f :: fs)) as [k|] eqn:Ek; [|discriminate].
  destruct (nth_error sample k) as [wi|] eqn:Ew; [|discriminate].
  intro Hw. split; [exact En|].
  destruct (index_of_nth _ _ _ Ek) as (a & Ha & Hmax).
  destruct (lookup_all_nth _ _ _ El k wi Ew) as (a' & Hs & Ha').
  assert (a' = a) by congruence. subst a'.
  exists wi, a. split; [eapply nth_error_In; eauto|].
  split; [exact Hw|]. split; [exact Hs|].
  intros i fi Hin Hfi.
  apply In_nth_error in Hin. destruct Hin as [k' Hk'].
  destruct (lookup_all_nth _ _ _ El k' i Hk') as (b & Hb & Hvs).
  assert (b = fi) by congruence. subst b.
  apply ext_le_trans with (max_from f fs); [|exact Hmax].
  destruct (max_from_ge fs f) as [Hf Hfs].
  apply nth_error_In in Hvs. destruct Hvs as [<- | Hin]; auto.
Qed.

Lemma tournament_example :
  _tournament_selection [[0; 1]; [2; 3]; [4; 5]; [6; 7]]%nat
    [Fin (-32.8806); Fin 20; Fin 20; Fin 20] [0; 2; 1]%nat
  = Some [4; 5]%nat /\
  (3 <= 4)%nat.
Proof.
  split; [reflexivity|].
  exact (proj1 (tournament_winner_is_best
                  [[0; 1]; [2; 3]; [4; 5]; [6; 7]]%nat
                  [Fin (-32.8806); Fin 20; Fin 20; Fin 20] [0; 2; 1]%nat
                  [4; 5]%nat eq_refl)).
Defined.

Lemma nth_error_splice {A : Type} (k : nat) (a b : list A) (i : nat) :
  (k <= List.length a)%nat ->
  nth_error (firstn k a ++ skipn k b) i
  = if (i <? k)%nat then nth_error a i else nth_error b i.
Proof.
  intro Hk. rewrite nth_error_app, length_firstn, Nat.min_l by assumption.
  destruct (i <? k)%nat eqn:E.
  - rewrite nth_error_firstn, E. reflexivity.
  - apply Nat.ltb_ge in E. rewrite nth_error_skipn. f_equal. lia.
Qed.

(** X11.  When [_crossover] returns, each child is as long as the parent
    in the same place, and at every position the two children hold the two
    parents' references of that position, either as they were or swapped:
    no reference is lost, invented or moved to another position. *)
Theorem crossover_keeps_positions (parent1 parent2 : Individual) (point : nat)
  (child1 child2 : Individual) :
  _crossover parent1 parent2 point = Some (child1, child2) ->
  List.length child1 = List.length parent1 /\
  List.length child2 = List.length parent2 /\
  forall i,
    (nth_error child1 i = nth_error parent1 i /\
     nth_error child2 i = nth_error parent2 i)
    \/ (nth_error child1 i = nth_error parent2 i /\
        nth_error child2 i = nth_error parent1 i).
Proof.
  unfold _crossover, list_copy.
  destruct (negb (List.length parent1 =? List.length parent2)%nat) eqn:El.
  - intro H. injection H as <- <-. auto.
  - apply negb_false_iff, Nat.eqb_eq in El.
    destruct (List.length parent1 <? 2)%nat; [discriminate|].
    destruct ((1 <=? point) && (point <=? List.length parent1 - 1))%nat eqn:Ep;
      [|discriminate].
    apply andb_prop in Ep. destruct Ep as [H1 H2].
    apply Nat.leb_le in H1, H2.
    intro H. injection H as <- <-.
    rewrite !length_app, !length_firstn, !length_skipn.
    split; [lia|]. split; [lia|].
    intro i. rewrite !nth_error_splice by lia.
    destruct (i <? point)%nat; auto.
Qed.

Lemma crossover_example :
  exists child1 child2,
    _crossover [0; 1; 2]%nat [3; 4; 5]%nat 1 = Some (child1, child2) /\
    List.length child1 = 3%nat /\ List.length child2 = 3%nat.
Proof.
  destruct (_crossover [0; 1; 2]%nat [3; 4; 5]%nat 1)
    as [[child1 child2]|] eqn:E; [|vm_compute in E; discriminate].
  exists child1, child2. split; [reflexivity|].
  destruct (crossover_keeps_positions _ _ _ _ _ E) as (H1 & H2 & _).
  auto.
Defined.

(** *** Mutation *)

Lemma mutate_loop_identity (draws : nat -> Jitter) (l : list Ref) (r : Ref) :
  forall st i,
    plant_id (mutate_loop st i l draws r) = plant_id (st r) /\
    plant_specs (mutate_loop st i l draws r) = plant_specs (st r).
Proof.
  induction l as [|a l IH]; simpl; intros st i; [auto|].
  destruct (IH (if ltb (coin (draws i)) 0.1
                then store_set st a (move (st a) (dx (draws i)) (dy (draws i)))
                else st) (S i)) as [-> ->].
  destruct (ltb (coin (draws i)) 0.1); [|auto].
  unfold store_set. destruct (Nat.eqb r a) eqn:E; [|auto].
  apply Nat.eqb_eq in E. subst. auto.
Qed.

Lemma mutate_loop_bounded (draws : nat -> Jitter) (l : list Ref) (r : Ref) :
  (forall i, -0.5 <= dx (draws i) <= 0.5 /\ -0.5 <= dy (draws i) <= 0.5) ->
  NoDup l ->
  forall st i,
    x (st r) - 0.5 <= x (mutate_loop st i l draws r) <= x (st r) + 0.5 /\
    y (st r) - 0.5 <= y (mutate_loop st i l draws r) <= y (st r) + 0.5.
Proof.
  intros Hd. induction l as [|a l IH]; intros Hnd st i.
  - simpl. lra.
  - inversion Hnd as [|a' l' Ha Hl]. subst. cbn [mutate_loop]. cbv zeta.
    destruct (Nat.eq_dec r a) as [->|Hne].
    + rewrite mutate_loop_frame by assumption.
      destruct (ltb (coin (draws i)) 0.1); [|lra].
      unfold store_set. rewrite Nat.eqb_refl. simpl.
      destruct (Hd i) as [Hx Hy]. lra.
    + set (st1 := if ltb (coin (draws i)) 0.1
                  then store_set st a
                         (move (st a) (dx (draws i)) (dy (draws i)))
                  else st).
      assert (Hsame : st1 r = st r).
      { unfold st1. destruct (ltb (coin (draws i)) 0.1); [|reflexivity].
        unfold store_set. apply Nat.eqb_neq in Hne. now rewrite Hne. }
      destruct (IH Hl st1 (S i)) as [Hx Hy].
      rewrite Hsame in Hx, Hy. split; assumption.
Qed.

(** X12.  [_mutate] never changes the id or the plant of a placement and
    never touches a placement that the candidate does not reference; when
    the candidate references no placement twice and the jitters are drawn
    from [-0.5, 0.5], no coordinate moves by more than 0.5. *)
Theorem mutate_is_a_bounded_jitter (st : Store) (ind : Individual)
  (draws : nat -> Jitter) (r : Ref) :
  (forall i, -0.5 <= dx (draws i) <= 0.5 /\ -0.5 <= dy (draws i) <= 0.5) ->
  NoDup ind ->
  plant_id (fst (_mutate st ind draws) r) = plant_id (st r) /\
  plant_specs (fst (_mutate st ind draws) r) = plant_specs (st r) /\
  (~ In r ind -> fst (_mutate st ind draws) r = st r) /\
  x (st r) - 0.5 <= x (fst (_mutate st ind draws) r) <= x (st r) + 0.5 /\
  y (st r) - 0.5 <= y (fst (_mutate st ind draws) r) <= y (st r) + 0.5.
Proof.
  intros Hd Hnd. unfold _mutate, list_copy. cbn [fst].
  destruct (mutate_loop_identity draws ind r st 0) as [Hid Hsp].
  split; [exact Hid|]. split; [exact Hsp|].
  split; [apply mutate_loop_frame|].
  now apply mutate_loop_bounded.
Qed.

(** X12 on the small store; and a candidate that references one placement
    twice moves it twice, here by 0.5 in all. *)
Lemma mutate_jitter_example :
  (x (small_store 2%nat) - 0.5
   <= x (fst (_mutate small_store [2; 3]%nat
                (fun _ => {| coin := 0.05; dx := 0.25; dy := -0.25 |})) 2%nat)
   <= x (small_store 2%nat) + 0.5) /\
  x (fst (_mutate small_store [2; 2]%nat
            (fun _ => {| coin := 0.05; dx := 0.25; dy := -0.25 |})) 2%nat)
  == x (small_store 2%nat) + 0.5.
Proof.
  split; [|vm_compute; reflexivity].
  refine (proj1 (proj2 (proj2 (proj2
            (mutate_is_a_bounded_jitter small_store [2; 3]%nat
               (fun _ => {| coin := 0.05; dx := 0.25; dy := -0.25 |}) 2%nat
               _ _))))).
  - intros _. vm_compute. repeat split; discriminate.
  - repeat constructor; simpl; intuition discriminate.
Defined.

(** *** One generation *)

(** The references of a candidate all occur in some candidate of [pop]. *)
Definition drawn_from (pop : list Individual) (ind : Individual) : Prop :=
  forall r, In r ind -> exists parent, In parent pop /\ In r parent.

Lemma tournament_member (pop : list Individual) (scores : list ExtQ)
  (sample : list nat) (w : Individual) :
  _tournament_selection pop scores sample = Some w -> In w pop.
Proof.
  unfold _tournament_selection.
  destruct (_ <? _)%nat; [discriminate|].
  destruct (lookup_all scores sample) as [[|f fs]|]; try discriminate.
  destruct (index_of _ _) as [k|]; [|discriminate].
  destruct (nth_error sample k) as [wi|]; [|discriminate].
  apply nth_error_In.
Qed.

Lemma splice_drawn_from (pop : list Individual) (a b : Individual) (k : nat) :
  In a pop -> In b pop -> drawn_from pop (firstn k a ++ skipn k b).
Proof.
  intros Ha Hb r Hr. apply in_app_or in Hr. destruct Hr as [Hr | Hr].
  - exists a. split; [assumption|]. rewrite <- (firstn_skipn k a).
    apply in_or_app. now left.
  - exists b. split; [assumption|]. rewrite <- (firstn_skipn k b).
    apply in_or_app. now right.
Qed.

Lemma breed_children (cfg : PlacementOptimizer) (st st' : Store)
  (pop : list Individual) (scores : list ExtQ) (d : PairDraws)
  (children : list Individual) :
  breed cfg st pop scores d = Some (st', children) ->
  List.length children = 2%nat /\ Forall (drawn_from pop) children.
Proof.
  unfold breed.
  destruct (_tournament_selection pop scores (sample1 d)) as [p1|] eqn:E1;
    [|discriminate].
  destruct (_tournament_selection pop scores (sample2 d)) as [p2|] eqn:E2;
    [|discriminate].
  apply tournament_member in E1, E2.
  assert (Hc : forall c1 c2,
             (if ltb (crossover_coin d) (crossover_rate cfg)
              then _crossover p1 p2 (crossover_point d)
              else Some (list_copy p1, list_copy p2)) = Some (c1, c2) ->
             drawn_from pop c1 /\ drawn_from pop c2).
  { intros c1 c2. unfold _crossover, list_copy.
    destruct (ltb (crossover_coin d) (crossover_rate cfg)).
    - destruct (negb _).
      + intro H. injection H as <- <-. split; intros r Hr; eauto.
      + destruct (_ <? 2)%nat; [discriminate|].
        destruct (_ && _); [|discriminate].
        intro H. injection H as <- <-.
        split; apply splice_drawn_from; assumption.
    - intro H. injection H as <- <-. split; intros r Hr; eauto. }
  destruct (if ltb (crossover_coin d) (crossover_rate cfg)
            then _crossover p1 p2 (crossover_point d)
            else Some (list_copy p1, list_copy p2)) as [[c1 c2]|];
    [|discriminate].
  destruct (Hc c1 c2 eq_refl) as [H1 H2].
  unfold _mutate, list_copy.
  destruct (ltb (mutation_coin1 d) (mutation_rate cfg));
    destruct (ltb (mutation_coin2 d) (mutation_rate cfg));
    intro H; injection H as _ <-; split; auto.
Qed.

Lemma breed_loop_children (cfg : PlacementOptimizer) (pop : list Individual)
  (scores : list ExtQ) (draws : nat -> PairDraws) (rounds : nat) :
  forall k st new_population st' result,
    breed_loop cfg rounds k st pop scores draws new_population
      = Some (st', result) ->
    Forall (drawn_from pop) new_population ->
    List.length result = (List.length new_population + 2 * rounds)%nat /\
    Forall (drawn_from pop) result.
Proof.
  induction rounds as [|rounds IH]; simpl; intros k st np st' result H Hnp.
  - injection H as _ <-. split; [lia | assumption].
  - destruct (breed cfg st pop scores (draws k)) as [[st1 children]|] eqn:E;
      [|discriminate].
    apply breed_children in E. destruct E as [Hlen Hch].
    apply IH in H.
    + destruct H as [Hl Hf]. rewrite length_app in Hl. split; [lia | exact Hf].
    + apply Forall_app. auto.
Qed.

(** X13.  A generation completes only on a population whose candidates
    have at most one placement each (the evaluation of a larger candidate
    raises).  After a completed generation the population has
    [2 * (population_size / 2)] candidates, which is one fewer than
    [population_size] when that is odd, and every new candidate is made of
    references of the previous population: the optimizer creates no
    placement after the initial population. *)
Theorem generation_population (cfg : PlacementOptimizer)
  (zones : list GardenZone) (s s' : GAState) (draws : nat -> PairDraws) :
  generation_step cfg zones s draws = Some s' ->
  Forall (fun ind => (List.length ind <= 1)%nat) (population s) /\
  List.length (population s') = (2 * (population_size cfg / 2))%nat /\
  Forall (drawn_from (population s)) (population s').
Proof.
  intro Hstep.
  split; [exact (generation_step_small_candidates _ _ _ _ _ Hstep)|].
  revert Hstep. unfold generation_step.
  destruct (evaluate _ _ _ _ _ _) as [[[scores bf] bs]|]; [|discriminate].
  destruct (breed_loop cfg (population_size cfg / 2) 0 (store s)
              (population s) scores draws []) as [[st' np]|] eqn:E;
    [|discriminate].
  intro H. injection H as <-. cbn [population].
  apply breed_loop_children in E; [|constructor].
  destruct E as [Hlen Hf]. cbn [List.length Nat.add] in Hlen.
  pose proof (Nat.Div0.mul_div_le (population_size cfg) 2) as Hle.
  rewrite firstn_all2 by (rewrite Hlen; exact Hle). auto.
Qed.

(** X13 on the first generation of the run for one plant: four candidates
    of one placement each give four candidates again. *)
Lemma generation_population_example :
  exists s', generation_step small_optimizer [main_garden] single_state
               (single_draws 0) = Some s' /\
             List.length (population s') = 4%nat.
Proof.
  destruct (generation_step small_optimizer [main_garden] single_state
              (single_draws 0)) as [s'|] eqn:E.
  - exists s'. split; [reflexivity|].
    exact (proj1 (proj2 (generation_population _ _ _ _ _ E))).
  - vm_compute in E. discriminate.
Defined.

Lemma evaluate_dominates (st : Store) (zones : list GardenZone)
  (pop : list Individual) :
  forall scores bf bs scores' bf' bs',
    evaluate st zones pop scores bf bs = Some (scores', bf', bs') ->
    (forall ind, In ind pop ->
       exists f, _calculate_fitness st ind zones = inr f /\ ext_le f bf') /\
    ((bf' = bf /\ bs' = bs)
     \/ exists ind, In ind pop /\ bs' = Some ind /\
          _calculate_fitness st ind zones = inr bf').
Proof.
  induction pop as [|ind pop IH]; simpl; intros scores bf bs scores' bf' bs' H.
  - injection H as _ <- <-. split; [contradiction | now left].
  - destruct (_calculate_fitness st ind zones) as [e|f] eqn:Ef; [discriminate|].
    destruct (ext_ltb bf f) eqn:E;
      pose proof (evaluate_best_fitness _ _ _ _ _ _ _ _ _ H) as Hmono.
    + destruct (IH _ _ _ _ _ _ H) as [Hall Hbest]. split.
      * intros i [<- | Hin]; [eauto | auto].
      * right. destruct Hbest as [[-> ->] | (i & Hi & Hbs & Hf)].
        -- exists ind. unfold list_copy. auto.
        -- exists i. auto.
    + destruct (IH _ _ _ _ _ _ H) as [Hall Hbest]. split.
      * intros i [<- | Hin]; [|auto].
        exists f. split; [exact Ef|].
        apply ext_le_trans with bf; [now apply ext_ltb_false_le | exact Hmono].
      * destruct Hbest as [[-> ->] | (i & Hi & Hbs & Hf)];
          [now left | right; exists i; auto].
Qed.

(** X14.  After a completed generation the recorded best fitness is at
    least the fitness that every candidate of the evaluated population had
    at evaluation; and either the record is unchanged, or the best solution
    is a candidate of that population and the best fitness is the fitness
    it had at evaluation. *)
Theorem best_fitness_dominates (cfg : PlacementOptimizer)
  (zones : list GardenZone) (s s' : GAState) (draws : nat -> PairDraws) :
  generation_step cfg zones s draws = Some s' ->
  (forall ind, In ind (population s) ->
     exists f, _calculate_fitness (store s) ind zones = inr f /\
               ext_le f (best_fitness s')) /\
  ((best_fitness s' = best_fitness s /\ best_solution s' = best_solution s)
   \/ exists ind, In ind (population s) /\ best_solution s' = Some ind /\
        _calculate_fitness (store s) ind zones = inr (best_fitness s')).
Proof.
  intro H. destruct (generation_step_evaluates _ _ _ _ _ H) as [scores E].
  eapply evaluate_dominates; eauto.
Qed.

(** X14 on the same generation: the best fitness recorded is at least the
    fitness of the first candidate. *)
Lemma best_fitness_dominates_example :
  exists s', generation_step small_optimizer [main_garden] single_state
               (single_draws 0) = Some s' /\
    exists f, _calculate_fitness small_store [0]%nat [main_garden] = inr f /\
              ext_le f (best_fitness s').
Proof.
  destruct (generation_step small_optimizer [main_garden] single_state
              (single_draws 0)) as [s'|] eqn:E.
  - exists s'. split; [reflexivity|].
    apply (proj1 (best_fitness_dominates _ _ _ _ _ E)). now left.
  - vm_compute in E. discriminate.
Defined.

(** *** Irrigation zones *)

Lemma max_float_from_ge (l : list Q) :
  forall m, m <= max_float_from m l /\
            forall a, In a l -> a <= max_float_from m l.
Proof.
  induction l as [|b l IH]; simpl; intro m.
  - split; [apply Qle_refl | contradiction].
  - destruct (IH (if ltb m b then b else m)) as [Hm Hl].
    destruct (ltb m b) eqn:E.
    + apply ltb_lt in E. split; [lra|].
      intros a [<- | Ha]; auto.
    + apply ltb_ge in E. split; [assumption|].
      intros a [<- | Ha]; [lra | auto].
Qed.

Lemma min_float_from_le (l : list Q) :
  forall m, min_float_from m l <= m /\
            forall a, In a l -> min_float_from m l <= a.
Proof.
  induction l as [|b l IH]; simpl; intro m.
  - split; [apply Qle_refl | contradiction].
  - destruct (IH (if ltb b m then b else m)) as [Hm Hl].
    destruct (ltb b m) eqn:E.
    + apply ltb_lt in E. split; [lra|].
      intros a [<- | Ha]; auto.
    + apply ltb_ge in E. split; [assumption|].
      intros a [<- | Ha]; [lra | auto].
Qed.

Lemma Qsqrt_nonneg (q : Q) : 0 <= q -> 0 <= Qsqrt q.
Proof.
  destruct q as [n d]. unfold Qle, Qsqrt. cbn [Qnum Qden]. intro H.
  rewrite Z.mul_1_r. rewrite Z.mul_0_l. apply Z.sqrt_nonneg.
Qed.

Lemma euclid_nonneg (x1 y1 x2 y2 : Q) : 0 <= euclid x1 y1 x2 y2.
Proof.
  unfold euclid. apply Qsqrt_nonneg.
  pose proof (Qsquare_nonneg (x1 - x2)). pose proof (Qsquare_nonneg (y1 - y2)).
  simpl. lra.
Qed.

(** X15.  The irrigation zone made for a group of plants keeps the plants
    and the water need it was given, and its circle covers every plant of
    the group with the 1 m buffer to spare: the distance from the centre to
    any plant, plus 1, is at most the radius, so the radius is at least 1. *)
Theorem irrigation_zone_covers (plants : list PlantPlacement)
  (garden_zones : list GardenZone) (w : WaterNeed) (p : PlantPlacement) :
  In p plants ->
  let z := _create_irrigation_zone plants garden_zones w in
  euclid (x p) (y p) (fst (wz_center z)) (snd (wz_center z)) + 1
    <= wz_radius z /\
  1 <= wz_radius z /\
  wz_plants z = plants /\ wz_water_need z = Some w.
Proof.
  destruct plants as [|p0 rest]; [contradiction|].
  intros Hin z. subst z. unfold _create_irrigation_zone.
  cbn [wz_center wz_radius wz_plants wz_water_need fst snd].
  set (cx := sum_floats (map x (p0 :: rest)) / _).
  set (cy := sum_floats (map y (p0 :: rest)) / _).
  set (dist := fun q => euclid (x q) (y q) cx cy).
  destruct (max_float_from_ge (map dist rest) (dist p0)) as [H0 Hr].
  pose proof (euclid_nonneg (x p0) (y p0) cx cy) as Hn. fold (dist p0) in Hn.
  assert (Hp : dist p <= max_float_from (dist p0) (map dist rest)).
  { destruct Hin as [<- | Hin]; [exact H0 | apply Hr; now apply in_map]. }
  fold (dist p).
  clear Hr Hin. fold (dist p0).
  set (m := max_float_from (dist p0) (map dist rest)) in *.
  set (d0 := dist p0) in *. set (dp := dist p) in *.
  clearbody m d0 dp. repeat split; lra.
Qed.

(** X15 on a tomato at the origin and a potato 3 m away: the centre is at
    1.5 m and the radius 2.5 m. *)
Lemma irrigation_zone_covers_example :
  let z := _create_irrigation_zone (pair_at 3.0) [main_garden] MEDIUM in
  euclid 0.0 0.0 (fst (wz_center z)) (snd (wz_center z)) + 1 <= wz_radius z /\
  wz_radius z == 2.5.
Proof.
  split.
  - apply (irrigation_zone_covers (pair_at 3.0) [main_garden] MEDIUM
             {| plant_id := "tomato_1"; plant_specs := tomato;
                x := 0.0; y := 0.0 |}).
    simpl. now left.
  - vm_compute. reflexivity.
Defined.

Lemma zone_overlap_nonneg (z1 z2 : WaterZone) : 0 <= zone_overlap z1 z2.
Proof.
  unfold zone_overlap. destruct (ltb _ _) eqn:E; [|lra].
  apply ltb_lt in E. lra.
Qed.

Lemma fold_overlap_ge (z1 : WaterZone) (l : list WaterZone) :
  forall acc, acc <= fold_left (fun a z2 => a + zone_overlap z1 z2) l acc.
Proof.
  induction l as [|z l IH]; simpl; intro acc; [lra|].
  pose proof (zone_overlap_nonneg z1 z). specialize (IH (acc + zone_overlap z1 z)).
  lra.
Qed.

Lemma total_overlap_from_ge (l : list WaterZone) :
  forall acc, acc <= total_overlap_from acc l.
Proof.
  induction l as [|z l IH]; simpl; intro acc; [lra|].
  pose proof (fold_overlap_ge z l acc).
  specialize (IH (fold_left (fun a z2 => a + zone_overlap z z2) l acc)). lra.
Qed.

(** X16.  The irrigation efficiency, when [_calculate_irrigation_efficiency]
    returns one, lies between 0 and 1, and it is 0 as soon as two of the
    daily water needs differ by 10 or more, wherever the zones are. *)
Theorem irrigation_efficiency_bounds (zones : list WaterZone)
  (water_needs : list Q) (e : Q) :
  _calculate_irrigation_efficiency zones water_needs = Some e ->
  0 <= e <= 1 /\
  (forall a b, In a water_needs -> In b water_needs -> 10 <= a - b ->
     e == 0).
Proof.
  unfold _calculate_irrigation_efficiency.
  destruct zones as [|z0 zs].
  - intro H. injection H as <-. split; [lra|].
    intros. reflexivity.
  - destruct water_needs as [|w0 ws]; [discriminate|].
    set (ov := total_overlap_from 0 (z0 :: zs)).
    assert (Hov : 0 <= ov) by apply total_overlap_from_ge.
    set (hi := max_float_from w0 ws). set (lo := min_float_from w0 ws).
    set (v := 1.0 - (hi - lo) / 10 - ov * 0.1).
    intro H.
    assert (He : py_max 0.0 (py_min 1.0 v) = e) by congruence.
    clear H. subst e. split.
    + assert (Hle : 0.0 <= 1.0) by lra.
      pose proof (clamp_bounds 0.0 1.0 v Hle) as Hc. lra.
    + intros a b Ha Hb Hab.
      destruct (max_float_from_ge ws w0) as [Hm0 Hm].
      destruct (min_float_from_le ws w0) as [Hn0 Hn].
      assert (Hamax : a <= hi) by (destruct Ha as [<- | Ha]; auto).
      assert (Hbmin : lo <= b) by (destruct Hb as [<- | Hb]; auto).
      assert (Hd : (hi - lo) / 10 == (hi - lo) * (1 # 10)) by reflexivity.
      assert (Hv : v <= 0) by (subst v; clearbody hi lo ov; rewrite Hd; lra).
      pose proof (py_min_le_r 1.0 v) as Hmin.
      apply Qle_antisym.
      * apply py_max_le; lra.
      * pose proof (py_max_ge_l 0.0 (py_min 1.0 v)). lra.
Qed.
Definition two_water_zones : list WaterZone :=
  [ {| wz_plants := []; wz_center := (0.0, 0.0); wz_radius := 2.0;
       wz_water_need := Some LOW |};
    {| wz_plants := []; wz_center := (10.0, 0.0); wz_radius := 3.0;
       wz_water_need := Some HIGH |} ].

(** X16 on two zones 10 m apart whose needs are 1.5 and 12 litres a day. *)
Lemma irrigation_efficiency_example :
  exists e,
    _calculate_irrigation_efficiency two_water_zones [1.5; 12.0] = Some e /\
    0 <= e <= 1 /\ e == 0.
Proof.
  destruct (_calculate_irrigation_efficiency two_water_zones [1.5; 12.0])
    as [e|] eqn:E.
  - exists e. split; [reflexivity|].
    destruct (irrigation_efficiency_bounds _ _ _ E) as [Hr Hz].
    split; [exact Hr|].
    apply (Hz 12.0 1.5); simpl; auto. vm_compute. discriminate.
  - vm_compute in E. discriminate.
Defined.

End AgronomicMoreFacts.

(* ================================================================== *)
(** * Further properties of the hydraulic engine *)
(* ================================================================== *)

Module HydraulicMoreFacts.
Import PyFloatMoreFacts Hydraulic HydraulicFacts.

Lemma math_pi_pos : 0 < math_pi.
Proof. reflexivity. Qed.

Lemma area_zero_iff (d : Q) : math_pi * (d / 2) ^ 2 == 0 <-> d == 0.
Proof.
  pose proof math_pi_pos as Hpi. split; intro H.
  - assert (Hd : (d / 2) ^ 2 == 0).
    { apply Qmult_integral in H. destruct H as [H | H]; [lra | exact H]. }
    simpl in Hd. apply Qmult_integral in Hd.
    destruct Hd as [Hd | Hd];
      (unfold Qdiv in Hd; apply Qmult_integral in Hd;
       destruct Hd as [Hd | Hd]; [exact Hd | vm_compute in Hd; discriminate]).
  - rewrite H. reflexivity.
Qed.

Section EngineMoreFacts.

Variable colebrook_white : Q -> Q -> option Q.

Lemma zero_diameter_loss (flow_rate_lph diameter_m length_m roughness_m : Q) :
  diameter_m == 0 ->
  calculate_pressure_loss_darcy_weisbach colebrook_white flow_rate_lph
    diameter_m length_m roughness_m = None.
Proof.
  intro H. unfold calculate_pressure_loss_darcy_weisbach. cbv zeta.
  apply area_zero_iff in H.
  apply (py_div_none (flow_rate_lph / (1000 * 3600))) in H.
  rewrite H. reflexivity.
Qed.

Lemma zero_flow_loss (flow_rate_lph diameter_m length_m roughness_m : Q) :
  flow_rate_lph == 0 ->
  calculate_pressure_loss_darcy_weisbach colebrook_white flow_rate_lph
    diameter_m length_m roughness_m = None.
Proof.
  intro H. unfold calculate_pressure_loss_darcy_weisbach. cbv zeta.
  destruct (py_div (flow_rate_lph / (1000 * 3600)) _) as [v|] eqn:Ev;
    [|reflexivity].
  apply py_div_some in Ev. destruct Ev as [Ha ->].
  destruct (py_div roughness_m diameter_m) as [rr|]; [|reflexivity].
  set (re := calculate_reynolds_number _ _).
  assert (Hre : re == 0).
  { subst re. unfold calculate_reynolds_number. rewrite H.
    unfold Qdiv. rewrite !Qmult_0_l, !Qmult_0_r, !Qmult_0_l. reflexivity. }
  unfold calculate_friction_factor.
  assert (Hlt : ltb re 2300 = true) by (apply ltb_lt; rewrite Hre; reflexivity).
  rewrite Hlt. apply (py_div_none 64.0) in Hre. rewrite Hre. reflexivity.
Qed.

Lemma scan_all_rejected (flow_rate_lph length_m : Q) (mat : PipeMaterial)
  (max_pressure_loss_bar : Q) (ds : list Z) (s : Scan) :
  (forall d, In d ds ->
     acceptable colebrook_white flow_rate_lph length_m mat
       max_pressure_loss_bar d = false) ->
  scan_diameters colebrook_white flow_rate_lph length_m mat
    max_pressure_loss_bar ds s = s.
Proof.
  unfold scan_diameters. cbv zeta. revert s.
  induction ds as [|d ds IH]; simpl; intros s H; [reflexivity|].
  rewrite step_rejected by auto. apply IH. auto.
Qed.

(** X17.  A flow of zero is an error, not a loss of zero: the Reynolds
    number is then zero and the laminar friction factor [64 / Re] divides by
    it.  So [calculate_pressure_loss_darcy_weisbach] raises for every
    diameter, and [optimize_pipe_diameter], which skips the diameters that
    raise, finds no suitable diameter whatever loss is allowed. *)
Theorem zero_flow_is_an_error (flow_rate_lph length_m : Q)
  (mat : PipeMaterial) (max_pressure_loss_bar : Q) :
  flow_rate_lph == 0 ->
  (forall diameter_m roughness_m,
     calculate_pressure_loss_darcy_weisbach colebrook_white flow_rate_lph
       diameter_m length_m roughness_m = None) /\
  optimize_pipe_diameter colebrook_white flow_rate_lph length_m mat
    max_pressure_loss_bar
  = inl (ValueError "No suitable pipe diameter found for given constraints").
Proof.
  intro H. split.
  - intros d r. now apply zero_flow_loss.
  - unfold optimize_pipe_diameter. cbv zeta.
    rewrite scan_all_rejected; [reflexivity|].
    intros d _. unfold acceptable. now rewrite zero_flow_loss.
Qed.

(** X19.  In the laminar regime the computed loss is the Hagen-Poiseuille
    loss [32 mu L v / d^2] (in bar), with [v] the mean velocity: it is
    proportional to the length and to the velocity, and depends neither on
    the roughness of the pipe nor on the turbulent solver. *)
Theorem laminar_loss_is_hagen_poiseuille
  (flow_rate_lph diameter_m length_m roughness_m loss v re f : Q) :
  calculate_pressure_loss_darcy_weisbach colebrook_white flow_rate_lph
    diameter_m length_m roughness_m = Some (loss, v, re, f) ->
  re < 2300 ->
  v == flow_rate_lph / 3600000 / (math_pi * (diameter_m / 2) ^ 2) /\
  f == 64 / re /\
  loss == 32 * WATER_VISCOSITY * length_m * v / (diameter_m * diameter_m)
            / 100000.
Proof.
  unfold calculate_pressure_loss_darcy_weisbach. cbv zeta.
  destruct (py_div (flow_rate_lph / (1000 * 3600)) _) as [v0|] eqn:Ev;
    [|discriminate].
  destruct (py_div roughness_m diameter_m) as [rr|] eqn:Er; [|discriminate].
  destruct (calculate_friction_factor _ _ _) as [f0|] eqn:Ef; [|discriminate].
  destruct (py_div length_m diameter_m) as [ld|] eqn:El; [|discriminate].
  intro H. injection H as <- <- <- <-. intro Hre.
  apply py_div_some in Ev, Er, El.
  destruct Ev as [Ha ->]. destruct Er as [Hd ->]. destruct El as [_ ->].
  unfold calculate_friction_factor in Ef.
  apply ltb_lt in Hre. rewrite Hre in Ef.
  apply py_div_some in Ef. destruct Ef as [Hre0 ->].
  set (v := flow_rate_lph / (1000 * 3600) / (math_pi * (diameter_m / 2) ^ 2))
    in *.
  assert (Hv : ~ v == 0).
  { intro Hv. apply Hre0. unfold calculate_reynolds_number. rewrite Hv.
    unfold Qdiv. rewrite !Qmult_0_r, !Qmult_0_l. reflexivity. }
  split; [|split].
  - subst v. reflexivity.
  - apply Qmult_comp; reflexivity.
  - unfold calculate_reynolds_number, WATER_DENSITY, WATER_VISCOSITY.
    clearbody v. simpl. field. repeat split; auto; discriminate.
Qed.


Lemma scan_outcome (flow_rate_lph length_m : Q) (mat : PipeMaterial)
  (max_pressure_loss_bar : Q) (ds : list Z) :
  forall s, best_cost s = PosInf ->
    scan_diameters colebrook_white flow_rate_lph length_m mat
      max_pressure_loss_bar ds s = s
    \/ exists d loss v re f,
         In d ds /\
         calculate_pressure_loss_darcy_weisbach colebrook_white flow_rate_lph
           (inject_Z d / 1000.0) length_m
           (roughness_mm (PIPE_PROPERTIES mat) / 1000.0)
         = Some (loss, v, re, f) /\
         loss + loss * 0.1 <= max_pressure_loss_bar /\
         scan_diameters colebrook_white flow_rate_lph length_m mat
           max_pressure_loss_bar ds s
         = {| best_diameter := Some d;
              best_cost :=
                Fin (length_m * cost_per_meter (PIPE_PROPERTIES mat));
              best_pressure_loss := Fin (loss + loss * 0.1) |}.
Proof.
  unfold scan_diameters. cbv zeta.
  induction ds as [|d ds IH]; simpl; intros s Hc; [now left|].
  destruct (acceptable colebrook_white flow_rate_lph length_m mat
              max_pressure_loss_bar d) eqn:E.
  - right. unfold acceptable in E.
    destruct (calculate_pressure_loss_darcy_weisbach colebrook_white
                flow_rate_lph (inject_Z d / 1000.0) length_m
                (roughness_mm (PIPE_PROPERTIES mat) / 1000.0))
      as [[[[loss v] re] f]|] eqn:El; [|discriminate].
    exists d, loss, v, re, f. split; [now left|]. split; [exact El|].
    split; [now apply leb_le|].
    assert (Hstep :
              try_diameter colebrook_white flow_rate_lph length_m
                (roughness_mm (PIPE_PROPERTIES mat))
                (cost_per_meter (PIPE_PROPERTIES mat)) max_pressure_loss_bar
                s d
              = {| best_diameter := Some d;
                   best_cost :=
                     Fin (length_m * cost_per_meter (PIPE_PROPERTIES mat));
                   best_pressure_loss := Fin (loss + loss * 0.1) |}).
    { unfold try_diameter. cbv zeta. rewrite El, E, Hc. reflexivity. }
    rewrite Hstep. now apply scan_settled.
  - rewrite step_rejected by assumption.
    destruct (IH s Hc) as [Hs | (d0 & loss & v & re & f & Hin & Hl & Hle & Hs)].
    + now left.
    + right. exists d0, loss, v, re, f. auto.
Qed.

(** X20.  When [optimize_pipe_diameter] returns a pipe, the material is the
    one asked for, the cost is the length times the cost per metre of that
    material (so it does not depend on the diameter chosen), and the
    reported loss is the Darcy-Weisbach loss of the chosen diameter plus
    10%, which is within the allowed loss. *)
Theorem optimize_pipe_diameter_report (flow_rate_lph length_m : Q)
  (mat : PipeMaterial) (max_pressure_loss_bar : Q) (r : PipeChoice) :
  optimize_pipe_diameter colebrook_white flow_rate_lph length_m mat
    max_pressure_loss_bar = inr r ->
  choice_material r = mat /\
  total_cost r = Fin (length_m * cost_per_meter (PIPE_PROPERTIES mat)) /\
  exists loss v re f,
    calculate_pressure_loss_darcy_weisbach colebrook_white flow_rate_lph
      (inject_Z (optimal_diameter_mm r) / 1000.0) length_m
      (roughness_mm (PIPE_PROPERTIES mat) / 1000.0) = Some (loss, v, re, f) /\
    pressure_loss_bar r = Fin (loss + loss * 0.1) /\
    loss + loss * 0.1 <= max_pressure_loss_bar.
Proof.
  unfold optimize_pipe_diameter. cbv zeta.
  set (s0 := {| best_diameter := None; best_cost := PosInf;
                best_pressure_loss := PosInf |}).
  destruct (scan_outcome flow_rate_lph length_m mat max_pressure_loss_bar
              standard_diameters s0 eq_refl)
    as [-> | (d & loss & v & re & f & _ & Hl & Hle & ->)].
  - cbn [best_diameter s0]. discriminate.
  - cbn [best_diameter best_cost best_pressure_loss].
    intro H. injection H as <-.
    cbn [choice_material total_cost optimal_diameter_mm pressure_loss_bar].
    split; [reflexivity|]. split; [reflexivity|].
    exists loss, v, re, f. auto.
Qed.

End EngineMoreFacts.

(** *** calculate_minor_losses *)

Lemma py_sum_from (l : list Q) :
  forall acc, fold_left Qplus l acc == acc + py_sum l.
Proof.
  unfold py_sum.
  induction l as [|a l IH]; simpl; intro acc; [lra|].
  rewrite (IH (acc + a)), (IH (0 + a)). lra.
Qed.

Lemma py_sum_app (l1 l2 : list Q) : py_sum (l1 ++ l2) == py_sum l1 + py_sum l2.
Proof.
  unfold py_sum at 1. rewrite fold_left_app. rewrite py_sum_from.
  fold (py_sum l1). lra.
Qed.

Lemma float_square_spec (v w : Q) :
  float_square v = Some w -> w = v ^ 2.
Proof.
  unfold float_square. destruct (ltb _ _); [discriminate|]. congruence.
Qed.

(** X21.  [calculate_minor_losses] raises when the diameter is zero,
    whatever the flow and the fittings; and minor losses are additive over
    the fittings: when the call returns for two lists of K-factors, it
    returns for the two put together, and that loss is the sum of the two
    losses. *)
Theorem minor_losses_additive (flow_rate_lph diameter_m : Q) :
  (diameter_m == 0 ->
   forall k, calculate_minor_losses flow_rate_lph diameter_m k = None) /\
  (forall k1 k2 l1 l2,
     calculate_minor_losses flow_rate_lph diameter_m k1 = Some l1 ->
     calculate_minor_losses flow_rate_lph diameter_m k2 = Some l2 ->
     exists l,
       calculate_minor_losses flow_rate_lph diameter_m (k1 ++ k2) = Some l /\
       l == l1 + l2).
Proof.
  unfold calculate_minor_losses. cbv zeta. split.
  - intros Hd k.
    destruct (float_square (diameter_m / 2)) as [r2|] eqn:Er; [|reflexivity].
    apply float_square_spec in Er. subst r2.
    assert (Ha : math_pi * (diameter_m / 2) ^ 2 == 0) by now apply area_zero_iff.
    apply (py_div_none (flow_rate_lph / (1000 * 3600))) in Ha.
    now rewrite Ha.
  - intros k1 k2 l1 l2.
    destruct (float_square (diameter_m / 2)) as [r2|]; [|discriminate].
    destruct (py_div _ _) as [v|]; [|discriminate].
    destruct (float_square v) as [v2|]; [|discriminate].
    intros H1 H2. injection H1 as <-. injection H2 as <-.
    eexists. split; [reflexivity|].
    rewrite py_sum_app.
    generalize (py_sum k1) (py_sum k2). intros a b.
    unfold WATER_DENSITY. field.
Qed.

(** X21 on 1000 LPH through a 16 mm fitting: an elbow (0.9) and a valve
    (0.2) together lose what they lose apart. *)
Lemma minor_losses_example :
  exists l1 l2 l,
    calculate_minor_losses 1000 0.016 [0.9] = Some l1 /\
    calculate_minor_losses 1000 0.016 [0.2] = Some l2 /\
    calculate_minor_losses 1000 0.016 [0.9; 0.2] = Some l /\
    l == l1 + l2.
Proof.
  destruct (calculate_minor_losses 1000 0.016 [0.9]) as [l1|] eqn:E1;
    [|vm_compute in E1; discriminate].
  destruct (calculate_minor_losses 1000 0.016 [0.2]) as [l2|] eqn:E2;
    [|vm_compute in E2; discriminate].
  destruct (proj2 (minor_losses_additive 1000 0.016) [0.9] [0.2] l1 l2 E1 E2)
    as (l & Hl & Hsum).
  exists l1, l2, l. auto.
Defined.

(** *** calculate_optimal_flow_distribution *)

Lemma dict_set_fresh {V : Type} (k : string) (v : V) (d : list (string * V)) :
  ~ In k (map fst d) -> dict_set k v d = d ++ [(k, v)].
Proof.
  induction d as [|[k' v'] d IH]; simpl; intro H; [reflexivity|].
  destruct (String.eqb k' k) eqn:E.
  - apply String.eqb_eq in E. tauto.
  - rewrite IH by tauto. reflexivity.
Qed.

Lemma distribution_entries (f : ZoneDesign -> Q) (zones : list ZoneDesign) :
  forall d,
    NoDup (map zone_uuid zones) ->
    (forall z, In z zones -> ~ In (zone_uuid z) (map fst d)) ->
    fold_left (fun d zone => dict_set (zone_uuid zone) (f zone) d) zones d
    = d ++ map (fun zone => (zone_uuid zone, f zone)) zones.
Proof.
  induction zones as [|z zones IH]; simpl; intros d Hnd Hfresh.
  - now rewrite app_nil_r.
  - inversion Hnd as [|? ? Hz Hnd']; subst.
    rewrite dict_set_fresh by auto.
    rewrite IH; [now rewrite <- app_assoc | assumption |].
    intros z' Hz'. rewrite map_app, in_app_iff. simpl.
    intros [Hin | [Heq | []]].
    + apply (Hfresh z'); auto.
    + apply Hz. rewrite Heq. now apply in_map.
Qed.

Lemma py_sum_cons (a : Q) (l : list Q) : py_sum (a :: l) == a + py_sum l.
Proof.
  pose proof (py_sum_app [a] l) as H. cbn [app] in H. rewrite H.
  unfold py_sum. simpl. lra.
Qed.

Lemma py_sum_map_ext (f g : ZoneDesign -> Q) (zones : list ZoneDesign) :
  (forall z, f z == g z) -> py_sum (map f zones) == py_sum (map g zones).
Proof.
  intro H. induction zones as [|z zones IH]; [reflexivity|].
  cbn [map]. rewrite !py_sum_cons, IH, (H z). reflexivity.
Qed.

Lemma py_sum_scaled (c : Q) (g : ZoneDesign -> Q) (zones : list ZoneDesign) :
  py_sum (map (fun z => c * g z) zones) == c * py_sum (map g zones).
Proof.
  induction zones as [|z zones IH]; cbn [map].
  - unfold py_sum. cbn [fold_left]. ring.
  - rewrite !py_sum_cons, IH. ring.
Qed.

Lemma py_sum_constant (c : Q) (zones : list ZoneDesign) :
  py_sum (map (fun _ => c) zones)
  == inject_Z (Z.of_nat (List.length zones)) * c.
Proof.
  induction zones as [|z zones IH].
  - unfold py_sum. cbn [map fold_left List.length]. ring.
  - cbn [map List.length]. rewrite py_sum_cons, IH.
    rewrite Nat2Z.inj_succ. unfold Z.succ. rewrite inject_Z_plus.
    change (inject_Z 1) with 1. ring.
Qed.

(** X22.  [calculate_optimal_flow_distribution] raises exactly on an empty
    list of zones.  For zones with distinct ids it returns one entry per
    zone, in the order of the zones, and the flows add up to the source
    flow: nothing of the source is left undistributed, whether the shares
    are proportional to the areas or, with a total area of zero, equal. *)
Theorem flow_distribution_shares (zones : list ZoneDesign)
  (source_flow_lph : Q) :
  NoDup (map zone_uuid zones) ->
  match calculate_optimal_flow_distribution zones source_flow_lph with
  | None => zones = []
  | Some d =>
      zones <> [] /\
      map fst d = map zone_uuid zones /\
      py_sum (map snd d) == source_flow_lph
  end.
Proof.
  intro Hnd. unfold calculate_optimal_flow_distribution. cbv zeta.
  set (total := py_sum (map total_area_m2 zones)).
  destruct (Qeq_bool total 0) eqn:E.
  - destruct (py_div source_flow_lph _) as [share|] eqn:Ed.
    + apply py_div_some in Ed. destruct Ed as [Hn ->].
      rewrite (distribution_entries (fun _ => _)) by auto.
      cbn [app]. rewrite !map_map. cbn [fst snd].
      split; [intros ->; apply Hn; reflexivity|]. split; [reflexivity|].
      rewrite py_sum_constant. field. exact Hn.
    + apply py_div_none in Ed. destruct zones as [|z zones]; [reflexivity|].
      exfalso. cbn [List.length] in Ed. rewrite Nat2Z.inj_succ in Ed.
      unfold Qeq in Ed. simpl in Ed. lia.
  - assert (Ht : ~ total == 0).
    { intro H. apply Qeq_bool_iff in H. congruence. }
    rewrite (distribution_entries
               (fun zone => source_flow_lph * (total_area_m2 zone / total)))
      by auto.
    cbn [app]. rewrite !map_map. cbn [fst snd].
    split; [intros ->; apply Ht; reflexivity|]. split; [reflexivity|].
    assert (Hs : py_sum (map (fun z => source_flow_lph
                                       * (total_area_m2 z / total)) zones)
                 == source_flow_lph / total * total).
    { fold total.
      transitivity (py_sum (map (fun z => source_flow_lph / total
                                          * total_area_m2 z) zones)).
      - apply py_sum_map_ext. intro z. unfold Qdiv. ring.
      - apply py_sum_scaled. }
    rewrite Hs. field. exact Ht.
Qed.

(** *** validate_system_design *)

(** The loop over the pipes does not get past its first pipe. *)
Lemma velocity_warnings_outcome (pipes : list PipeRun) :
  velocity_warnings pipes
  = match pipes with
    | [] => inr []
    | _ :: _ => inl (AttributeError "diameter_m")
    end.
Proof. destruct pipes; reflexivity. Qed.

(** X23.  [validate_system_design] raises [AttributeError] on every pipe
    list that is not empty: it reads [pipe.diameter_m].  Without pipes it
    returns: the design is valid exactly when the summed demand of the
    zones is at most the source flow, which is also when no error is
    listed; the warnings are those on the operating pressure of the zones,
    which never make a design invalid; the recommendation to review the
    design is given exactly when there is a warning; and the source
    pressure has no part in the result. *)
Theorem validate_system_design_verdict (zones : list ZoneDesign)
  (pipes : list PipeRun) (source_pressure_bar source_flow_lph : Q) :
  (pipes <> [] ->
   validate_system_design zones pipes source_pressure_bar source_flow_lph
   = inl (AttributeError "diameter_m")) /\
  (forall r,
     validate_system_design zones pipes source_pressure_bar source_flow_lph
       = inr r ->
     pipes = [] /\
     (is_valid r = true
      <-> py_sum (map (fun z => required_flow_lph (zone_of z)) zones)
            <= source_flow_lph) /\
     (vr_errors r = [] <-> is_valid r = true) /\
     vr_warnings r = pressure_warnings zones /\
     (In ReviewWarnings (vr_recommendations r) <-> vr_warnings r <> []) /\
     (forall pressure,
        validate_system_design zones pipes pressure source_flow_lph
          = inr r)).
Proof.
  unfold validate_system_design. cbv zeta.
  rewrite velocity_warnings_outcome. split.
  - intro Hne. destruct pipes; [congruence | reflexivity].
  - intro r. destruct pipes as [|p rest]; [|discriminate].
    intro H. injection H as <-.
    cbn [is_valid vr_errors vr_recommendations vr_warnings pipe_connections
         fold_left dead_ends filter map].
    rewrite !app_nil_r.
    split; [reflexivity|]. split; [|split; [|split; [|split]]].
    + rewrite negb_true_iff. apply ltb_ge.
    + destruct (ltb source_flow_lph _); simpl; split; congruence.
    + reflexivity.
    + destruct (pressure_warnings zones) as [|w ws'].
      * simpl. destruct (ltb _ _); simpl; split; try tauto;
          intros [H | H]; try discriminate; tauto.
      * split; [discriminate|]. intros _. now left.
    + reflexivity.
Qed.

Definition some_pipe : PipeRun :=
  {| pipe_of := {| pipe_id := "lateral_1"; material := PVC;
                   flow_rate_lph := 10.0; diameter_mm := 16.0;
                   length_m := 20.0 |};
     pipe_name := "Lateral 1";
     start_point := (50.0, 10.0); end_point := (70.0, 10.0) |}.

(** X17 on 50 m of PVC with up to 0.5 bar of loss allowed. *)
Lemma zero_flow_example :
  optimize_pipe_diameter no_solver 0.0 50 PVC 0.5
  = inl (ValueError "No suitable pipe diameter found for given constraints").
Proof.
  assert (H : 0.0 == 0) by reflexivity.
  exact (proj2 (zero_flow_is_an_error no_solver 0.0 50 PVC 0.5 H)).
Defined.

(** X19 on 10 LPH in 20 m of 16 mm pipe, where the Reynolds number is about
    220. *)
Lemma laminar_loss_example :
  exists loss v re f,
    calculate_pressure_loss_darcy_weisbach no_solver 10 0.016 20 0.0000015
      = Some (loss, v, re, f) /\
    re < 2300 /\
    loss == 32 * WATER_VISCOSITY * 20 * v / (0.016 * 0.016) / 100000.
Proof.
  destruct (calculate_pressure_loss_darcy_weisbach no_solver 10 0.016 20
              0.0000015) as [[[[loss v] re] f]|] eqn:E.
  - assert (Hre : re < 2300).
    { pose proof E as E'. vm_compute in E'. injection E' as _ _ <- _.
      reflexivity. }
    exists loss, v, re, f. split; [reflexivity|]. split; [exact Hre|].
    exact (proj2 (proj2 (laminar_loss_is_hagen_poiseuille no_solver _ _ _ _
                           _ _ _ _ E Hre))).
  - vm_compute in E. discriminate.
Defined.

(** X20 on the laminar flow of [optimize_pipe_diameter_example]: 50 m of
    PVC cost 125. *)
Lemma optimize_pipe_diameter_report_example :
  exists r, optimize_pipe_diameter no_solver 10 50 PVC 0.001 = inr r /\
            choice_material r = PVC /\
            total_cost r = Fin (50 * 2.5).
Proof.
  destruct (optimize_pipe_diameter no_solver 10 50 PVC 0.001) as [e|r] eqn:E.
  - vm_compute in E. discriminate.
  - exists r. split; [reflexivity|].
    destruct (optimize_pipe_diameter_report no_solver _ _ _ _ _ E)
      as (Hm & Hc & _).
    split; assumption.
Defined.

Definition two_beds : list ZoneDesign :=
  [ {| zone_of := {| zone_name := "Zone 1"; required_flow_lph := 300.0 |};
       zone_uuid := "0b0f2f0e-0001"; operating_pressure_bar := 1.5;
       total_area_m2 := 30.0 |};
    {| zone_of := {| zone_name := "Zone 2"; required_flow_lph := 300.0 |};
       zone_uuid := "0b0f2f0e-0002"; operating_pressure_bar := 0.8;
       total_area_m2 := 10.0 |} ].

(** X22 on two zones of 30 and 10 m^2 and a source of 400 LPH. *)
Lemma flow_distribution_example :
  exists d, calculate_optimal_flow_distribution two_beds 400.0 = Some d /\
            map fst d = ["0b0f2f0e-0001"; "0b0f2f0e-0002"]%string /\
            py_sum (map snd d) == 400.0.
Proof.
  assert (Hnd : NoDup (map zone_uuid two_beds)).
  { repeat constructor; simpl; intuition discriminate. }
  pose proof (flow_distribution_shares two_beds 400.0 Hnd) as H.
  destruct (calculate_optimal_flow_distribution two_beds 400.0) as [d|].
  - exists d. split; [reflexivity|]. destruct H as (_ & Hk & Hs). auto.
  - discriminate H.
Defined.

(** X23 on the two zones of [two_beds], whose demand of 600 LPH exceeds a
    source of 500 LPH and whose second zone works at 0.8 bar: with a pipe
    the call raises; without one the design is invalid and comes with a
    warning. *)
Lemma validate_system_design_example :
  validate_system_design two_beds [some_pipe] 3.0 500.0
  = inl (AttributeError "diameter_m") /\
  exists r, validate_system_design two_beds [] 3.0 500.0 = inr r /\
            is_valid r = false /\
            vr_warnings r = [LowOperatingPressure "Zone 2" 0.8].
Proof.
  split.
  - apply (validate_system_design_verdict two_beds [some_pipe] 3.0 500.0).
    discriminate.
  - destruct (validate_system_design two_beds [] 3.0 500.0) as [e|r] eqn:E;
      [vm_compute in E; discriminate|].
    exists r. split; [reflexivity|].
    destruct (proj2 (validate_system_design_verdict two_beds [] 3.0 500.0)
                r E) as (_ & Hv & _ & Hw & _).
    split.
    + destruct (is_valid r); [|reflexivity].
      assert (H : py_sum (map (fun z => required_flow_lph (zone_of z))
                            two_beds) <= 500.0) by now apply Hv.
      vm_compute in H. congruence.
    + rewrite Hw. reflexivity.
Defined.

End HydraulicMoreFacts.

(* ================================================================== *)
(** * Further properties of the clustering engine *)
(* ================================================================== *)

Module ClusteringMoreFacts.
Import PyFloatMoreFacts Clustering ClusteringFacts.

(** *** optimize_equipment_selection *)

Section Selection.

Variables (zone_area_m2 : Q) (budget_constraint : option Q)
  (required_flow_lph : Q).

(** An entry passes the two tests of the search: its units can be counted,
    their cost is within the budget and their flow is at least 80% of the
    required flow. *)
Definition feasible (equipment : CatalogEntry) : bool :=
  match units_for zone_area_m2 equipment with
  | None => false
  | Some units =>
      negb (over_budget budget_constraint
              (inject_Z units * entry_cost_per_unit equipment))
      && leb (required_flow_lph * 0.8)
             (inject_Z units * entry_flow_rate_lph equipment)
  end.

(** What the search holds of the entry it keeps. *)
Definition kept (s : Search) : Prop :=
  match best_equipment s with
  | None => best_cost s = PosInf
  | Some equipment =>
      feasible equipment = true /\
      exists units ratio,
        units_for zone_area_m2 equipment = Some units /\
        best_cost s = Fin (inject_Z units * entry_cost_per_unit equipment) /\
        py_div (inject_Z units * entry_spacing_m equipment ^ 2) zone_area_m2
          = Some ratio /\
        best_coverage s = py_min 1.0 ratio
  end.

(** The kept cost is at most the cost of a feasible entry. *)
Definition dominated (s : Search) (equipment : CatalogEntry) : Prop :=
  feasible equipment = true ->
  forall units, units_for zone_area_m2 equipment = Some units ->
    ext_le (best_cost s)
      (Fin (inject_Z units * entry_cost_per_unit equipment)).

Lemma dominated_mono (s s' : Search) (equipment : CatalogEntry) :
  ext_le (best_cost s') (best_cost s) ->
  dominated s equipment -> dominated s' equipment.
Proof.
  intros Hle H Hf units Hu. eapply ext_le_trans; [exact Hle | now apply H].
Qed.

Lemma consider_step (s s' : Search) (equipment : CatalogEntry) :
  kept s ->
  consider zone_area_m2 budget_constraint required_flow_lph s equipment
    = inr s' ->
  kept s' /\ ext_le (best_cost s') (best_cost s) /\ dominated s' equipment /\
  (best_equipment s' = best_equipment s
   \/ best_equipment s' = Some equipment).
Proof.
  intro Hk. unfold consider, dominated, feasible. cbv zeta.
  destruct (units_for zone_area_m2 equipment) as [units|] eqn:Eu;
    [|discriminate].
  destruct (over_budget _ _) eqn:Eb.
  { intro H. injection H as <-. repeat split; auto with pyfloat.
    discriminate. }
  destruct (leb _ _) eqn:Ef.
  2:{ intro H. injection H as <-. repeat split; auto with pyfloat.
      discriminate. }
  destruct (py_div _ _) as [ratio|] eqn:Er; [|discriminate].
  destruct (_ || _) eqn:Ec; intro H; injection H as <-.
  - cbn [best_cost best_equipment]. split; [|split; [|split]].
    + unfold kept, feasible. cbn [best_equipment best_cost best_coverage].
      rewrite Eu, Eb, Ef. split; [reflexivity|].
      exists units, ratio. auto.
    + apply orb_true_iff in Ec. destruct Ec as [Ec | Ec].
      * now apply ext_ltb_le.
      * apply andb_true_iff in Ec. destruct Ec as [Ec _].
        now apply ext_eqb_le.
    + intros _ u Hu. injection Hu as <-. apply ext_le_refl.
    + now right.
  - split; [assumption|]. split; [apply ext_le_refl|]. split; [|now left].
    intros _ u Hu. injection Hu as <-.
    apply orb_false_iff in Ec. destruct Ec as [Ec _].
    now apply ext_ltb_false_le.
Qed.

Lemma consider_all_step (entries : list CatalogEntry) :
  forall s s',
    kept s ->
    consider_all zone_area_m2 budget_constraint required_flow_lph s entries
      = inr s' ->
    kept s' /\ ext_le (best_cost s') (best_cost s) /\
    (forall equipment, In equipment entries -> dominated s' equipment) /\
    (best_equipment s' = best_equipment s
     \/ exists equipment,
          In equipment entries /\ best_equipment s' = Some equipment).
Proof.
  induction entries as [|e entries IH]; simpl; intros s s' Hk H.
  - injection H as <-. repeat split; auto with pyfloat. contradiction.
  - destruct (consider _ _ _ s e) as [err|s1] eqn:E; [discriminate|].
    destruct (consider_step _ _ _ Hk E) as (Hk1 & Hle1 & Hd1 & Hb1).
    destruct (IH _ _ Hk1 H) as (Hk' & Hle' & Hd' & Hb').
    split; [assumption|]. split; [eapply ext_le_trans; eauto|]. split.
    + intros c [<- | Hc]; [eapply dominated_mono; eauto | auto].
    + destruct Hb' as [Hb' | (c & Hc & Hb')].
      * rewrite Hb'. destruct Hb1 as [Hb1 | Hb1]; [now left|].
        right. exists e. auto.
      * right. exists c. auto.
Qed.

(** An entry of the catalogs of the types in [types]. *)
Definition listed (types : list EquipmentType) (equipment : CatalogEntry)
  : Prop :=
  exists t entries,
    In t types /\ equipment_database t = Some entries /\
    In equipment entries.

Lemma search_types_step (types : list EquipmentType) :
  forall s s',
    kept s ->
    search_types zone_area_m2 budget_constraint required_flow_lph s types
      = inr s' ->
    kept s' /\ ext_le (best_cost s') (best_cost s) /\
    (forall equipment, listed types equipment -> dominated s' equipment) /\
    (best_equipment s' = best_equipment s
     \/ exists equipment,
          listed types equipment /\ best_equipment s' = Some equipment).
Proof.
  induction types as [|t types IH]; intros s s' Hk H.
  - simpl in H. injection H as <-. repeat split; auto with pyfloat.
    intros c (t & entries & [] & _).
  - cbn [search_types] in H.
    set (s1 := {| best_equipment := best_equipment s; best_cost := best_cost s;
                  best_coverage := best_coverage s; eq_type := Some t |}) in *.
    assert (Hk1 : kept s1) by exact Hk.
    destruct (equipment_database t) as [entries|] eqn:Edb.
    + destruct (consider_all _ _ _ s1 entries) as [err|s2] eqn:E;
        [discriminate|].
      destruct (consider_all_step _ _ _ Hk1 E) as (Hk2 & Hle2 & Hd2 & Hb2).
      destruct (IH _ _ Hk2 H) as (Hk' & Hle' & Hd' & Hb').
      split; [assumption|].
      split; [eapply ext_le_trans; [exact Hle' | exact Hle2]|]. split.
      * intros c (t' & entries' & [<- | Ht'] & Hdb & Hc).
        -- rewrite Edb in Hdb. injection Hdb as <-.
           eapply dominated_mono; eauto.
        -- apply Hd'. exists t', entries'. auto.
      * destruct Hb' as [Hb' | (c & (t' & en & Ht' & Hdb & Hc) & Hb')].
        -- rewrite Hb'. destruct Hb2 as [Hb2 | (c & Hc & Hb2)]; [now left|].
           right. exists c. split; [|assumption].
           exists t, entries. simpl. auto.
        -- right. exists c. split; [|assumption].
           exists t', en. simpl. auto.
    + destruct (IH _ _ Hk1 H) as (Hk' & Hle' & Hd' & Hb').
      split; [assumption|]. split; [assumption|]. split.
      * intros c (t' & entries' & [<- | Ht'] & Hdb & Hc);
          [congruence|].
        apply Hd'. exists t', entries'. auto.
      * destruct Hb' as [Hb' | (c & (t' & en & Ht' & Hdb & Hc) & Hb')];
          [now left|].
        right. exists c. split; [|assumption].
        exists t', en. simpl. auto.
Qed.

End Selection.

(** *** Errors *)

Lemma catalog_spacing (types : list EquipmentType) (equipment : CatalogEntry) :
  listed types equipment -> ~ entry_spacing_m equipment ^ 2 == 0.
Proof.
  intros (t & entries & _ & Hdb & Hin).
  destruct t; simpl in Hdb; try discriminate; injection Hdb as <-;
    simpl in Hin; intuition (subst; discriminate).
Qed.

Lemma units_for_some (zone_area_m2 : Q) (equipment : CatalogEntry) :
  ~ entry_spacing_m equipment ^ 2 == 0 ->
  units_for zone_area_m2 equipment
  = Some (math_ceil (zone_area_m2 / entry_spacing_m equipment ^ 2)).
Proof.
  intro H. unfold units_for, py_div. cbv zeta.
  destruct (Qeq_bool _ 0) eqn:E; [|reflexivity].
  apply Qeq_bool_iff in E. contradiction.
Qed.

Section SelectionErrors.

Variables (zone_area_m2 : Q) (budget_constraint : option Q)
  (required_flow_lph : Q).

Lemma consider_error (s : Search) (equipment : CatalogEntry)
  (e : SelectionError) :
  ~ entry_spacing_m equipment ^ 2 == 0 ->
  consider zone_area_m2 budget_constraint required_flow_lph s equipment
    = inl e ->
  e = ZeroDivisionError /\ zone_area_m2 == 0.
Proof.
  intro Hs. unfold consider. cbv zeta. rewrite units_for_some by exact Hs.
  destruct (over_budget _ _); [discriminate|].
  destruct (leb _ _); [|discriminate].
  destruct (py_div _ zone_area_m2) eqn:E.
  - destruct (_ || _); discriminate.
  - apply py_div_none in E.
    intro H. injection H as <-. auto.
Qed.

Lemma consider_all_error (entries : list CatalogEntry) :
  forall s e,
    (forall equipment, In equipment entries ->
       ~ entry_spacing_m equipment ^ 2 == 0) ->
    consider_all zone_area_m2 budget_constraint required_flow_lph s entries
      = inl e ->
    e = ZeroDivisionError /\ zone_area_m2 == 0.
Proof.
  induction entries as [|c entries IH]; simpl; intros s e Hs H;
    [discriminate|].
  destruct (consider _ _ _ s c) as [err|s1] eqn:E.
  - injection H as <-. eapply consider_error; eauto.
  - eapply IH; eauto.
Qed.

Lemma search_types_error (types : list EquipmentType) :
  forall s e,
    search_types zone_area_m2 budget_constraint required_flow_lph s types
      = inl e ->
    e = ZeroDivisionError /\ zone_area_m2 == 0.
Proof.
  induction types as [|t types IH]; intros s e H; [discriminate|].
  cbn [search_types] in H.
  destruct (equipment_database t) as [entries|] eqn:Edb; [|eapply IH; eauto].
  destruct (consider_all _ _ _ _ entries) as [err|s2] eqn:E.
  - injection H as <-. eapply consider_all_error; [|exact E].
    intros c Hc. apply (catalog_spacing [t]). exists t, entries.
    simpl. auto.
  - eapply IH; eauto.
Qed.

(** On a zone of area zero the very first entry divides by the area. *)
Lemma consider_zero_area (s : Search) (equipment : CatalogEntry) :
  zone_area_m2 == 0 -> required_flow_lph == 0 ->
  (forall budget, budget_constraint = Some budget -> 0 <= budget) ->
  ~ entry_spacing_m equipment ^ 2 == 0 ->
  consider zone_area_m2 budget_constraint required_flow_lph s equipment
  = inl ZeroDivisionError.
Proof.
  intros Ha Hreq Hb Hs. unfold consider. cbv zeta.
  rewrite units_for_some by exact Hs.
  assert (Hu : math_ceil (zone_area_m2 / entry_spacing_m equipment ^ 2)
               = 0%Z).
  { unfold math_ceil.
    rewrite (Qceiling_comp _ 0); [reflexivity|].
    rewrite Ha. unfold Qdiv. ring. }
  rewrite Hu.
  assert (Hover : over_budget budget_constraint
                    (inject_Z 0 * entry_cost_per_unit equipment) = false).
  { unfold over_budget. destruct budget_constraint as [b|]; [|reflexivity].
    apply andb_false_iff. right. apply ltb_ge.
    specialize (Hb b eq_refl). change (inject_Z 0) with 0. lra. }
  rewrite Hover.
  assert (Hflow : leb (required_flow_lph * 0.8)
                    (inject_Z 0 * entry_flow_rate_lph equipment) = true).
  { apply leb_le. rewrite Hreq. change (inject_Z 0) with 0. lra. }
  rewrite Hflow.
  assert (Hdiv : py_div (inject_Z 0 * entry_spacing_m equipment ^ 2)
                   zone_area_m2 = None)
    by now apply py_div_none.
  now rewrite Hdiv.
Qed.

End SelectionErrors.

Lemma required_flow_zero (zone_area_m2 : Q) (water_needs : string) :
  zone_area_m2 == 0 -> required_flow zone_area_m2 water_needs == 0.
Proof. intro H. unfold required_flow. cbv zeta. rewrite H. ring. Qed.

Lemma search_types_total (zone_area_m2 : Q) (budget_constraint : option Q)
  (required_flow_lph : Q) (types : list EquipmentType) (s : Search) :
  ~ zone_area_m2 == 0 ->
  exists s',
    search_types zone_area_m2 budget_constraint required_flow_lph s types
    = inr s'.
Proof.
  intro Ha.
  destruct (search_types zone_area_m2 budget_constraint required_flow_lph
              s types) as [e|s'] eqn:E; [|eauto].
  apply search_types_error in E. destruct E as [_ E]. contradiction.
Qed.

(** X24.  On a zone whose area is not zero [optimize_equipment_selection]
    ends in one of two errors, and the search decides which.  When an entry
    of the catalogs searched passes the budget test and the flow test, the
    search keeps one, and the call ends in the [ValidationError] of the
    recommended equipment; when none does, it ends in "No suitable
    equipment".  Both are equivalences. *)
Theorem equipment_selection_outcome (zone_area_m2 : Q) (water_needs : string)
  (budget_constraint : option Q)
  (preferred_equipment_type : option EquipmentType) :
  ~ zone_area_m2 == 0 ->
  let result :=
    optimize_equipment_selection zone_area_m2 water_needs budget_constraint
      preferred_equipment_type in
  let passes :=
    feasible zone_area_m2 budget_constraint
      (required_flow zone_area_m2 water_needs) in
  (result = inl ValidationError
   <-> exists equipment,
         listed (searched preferred_equipment_type) equipment /\
         passes equipment = true) /\
  (result = inl NoSuitableEquipment
   <-> forall equipment,
         listed (searched preferred_equipment_type) equipment ->
         passes equipment = false).
Proof.
  intros Ha result passes. subst result passes.
  unfold optimize_equipment_selection. cbv zeta.
  fold (searched preferred_equipment_type).
  set (s0 := {| best_equipment := None; best_cost := PosInf;
                best_coverage := 0.0; eq_type := None |}).
  destruct (search_types_total zone_area_m2 budget_constraint
              (required_flow zone_area_m2 water_needs)
              (searched preferred_equipment_type) s0 Ha) as [s E].
  rewrite E.
  assert (Hk0 : kept zone_area_m2 budget_constraint
                  (required_flow zone_area_m2 water_needs) s0)
    by reflexivity.
  destruct (search_types_step _ _ _ _ _ _ Hk0 E) as (Hk & _ & Hd & Hb).
  pose proof (search_types_eq_type _ _ _ _ _ _ E) as Ht.
  unfold kept in Hk.
  destruct (best_equipment s) as [best|] eqn:Ebest.
  - destruct Hk as (Hfeas & units & ratio & Hu & _).
    rewrite Hu.
    assert (Hbound : exists t, eq_type s = Some t).
    { rewrite Ht. destruct preferred_equipment_type; simpl; eauto. }
    destruct Hbound as [t Et]. rewrite Et.
    rewrite placeholder_equipment_rejected.
    assert (Hlisted : listed (searched preferred_equipment_type) best).
    { destruct Hb as [Hb | (c & Hc & Hb)]; [discriminate|].
      injection Hb as <-. exact Hc. }
    split.
    + split; [intros _; exists best; auto | reflexivity].
    + split; [discriminate|].
      intro Hnone. specialize (Hnone best Hlisted). congruence.
  - split.
    + split; [discriminate|].
      intros (c & Hc & Hfeas). exfalso.
      pose proof Hfeas as Hfeas'.
      unfold feasible in Hfeas'.
      destruct (units_for zone_area_m2 c) as [units|] eqn:Eu;
        [|discriminate].
      specialize (Hd c Hc Hfeas units Eu). rewrite Hk in Hd. exact Hd.
    + split; [|reflexivity].
      intros _ c Hc.
      destruct (feasible zone_area_m2 budget_constraint
                  (required_flow zone_area_m2 water_needs) c) eqn:Hfeas;
        [|reflexivity].
      exfalso.
      pose proof Hfeas as Hfeas'.
      unfold feasible in Hfeas'.
      destruct (units_for zone_area_m2 c) as [units|] eqn:Eu;
        [|discriminate].
      specialize (Hd c Hc Hfeas units Eu). rewrite Hk in Hd. exact Hd.
Qed.

(** X27.  The errors of [optimize_equipment_selection].  A preferred type
    without a catalog ([ROTOR], [SPRAY]) always ends in "No suitable
    equipment".  A zone of area zero, with no budget or a budget that is not
    negative and a type that has a catalog, ends in a [ZeroDivisionError];
    and an area of zero is the only cause of that error.  The loop variable
    that the result reads is always bound. *)
Theorem equipment_selection_errors (zone_area_m2 : Q) (water_needs : string)
  (budget_constraint : option Q)
  (preferred_equipment_type : option EquipmentType) :
  let result :=
    optimize_equipment_selection zone_area_m2 water_needs budget_constraint
      preferred_equipment_type in
  (preferred_equipment_type = Some ROTOR
   \/ preferred_equipment_type = Some SPRAY ->
   result = inl NoSuitableEquipment) /\
  (zone_area_m2 == 0 ->
   (forall budget, budget_constraint = Some budget -> 0 <= budget) ->
   preferred_equipment_type <> Some ROTOR ->
   preferred_equipment_type <> Some SPRAY ->
   result = inl ZeroDivisionError) /\
  (result = inl ZeroDivisionError -> zone_area_m2 == 0) /\
  result <> inl UnboundLocalError.
Proof.
  intro result. subst result. split; [|split; [|split]].
  - intros [-> | ->]; reflexivity.
  - intros Ha Hb Hr Hs.
    pose proof (required_flow_zero zone_area_m2 water_needs Ha) as Hreq.
    unfold optimize_equipment_selection. cbv zeta.
    assert (Hfirst : forall s equipment,
              ~ entry_spacing_m equipment ^ 2 == 0 ->
              consider zone_area_m2 budget_constraint
                (required_flow zone_area_m2 water_needs) s equipment
              = inl ZeroDivisionError)
      by (intros; now apply consider_zero_area).
    destruct preferred_equipment_type as [[| | | |]|];
      try congruence;
      cbn [search_types all_equipment_types equipment_database consider_all];
      rewrite Hfirst; try reflexivity; discriminate.
  - unfold optimize_equipment_selection. cbv zeta.
    fold (searched preferred_equipment_type).
    set (s0 := {| best_equipment := None; best_cost := PosInf;
                  best_coverage := 0.0; eq_type := None |}).
    destruct (search_types _ _ _ s0 _) as [err|s] eqn:E.
    + intro H. injection H as ->.
      eapply search_types_error; eauto.
    + assert (Hk0 : kept zone_area_m2 budget_constraint
                      (required_flow zone_area_m2 water_needs) s0)
        by reflexivity.
      destruct (search_types_step _ _ _ _ _ _ Hk0 E) as (Hk & _).
      unfold kept in Hk.
      destruct (best_equipment s) as [best|]; [|discriminate].
      destruct Hk as (_ & units & ratio & -> & _).
      destruct (eq_type s); [|discriminate].
      rewrite placeholder_equipment_rejected. discriminate.
  - unfold optimize_equipment_selection. cbv zeta.
    fold (searched preferred_equipment_type).
    destruct (search_types _ _ _ _ _) as [err|s] eqn:E.
    + apply search_types_error in E. destruct E as [-> _]. discriminate.
    + apply search_types_eq_type in E.
      destruct (best_equipment s) as [best|]; [|discriminate].
      destruct (units_for zone_area_m2 best); [|discriminate].
      assert (Ht : eq_type s <> None).
      { rewrite E. destruct preferred_equipment_type; discriminate. }
      destruct (eq_type s); [|congruence].
      rewrite placeholder_equipment_rejected. discriminate.
Qed.

Definition spray_head_180 : CatalogEntry :=
  mkCatalogEntry "Spray Head 180°" 30.0 2.5 2.0.

(** X24 on a 10 m^2 zone of moderate needs and no preferred type: with no
    budget two 180-degree spray heads pass both tests and the call ends in
    the [ValidationError]; with a budget of 1.0 no entry of any catalog
    passes, and the call ends in "No suitable equipment". *)
Lemma equipment_selection_outcome_example :
  optimize_equipment_selection 10.0 "moderate" None None
  = inl ValidationError /\
  optimize_equipment_selection 10.0 "moderate" (Some 1.0) None
  = inl NoSuitableEquipment.
Proof.
  assert (Ha : ~ 10.0 == 0) by discriminate.
  split.
  - apply (proj1 (equipment_selection_outcome 10.0 "moderate" None None Ha)).
    exists spray_head_180. split; [|reflexivity].
    exists SPRINKLER. eexists. split; [simpl; auto|].
    split; [reflexivity|]. simpl. auto.
  - apply (proj2 (equipment_selection_outcome 10.0 "moderate" (Some 1.0)
                    None Ha)).
    intros c (t & entries & Ht & Hdb & Hc).
    destruct t; simpl in Hdb; try discriminate; injection Hdb as <-;
      simpl in Hc; intuition (subst; reflexivity).
Defined.

(** *** kmeans_clustering *)

Lemma concat_set_nth (clusters : list (list PlantData)) :
  forall label c p,
    nth_error clusters label = Some c ->
    Permutation (List.concat (set_nth label (c ++ [p]) clusters))
                (List.concat clusters ++ [p]).
Proof.
  induction clusters as [|c0 clusters IH]; intros [|label] c p H;
    simpl in H; try discriminate.
  - injection H as ->. simpl. rewrite <- !app_assoc.
    apply Permutation_app_head. apply Permutation_app_comm.
  - simpl. rewrite <- app_assoc. apply Permutation_app_head. now apply IH.
Qed.

Lemma firstn_skipn_cons (plants : list PlantData) :
  forall i p n,
    nth_error plants i = Some p ->
    firstn (S n) (skipn i plants) = p :: firstn n (skipn (S i) plants).
Proof.
  induction plants as [|q plants IH]; intros [|i] p n H; simpl in H;
    try discriminate.
  - injection H as ->. reflexivity.
  - apply (IH i p n H).
Qed.

Lemma assign_permutation (plants : list PlantData) (labels : list nat) :
  forall clusters i clusters',
    assign clusters plants i labels = Some clusters' ->
    List.length clusters' = List.length clusters /\
    Permutation (List.concat clusters')
      (List.concat clusters ++ firstn (List.length labels) (skipn i plants)).
Proof.
  induction labels as [|l labels IH]; intros clusters i clusters' H.
  - simpl in H. injection H as <-. simpl. rewrite app_nil_r. auto.
  - cbn [assign] in H.
    destruct (nth_error plants i) as [p|] eqn:Ep; [|discriminate].
    destruct (nth_error clusters l) as [c|] eqn:Ec; [|discriminate].
    destruct (IH _ _ _ H) as [Hlen Hperm].
    rewrite set_nth_length in Hlen. split; [exact Hlen|].
    cbn [List.length]. rewrite (firstn_skipn_cons _ _ _ _ Ep).
    eapply Permutation_trans; [exact Hperm|].
    eapply Permutation_trans;
      [apply Permutation_app_tail; apply (concat_set_nth _ _ _ p Ec)|].
    rewrite <- app_assoc. reflexivity.
Qed.

Lemma concat_repeat_nil (k : nat) : List.concat (repeat (@nil PlantData) k) = [].
Proof. induction k as [|k IH]; simpl; auto. Qed.

Section KMeansMoreFacts.

Variable KMeans_fit_predict :
  list (list Q) -> nat -> option (list nat * list (list Q)).
Variable silhouette_score : list (list Q) -> list nat -> option Q.

(** X28.  When [KMeans] returns one label per sample, the clusters that
    [kmeans_clustering] returns are a partition of the input: put together
    they hold every plant exactly once; and there are as many centres as
    clusters. *)
Theorem kmeans_clustering_partition (plants : list PlantData)
  (max_zones min_plants_per_zone : Z)
  (clusters : list (list PlantData)) (centers : list (list Q)) :
  kmeans_shapes KMeans_fit_predict ->
  kmeans_clustering KMeans_fit_predict silhouette_score plants max_zones
    min_plants_per_zone = Some (clusters, centers) ->
  Permutation (List.concat clusters) plants /\
  List.length clusters = List.length centers.
Proof.
  intros Hkm. unfold kmeans_clustering. cbv zeta.
  assert (Hsingle : forall cl ce,
            Some (single_cluster plants) = Some (cl, ce) ->
            Permutation (List.concat cl) plants /\
            List.length cl = List.length ce).
  { intros cl ce H. injection H as <- <-. simpl. rewrite app_nil_r. auto. }
  destruct (_ <? _)%Z; [apply Hsingle|].
  destruct (_ =? _)%Z; [discriminate|].
  set (features := create_feature_matrix plants).
  set (mc := max_clusters_of _ _ _).
  assert (Hsel : from_candidates KMeans_fit_predict features
                   min_plants_per_zone (seq 1 (Z.to_nat mc))
                   (select_best KMeans_fit_predict silhouette_score features
                      mc min_plants_per_zone)).
  { apply fold_from_candidates; [auto | exact I]. }
  unfold from_candidates in Hsel.
  destruct (best_labelling _) as [[labels best_centers]|]; [|apply Hsingle].
  destruct Hsel as (k & _ & Hfit & _).
  destruct (Hkm _ _ _ _ Hfit) as (Hlen & _ & _).
  unfold features, create_feature_matrix in Hlen. rewrite length_map in Hlen.
  destruct (assign _ plants 0 labels) as [cl|] eqn:Ea; [|discriminate].
  intro H. injection H as <- <-.
  apply assign_permutation in Ea. destruct Ea as [Hl Hp].
  rewrite repeat_length in Hl. split; [|exact Hl].
  rewrite concat_repeat_nil, Hlen in Hp. simpl in Hp.
  now rewrite firstn_all in Hp.
Qed.

End KMeansMoreFacts.

(** X28 on the three plants of [three_plants]. *)
Lemma kmeans_clustering_partition_example :
  exists clusters centers,
    kmeans_clustering head_and_rest (fun _ _ => Some 0.5) three_plants 2 1
      = Some (clusters, centers) /\
    Permutation (List.concat clusters) three_plants /\
    List.length clusters = 2%nat.
Proof.
  destruct (kmeans_clustering head_and_rest (fun _ _ => Some 0.5)
              three_plants 2 1) as [[clusters centers]|] eqn:E.
  - exists clusters, centers. split; [reflexivity|].
    destruct (kmeans_clustering_partition head_and_rest (fun _ _ => Some 0.5)
                three_plants 2 1 clusters centers
                (proj1 head_and_rest_contract) E) as [Hp Hl].
    split; [exact Hp|]. rewrite Hl.
    vm_compute in E. injection E as _ <-. reflexivity.
  - vm_compute in E. discriminate.
Defined.

(** *** calculate_zone_properties *)

Lemma sum_from (l : list Q) :
  forall acc, fold_left Qplus l acc == acc + fold_left Qplus l 0.
Proof.
  induction l as [|a l IH]; simpl; intro acc; [lra|].
  rewrite (IH (acc + a)), (IH (0 + a)). lra.
Qed.

Lemma mean_of_constant (f : PlantData -> Q) (v : Q) (plants : list PlantData) :
  plants <> [] ->
  (forall p, In p plants -> f p = v) ->
  fold_left Qplus (map f plants) 0
    / inject_Z (Z.of_nat (List.length plants)) == v.
Proof.
  intros Hne Hall.
  assert (Hsum : fold_left Qplus (map f plants) 0
                 == inject_Z (Z.of_nat (List.length plants)) * v).
  { clear Hne. induction plants as [|p plants IH].
    - simpl. ring.
    - cbn [map fold_left List.length].
      assert (IH' := IH (fun q Hq => Hall q (or_intror Hq))).
      rewrite sum_from, IH'. rewrite (Hall p) by now left.
      rewrite Nat2Z.inj_succ. unfold Z.succ. rewrite inject_Z_plus.
      change (inject_Z 1) with 1. ring. }
  rewrite Hsum. field.
  destruct plants as [|p plants]; [congruence|].
  cbn [List.length]. rewrite Nat2Z.inj_succ. unfold Qeq. simpl. lia.
Qed.

Lemma ltb_comp (a a' b b' : Q) : a == a' -> b == b' -> ltb a b = ltb a' b'.
Proof.
  intros Ha Hb. destruct (ltb a' b') eqn:E.
  - apply ltb_lt. apply ltb_lt in E. now rewrite Ha, Hb.
  - apply ltb_ge. apply ltb_ge in E. now rewrite Ha, Hb.
Qed.

(** X29.  The properties that [calculate_zone_properties] returns for a
    zone with plants agree with the equipment selection: the required flow
    is the flow that [optimize_equipment_selection] computes from the
    returned area and water needs.  The water needs are one of the three
    classes, and when all the plants of the zone have the same numeric
    need, the class is that of this need. *)
Theorem zone_properties_consistent (plants : list PlantData)
  (cluster_center : list Q) (props : ZoneProperties) :
  calculate_zone_properties plants cluster_center = Some (Some props) ->
  zp_required_flow_lph props
    = required_flow (zp_total_area_m2 props) (zp_water_needs props) /\
  In (zp_water_needs props) ["low"; "moderate"; "high"]%string /\
  zp_plant_ids props = map plant_id plants /\
  (forall v, (forall p, In p plants -> water_needs_numeric p = v) ->
     zp_water_needs props
     = if ltb v 1.5 then "low"%string
       else if ltb 2.5 v then "high"%string else "moderate"%string).
Proof.
  unfold calculate_zone_properties.
  destruct plants as [|p0 rest]; [discriminate|].
  set (plants := p0 :: rest). cbv zeta.
  destruct (nth_error cluster_center 0) as [cx|]; [|discriminate].
  destruct (nth_error cluster_center 1) as [cy|]; [|discriminate].
  set (avg := fold_left Qplus (map water_needs_numeric plants) 0 / _).
  intro H. injection H as <-.
  cbn [zp_required_flow_lph zp_total_area_m2 zp_water_needs zp_plant_ids].
  split; [|split; [|split]].
  - destruct (ltb avg 1.5); [reflexivity|].
    destruct (ltb 2.5 avg); reflexivity.
  - destruct (ltb avg 1.5); [simpl; auto|].
    destruct (ltb 2.5 avg); simpl; auto.
  - reflexivity.
  - intros v Hv.
    assert (Havg : avg == v).
    { apply mean_of_constant; [discriminate | exact Hv]. }
    rewrite (ltb_comp avg v 1.5 1.5 Havg) by reflexivity.
    rewrite (ltb_comp 2.5 2.5 avg v) by (reflexivity || exact Havg).
    reflexivity.
Qed.

(** X29 on the two high-need plants of [three_plants]. *)
Lemma zone_properties_example :
  exists props,
    calculate_zone_properties (tl three_plants) [5.25; 5.0]
      = Some (Some props) /\
    zp_water_needs props = "high"%string /\
    zp_required_flow_lph props = required_flow (zp_total_area_m2 props) "high".
Proof.
  destruct (calculate_zone_properties (tl three_plants) [5.25; 5.0])
    as [[props|]|] eqn:E; try (vm_compute in E; discriminate).
  exists props. split; [reflexivity|].
  destruct (zone_properties_consistent _ _ _ E) as (Hf & _ & _ & Hw).
  assert (Hn : zp_water_needs props = "high"%string).
  { rewrite (Hw 3.0); [reflexivity|].
    intros p [<- | [<- | []]]; reflexivity. }
  split; [exact Hn|]. now rewrite Hf, Hn.
Defined.

(** *** dbscan_clustering *)

(** The plants that carry a label, among plants paired with their labels. *)
Definition class_of (label : Z) (z : list (PlantData * Z)) : list PlantData :=
  map fst (filter (fun pl => (snd pl =? label)%Z) z).

Lemma skipn_nth_error (plants : list PlantData) :
  forall i,
    match nth_error plants i with
    | Some p => skipn i plants = p :: skipn (S i) plants
    | None => skipn i plants = [] /\ skipn (S i) plants = []
    end.
Proof.
  induction plants as [|q plants IH]; intros [|i].
  - simpl. auto.
  - simpl. auto.
  - reflexivity.
  - apply (IH i).
Qed.

Lemma plants_labelled_class (label : Z) (plants : list PlantData)
  (labels : list Z) :
  forall i r,
    plants_labelled label plants i labels = Some r ->
    r = class_of label (combine (skipn i plants) labels).
Proof.
  unfold class_of.
  induction labels as [|l labels IH]; intros i r H.
  - simpl in H. injection H as <-. now destruct (skipn i plants).
  - cbn [plants_labelled] in H. pose proof (skipn_nth_error plants i) as Hs.
    destruct (l =? label)%Z eqn:El.
    + destruct (nth_error plants i) as [p|]; [|discriminate].
      destruct (plants_labelled label plants (S i) labels) as [r'|] eqn:Er;
        [|discriminate].
      cbn [option_map] in H. injection H as <-. rewrite Hs.
      cbn [combine filter snd]. rewrite El. cbn [map fst].
      f_equal. now apply IH.
    + destruct (nth_error plants i) as [p|].
      * rewrite Hs. cbn [combine filter snd]. rewrite El. now apply IH.
      * destruct Hs as [Hs Hs']. rewrite Hs. cbn [combine filter map].
        apply IH in H. rewrite Hs' in H. exact H.
Qed.

(** The labels whose plants [group_labelled] keeps as a cluster. *)
Definition kept_label (min_samples : Z) (z : list (PlantData * Z)) (label : Z)
  : bool :=
  negb (label =? -1)%Z
  && (min_samples <=? Z.of_nat (List.length (class_of label z)))%Z.

Lemma group_labelled_classes (plants : list PlantData) (labels : list Z)
  (min_samples : Z) (uniq : list Z) :
  forall acc res,
    group_labelled plants labels min_samples uniq acc = Some res ->
    fst res
    = fst acc ++ map (fun l => class_of l (combine plants labels))
                     (filter (kept_label min_samples (combine plants labels))
                        uniq) /\
    (List.length (fst acc) = List.length (snd acc) ->
     List.length (fst res) = List.length (snd res)).
Proof.
  induction uniq as [|label uniq IH]; intros acc res H.
  - simpl in H. injection H as <-. simpl. rewrite app_nil_r. auto.
  - cbn [group_labelled] in H. cbn [filter]. unfold kept_label at 1.
    destruct (label =? -1)%Z; [now apply IH|]. cbn [negb andb].
    destruct (plants_labelled label plants 0 labels) as [cl|] eqn:Ec;
      [|discriminate].
    apply plants_labelled_class in Ec. cbn [skipn] in Ec. subst cl.
    destruct (min_samples <=? _)%Z; [|now apply IH].
    apply IH in H. cbn [fst snd] in H. destruct H as [Hres Hlen].
    split.
    + rewrite Hres. cbn [map]. now rewrite <- app_assoc.
    + intro Hacc. apply Hlen. rewrite !length_app. simpl. lia.
Qed.

Lemma insert_unique_spec (z : Z) (l : list Z) :
  StronglySorted Z.lt l ->
  StronglySorted Z.lt (insert_unique z l) /\
  forall a, In a (insert_unique z l) -> a = z \/ In a l.
Proof.
  induction l as [|b l IH]; intro Hs; simpl.
  - split; [repeat constructor | intros a [<- | []]; auto].
  - apply StronglySorted_inv in Hs. destruct Hs as [Hs Hb].
    destruct (z <? b)%Z eqn:E1.
    + apply Z.ltb_lt in E1. split.
      * constructor; [constructor; assumption|].
        constructor; [assumption|].
        eapply Forall_impl; [|exact Hb]. simpl. intros; lia.
      * intros a [<- | Ha]; auto.
    + destruct (z =? b)%Z eqn:E2.
      * split; [constructor; assumption | auto].
      * apply Z.ltb_ge in E1. apply Z.eqb_neq in E2.
        destruct (IH Hs) as [Hs' Hin]. split.
        -- constructor; [assumption|]. apply Forall_forall. intros a Ha.
           destruct (Hin a Ha) as [-> | Ha']; [lia|].
           rewrite Forall_forall in Hb. now apply Hb.
        -- intros a [<- | Ha]; [simpl; auto|].
           destruct (Hin a Ha); simpl; auto.
Qed.

Lemma np_unique_NoDup (labels : list Z) : NoDup (np_unique labels).
Proof.
  assert (Hs : StronglySorted Z.lt (np_unique labels)).
  { unfold np_unique. induction labels as [|l labels IH]; simpl.
    - constructor.
    - now apply insert_unique_spec. }
  induction Hs as [|a l Hs IH Ha]; constructor; [|assumption].
  intro Hin. rewrite Forall_forall in Ha. specialize (Ha a Hin). lia.
Qed.

Lemma filter_split (f : PlantData * Z -> bool) (z : list (PlantData * Z)) :
  Permutation (filter f z ++ filter (fun pl => negb (f pl)) z) z.
Proof.
  induction z as [|a z IH]; simpl; [constructor|].
  destruct (f a); simpl.
  - now constructor.
  - apply Permutation_sym. apply Permutation_cons_app. now apply Permutation_sym.
Qed.

Lemma class_of_others (k k' : Z) (z : list (PlantData * Z)) :
  k' <> k ->
  class_of k' (filter (fun pl => negb (snd pl =? k)%Z) z) = class_of k' z.
Proof.
  intro Hne. unfold class_of. f_equal.
  induction z as [|a z IH]; simpl; [reflexivity|].
  destruct (snd a =? k)%Z eqn:E; simpl.
  - apply Z.eqb_eq in E.
    replace (snd a =? k')%Z with false
      by (symmetry; apply Z.eqb_neq; congruence).
    exact IH.
  - destruct (snd a =? k')%Z; [f_equal|]; exact IH.
Qed.

Lemma flat_map_classes_ext (f g : Z -> list PlantData) (keys : list Z) :
  (forall k, In k keys -> f k = g k) -> flat_map f keys = flat_map g keys.
Proof.
  induction keys as [|k keys IH]; simpl; intro H; [reflexivity|].
  rewrite (H k) by now left. f_equal. apply IH. auto.
Qed.

(** The classes of distinct labels are disjoint parts of the whole. *)
Lemma classes_are_disjoint (keys : list Z) :
  NoDup keys ->
  forall z, exists rest,
    Permutation (flat_map (fun k => class_of k z) keys ++ rest) (map fst z).
Proof.
  induction 1 as [|k keys Hk Hnd IH]; intro z.
  - exists (map fst z). reflexivity.
  - destruct (IH (filter (fun pl => negb (snd pl =? k)%Z) z)) as [rest Hp].
    exists rest. cbn [flat_map].
    assert (Hext : flat_map
                     (fun k' => class_of k'
                                  (filter (fun pl => negb (snd pl =? k)%Z) z))
                     keys
                   = flat_map (fun k' => class_of k' z) keys).
    { apply flat_map_classes_ext. intros k' Hk'. apply class_of_others.
      intros ->. contradiction. }
    rewrite Hext in Hp. rewrite <- app_assoc.
    eapply Permutation_trans; [apply Permutation_app_head; exact Hp|].
    unfold class_of at 1. rewrite <- map_app.
    apply Permutation_map. apply filter_split.
Qed.

Lemma combine_fst_prefix (plants : list PlantData) :
  forall labels : list Z,
    exists rest, plants = map fst (combine plants labels) ++ rest.
Proof.
  induction plants as [|p plants IH]; intros [|l labels]; simpl.
  - now exists [].
  - now exists [].
  - now exists (p :: plants).
  - destruct (IH labels) as [rest Hr]. exists rest. now f_equal.
Qed.

Lemma concat_singletons (l : list PlantData) :
  List.concat (map (fun p => [p]) l) = l.
Proof. induction l as [|a l IH]; simpl; congruence. Qed.

Section DBSCANFacts.

Variable DBSCAN_fit_predict : list (list Q) -> Q -> Z -> option (list Z).

(** X30.  What [dbscan_clustering] returns has one centre per cluster, and
    its clusters are disjoint parts of the input: no plant is invented and
    none is put in two clusters.  They need not be all of the input: the
    plants of a labelled group smaller than [min_samples] are in no
    cluster. *)
Theorem dbscan_clusters_are_disjoint (plants : list PlantData) (eps : Q)
  (min_samples : Z) (clusters : list (list PlantData))
  (centers : list (list Q)) :
  dbscan_clustering DBSCAN_fit_predict plants eps min_samples
    = Some (clusters, centers) ->
  List.length clusters = List.length centers /\
  exists dropped, Permutation (List.concat clusters ++ dropped) plants.
Proof.
  unfold dbscan_clustering. cbv zeta.
  destruct (_ <? _)%Z.
  { intro H. injection H as <- <-. split; [reflexivity|].
    exists []. simpl. now rewrite !app_nil_r. }
  destruct (DBSCAN_fit_predict _ eps min_samples) as [labels|];
    [|discriminate].
  set (z := combine plants labels).
  destruct (group_labelled plants labels min_samples (np_unique labels)
              ([], [])) as [[cl ce]|] eqn:Eg; [|discriminate].
  apply group_labelled_classes in Eg. cbn [fst snd app] in Eg.
  fold z in Eg. destruct Eg as [Hcl Hlen]. specialize (Hlen eq_refl).
  set (keys := filter (kept_label min_samples z) (np_unique labels)) in *.
  assert (Hkeys : NoDup (keys ++ [(-1)%Z])).
  { apply NoDup_app; [apply NoDup_filter, np_unique_NoDup | | ].
    - repeat constructor. intros [].
    - intros a Ha [<- | []]. apply filter_In in Ha.
      destruct Ha as [_ Ha]. unfold kept_label in Ha. simpl in Ha.
      discriminate. }
  destruct (plants_labelled (-1) plants 0 labels) as [noise|] eqn:En;
    [|discriminate].
  apply plants_labelled_class in En. cbn [skipn] in En. fold z in En.
  destruct (combine_fst_prefix plants labels) as [rest Hrest]. fold z in Hrest.
  destruct (classes_are_disjoint _ Hkeys z) as [rest' Hp].
  rewrite flat_map_app in Hp. cbn [flat_map] in Hp.
  rewrite app_nil_r, <- En in Hp.
  rewrite flat_map_concat_map, <- Hcl in Hp.
  assert (Hall : Permutation ((List.concat cl ++ noise) ++ rest' ++ rest)
                   plants).
  { rewrite app_assoc.
    eapply Permutation_trans; [apply Permutation_app_tail; exact Hp|].
    rewrite <- Hrest. reflexivity. }
  assert (Hnoise : Permutation
                     (List.concat (cl ++ map (fun p => [p]) noise)
                      ++ rest' ++ rest) plants)
    by (rewrite concat_app, concat_singletons; exact Hall).
  assert (Hcount : List.length (cl ++ map (fun p => [p]) noise)
                   = List.length (ce ++ map (fun p => [x p; y p]) noise))
    by (rewrite !length_app, !length_map; lia).
  destruct noise as [|p noise]; intro H; injection H as <- <-.
  - split; [exact Hlen|]. exists (rest' ++ rest).
    now rewrite app_nil_r in Hall.
  - split; [exact Hcount|]. exists (rest' ++ rest). exact Hnoise.
Qed.

End DBSCANFacts.

Definition five_plants : list PlantData :=
  map (fun i => {| plant_id := i; x := inject_Z i; y := 0.0;
                   water_needs := "moderate"; area_m2 := 1.0;
                   growth_stage := "vegetative"; crop_coefficient := 0.8 |})
      [1; 2; 3; 4; 5]%Z.

(** X30 with a labelling of five plants that puts three in group 0, one in
    group 1 and leaves one as noise: for [min_samples = 2] the plant of
    group 1 is in no cluster. *)
Lemma dbscan_clusters_example :
  exists clusters centers dropped,
    dbscan_clustering (fun _ _ _ => Some [0; 0; 0; 1; -1]%Z) five_plants 2.0 2
      = Some (clusters, centers) /\
    map (map plant_id) clusters = [[1; 2; 3]; [5]]%Z /\
    Permutation (List.concat clusters ++ dropped) five_plants.
Proof.
  destruct (dbscan_clustering (fun _ _ _ => Some [0; 0; 0; 1; -1]%Z)
              five_plants 2.0 2) as [[clusters centers]|] eqn:E.
  - destruct (dbscan_clusters_are_disjoint _ _ _ _ _ _ E)
      as [_ [dropped Hp]].
    exists clusters, centers, dropped. split; [reflexivity|].
    split; [|exact Hp].
    vm_compute in E. injection E as <- _. reflexivity.
  - vm_compute in E. discriminate.
Defined.

End ClusteringMoreFacts.
